(** * fake-api-gateway-lambda: a shallow embedding of the gateway

    The development follows [src/index.js] (the gateway: routing, event
    construction, dispatch, result conversion, shutdown) and
    [src/child-process-worker.js] (the worker supervisor and the message
    handler of the process boundary).

    JavaScript values are embedded as a small untyped value type, objects as
    association lists of own properties, the [Map] of pending requests as a
    [gmap], and the mutable objects that are shared between the gateway and
    its supervisors (function infos, workers, processes, servers, responses)
    as stores indexed by reference.  Promises are the state of the
    invocation they belong to; an event of a child process runs the listener
    [request] registered for it and then the callbacks chained on the
    promise it settled.

    Left out: the request guards that precede the construction of the event
    (CORS, Referer and Host checks), the request-context hook, [changePort],
    the forwarding of the child's output to the log sinks, and the parts of
    the log lines that depend on the clock. *)

From Stdlib Require Import ZArith String Ascii List Lia Bool.
From stdpp Require Import base option list strings gmap pretty.

Local Open Scope string_scope.

(** ** JavaScript strings

    Strings are sequences of code units; the operations below are the ones
    the source calls, with the argument conventions of the language
    ([slice] accepts negative indices, [lastIndexOf] answers [-1]). *)

Module JsString.
Local Open Scope Z_scope.

Fixpoint startsWith (s p : string) {struct p} : bool :=
  match p with
  | EmptyString => true
  | String c p' =>
      match s with
      | EmptyString => false
      | String d s' => Ascii.eqb d c && startsWith s' p'
      end
  end.

Definition slen (s : string) : Z := Z.of_nat (String.length s).

(** [s.slice(b, e)]: negative positions count from the end, positions are
    clamped to the string. *)
Definition clamp (len i : Z) : Z :=
  if i <? 0 then Z.max (len + i) 0 else Z.min i len.

Definition slice (s : string) (b e : Z) : string :=
  let from := clamp (slen s) b in
  let to := clamp (slen s) e in
  String.substring (Z.to_nat from) (Z.to_nat (Z.max (to - from) 0)) s.

(** [s.slice(b)] *)
Definition sliceFrom (s : string) (b : Z) : string := slice s b (slen s).

Definition endsWith (s suffix : string) : bool :=
  (slen suffix <=? slen s) &&
  String.eqb (sliceFrom s (slen s - slen suffix)) suffix.

(** [s.lastIndexOf(c)] for a one-character search string. *)
Fixpoint lastIndexOf_from (s : string) (c : ascii) (i acc : Z) : Z :=
  match s with
  | EmptyString => acc
  | String d s' => lastIndexOf_from s' c (i + 1) (if Ascii.eqb d c then i else acc)
  end.

Definition lastIndexOf (s : string) (c : ascii) : Z :=
  lastIndexOf_from s c 0 (-1).

(** [s.split(c)] for a one-character separator: never empty. *)
Fixpoint split (c : ascii) (s : string) : list string :=
  match s with
  | EmptyString => [EmptyString]
  | String d s' =>
      if Ascii.eqb d c then EmptyString :: split c s'
      else match split c s' with
           | [] => [String d EmptyString]
           | h :: t => String d h :: t
           end
  end.

End JsString.

(** ** Path router ([matchRoute], index.js) *)

Record FunctionInfo := mkFunctionInfo {
  path : string;
  entry : string;
  handler : option string;
  worker : option nat   (* reference to the ChildProcessWorker of the function *)
}.

Definition exactPrefix (route : string) : string :=
  let braceStart := JsString.lastIndexOf route "{"%char in
  JsString.slice route 0 braceStart.

(** The callback given to [functions.find]. *)
Definition routeMatches (route pathname : string) : bool :=
  let isPattern := JsString.endsWith route "+}" in
  if negb isPattern && String.eqb pathname route then true
  else if isPattern then
    if JsString.startsWith pathname (exactPrefix route) &&
       negb (String.eqb pathname (exactPrefix route))
    then true else false
  else false.

Definition matchRoute (functions : list FunctionInfo) (pathname : string)
  : option FunctionInfo :=
  List.find (fun f => routeMatches (path f) pathname) functions.

(** ** JavaScript values

    The values that cross the process boundary and flow through the gateway.
    Numbers carry an integer payload: the code only inspects their type and
    passes them on.  An object is the list of its own properties in
    enumeration order. *)

#[warning="-register-all"]
Inductive JsValue :=
| JUndefined
| JNull
| JBool (b : bool)
| JNum (n : Z)
| JStr (s : string)
| JArr (l : list JsValue)
| JObj (props : list (string * JsValue)).

Inductive Exc (A : Type) :=
| Ok (a : A)
| Throw (e : JsValue).
Arguments Ok {A} a.
Arguments Throw {A} e.

#[global] Instance Exc_bind : MBind Exc := fun A B k m =>
  match m with
  | Ok a => k a
  | Throw e => Throw e
  end.
#[global] Instance Exc_ret : MRet Exc := fun A a => Ok a.

Definition mkError (name message : string) : JsValue :=
  JObj [("name", JStr name); ("message", JStr message)].
Definition Error_ (message : string) : JsValue := mkError "Error" message.
Definition TypeError (message : string) : JsValue := mkError "TypeError" message.

Module Js.

Definition typeof (v : JsValue) : string :=
  match v with
  | JUndefined => "undefined"
  | JNull => "object"
  | JBool _ => "boolean"
  | JNum _ => "number"
  | JStr _ => "string"
  | JArr _ => "object"
  | JObj _ => "object"
  end.

Definition truthy (v : JsValue) : bool :=
  match v with
  | JUndefined | JNull => false
  | JBool b => b
  | JNum n => negb (n =? 0)%Z
  | JStr s => negb (String.eqb s "")
  | JArr _ | JObj _ => true
  end.

(** [v === s] for a string literal [s]. *)
Definition isString (v : JsValue) (s : string) : bool :=
  match v with
  | JStr t => String.eqb t s
  | _ => false
  end.

(** Own-property lookup, assignment and deletion on an object.  Assigning
    to [__proto__] on an ordinary object runs the inherited setter and
    never creates an own property. *)
Fixpoint obj_get (ps : list (string * JsValue)) (k : string) : JsValue :=
  match ps with
  | [] => JUndefined
  | (k', v) :: r => if String.eqb k' k then v else obj_get r k
  end.

Fixpoint obj_has (ps : list (string * JsValue)) (k : string) : bool :=
  match ps with
  | [] => false
  | (k', _) :: r => String.eqb k' k || obj_has r k
  end.

Fixpoint obj_put (ps : list (string * JsValue)) (k : string) (v : JsValue)
  : list (string * JsValue) :=
  match ps with
  | [] => [(k, v)]
  | (k', v') :: r =>
      if String.eqb k' k then (k', v) :: r else (k', v') :: obj_put r k v
  end.

Definition obj_set (ps : list (string * JsValue)) (k : string) (v : JsValue)
  : list (string * JsValue) :=
  if String.eqb k "__proto__" then ps else obj_put ps k v.

Definition obj_delete (ps : list (string * JsValue)) (k : string)
  : list (string * JsValue) :=
  List.filter (fun p => negb (String.eqb (fst p) k)) ps.

(** The property names every ordinary object inherits from
    [Object.prototype]; [k in o] is true for them whatever [o] holds. *)
Definition Object_prototype_names : list string :=
  [ "constructor"; "__defineGetter__"; "__defineSetter__"; "hasOwnProperty";
    "__lookupGetter__"; "__lookupSetter__"; "isPrototypeOf";
    "propertyIsEnumerable"; "toString"; "valueOf"; "__proto__";
    "toLocaleString" ].

Definition inherited (k : string) : bool :=
  List.existsb (String.eqb k) Object_prototype_names.

(** [k in o] for an object literal [o]. *)
Definition has_in (ps : list (string * JsValue)) (k : string) : bool :=
  obj_has ps k || inherited k.

Fixpoint arr_get_from (l : list JsValue) (i : nat) (k : string) : JsValue :=
  match l with
  | [] => JUndefined
  | x :: r => if String.eqb (pretty i) k then x else arr_get_from r (S i) k
  end.

Fixpoint str_get_from (s : string) (i : nat) (k : string) : JsValue :=
  match s with
  | EmptyString => JUndefined
  | String c r =>
      if String.eqb (pretty i) k then JStr (String c EmptyString)
      else str_get_from r (S i) k
  end.

(** [v[k]] / [v.k] for a data property name [k] (own properties and
    indices; none of the names the source reads is an inherited one). *)
Definition getProp (v : JsValue) (k : string) : Exc JsValue :=
  match v with
  | JUndefined | JNull =>
      Throw (TypeError "Cannot read properties of undefined or null")
  | JObj ps => Ok (obj_get ps k)
  | JArr l => Ok (arr_get_from l 0 k)
  | JStr s => Ok (str_get_from s 0 k)
  | JBool _ | JNum _ => Ok JUndefined
  end.

(** [Reflect.get(target, k)], called on objects only. *)
Definition Reflect_get (target : JsValue) (k : string) : JsValue :=
  match target with
  | JObj ps => obj_get ps k
  | JArr l => arr_get_from l 0 k
  | _ => JUndefined
  end.

Definition indices (n : nat) : list string :=
  List.map (fun i : nat => pretty i) (List.seq 0 n).

Definition Object_keys (v : JsValue) : Exc (list string) :=
  match v with
  | JUndefined | JNull =>
      Throw (TypeError "Cannot convert undefined or null to object")
  | JObj ps => Ok (List.map fst ps)
  | JArr l => Ok (indices (List.length l))
  | JStr s => Ok (indices (String.length s))
  | JBool _ | JNum _ => Ok []
  end.

Fixpoint toString (v : JsValue) : string :=
  match v with
  | JUndefined => "undefined"
  | JNull => "null"
  | JBool b => if b then "true" else "false"
  | JNum n => pretty n
  | JStr s => s
  | JArr l =>
      (fix join (l : list JsValue) : string :=
         match l with
         | [] => ""
         | x :: r =>
             let e := match x with
                      | JUndefined | JNull => ""
                      | _ => toString x
                      end in
             match r with
             | [] => e
             | _ => e ++ "," ++ join r
             end
         end) l
  | JObj _ => "[object Object]"
  end.

End Js.

(** ** [JSON.stringify] *)

Module JSON.

Definition dquote : string := String "034"%char EmptyString.
Definition backslash : string := String "092"%char EmptyString.
Definition newline : string := String "010"%char EmptyString.

Definition hexDigit (n : nat) : string :=
  String.substring n 1 "0123456789abcdef".

Definition quoteChar (c : ascii) : string :=
  let n := nat_of_ascii c in
  if (n =? 8)%nat then backslash ++ "b"
  else if (n =? 9)%nat then backslash ++ "t"
  else if (n =? 10)%nat then backslash ++ "n"
  else if (n =? 12)%nat then backslash ++ "f"
  else if (n =? 13)%nat then backslash ++ "r"
  else if (n =? 34)%nat then backslash ++ dquote
  else if (n =? 92)%nat then backslash ++ backslash
  else if (n <? 32)%nat then
    backslash ++ "u00" ++ hexDigit (n / 16) ++ hexDigit (n mod 16)
  else String c EmptyString.

Fixpoint quoteBody (s : string) : string :=
  match s with
  | EmptyString => EmptyString
  | String c r => quoteChar c ++ quoteBody r
  end.

Definition quote (s : string) : string := dquote ++ quoteBody s ++ dquote.

Fixpoint join (sep : string) (parts : list string) : string :=
  match parts with
  | [] => ""
  | [p] => p
  | p :: r => p ++ sep ++ join sep r
  end.

Definition wrap (opening closing gap stepback indent : string)
           (parts : list string) : string :=
  match parts with
  | [] => opening ++ closing
  | _ =>
      if String.eqb gap "" then opening ++ join "," parts ++ closing
      else opening ++ newline ++ indent
           ++ join ("," ++ newline ++ indent) parts
           ++ newline ++ stepback ++ closing
  end.

(** [None] stands for the [undefined] that marks a value with no JSON
    text: such a property is left out of an object and printed as [null]
    inside an array. *)
Fixpoint serialize (gap indent : string) (v : JsValue) : option string :=
  match v with
  | JUndefined => None
  | JNull => Some "null"
  | JBool b => Some (if b then "true" else "false")
  | JNum n => Some (pretty n)
  | JStr s => Some (quote s)
  | JArr l =>
      let inner := indent ++ gap in
      let parts :=
        (fix elems (l : list JsValue) : list string :=
           match l with
           | [] => []
           | x :: r =>
               match serialize gap inner x with
               | Some t => t
               | None => "null"
               end :: elems r
           end) l in
      Some (wrap "[" "]" gap indent inner parts)
  | JObj ps =>
      let inner := indent ++ gap in
      let colon := if String.eqb gap "" then ":" else ": " in
      let parts :=
        (fix members (ps : list (string * JsValue)) : list string :=
           match ps with
           | [] => []
           | (k, x) :: r =>
               match serialize gap inner x with
               | Some t => (quote k ++ colon ++ t) :: members r
               | None => members r
               end
           end) ps in
      Some (wrap "{" "}" gap indent inner parts)
  end.

Fixpoint spaces (n : nat) : string :=
  match n with
  | O => ""
  | S m => " " ++ spaces m
  end.

(** [JSON.stringify(v, null, n)]; [JSON.stringify(v)] is [stringify v 0]. *)
Definition stringify (v : JsValue) (n : nat) : JsValue :=
  match serialize (spaces n) "" v with
  | Some t => JStr t
  | None => JUndefined
  end.

End JSON.

(** ** Event construction (index.js)

    [rawHeaders] is the flat list [name; value; name; value; ...] the HTTP
    parser hands over.  [out] is an object literal, so the membership test
    [headerName in out] also sees the inherited names. *)

Abbreviation Props := (list (string * JsValue)).

(** [h[i + 1]], given the list that starts at position [i + 1]. *)
Definition valueAt (tl : list string) : JsValue :=
  match tl with
  | [] => JUndefined
  | v :: _ => JStr v
  end.

Fixpoint flattenHeaders_loop (h : list string) (out : Props)
         (deleteList : list string) : Props * list string :=
  match h with
  | [] => (out, deleteList)
  | headerName :: tl =>
      let headerValue := valueAt tl in
      let step :=
        if negb (Js.has_in out headerName)
        then (Js.obj_set out headerName headerValue, deleteList)
        else (out, (deleteList ++ [headerName])%list) in
      match tl with
      | [] => step
      | _ :: rest => flattenHeaders_loop rest (fst step) (snd step)
      end
  end.

Definition flattenHeaders (h : list string) : Props :=
  let '(out, deleteList) := flattenHeaders_loop h [] [] in
  List.fold_left Js.obj_delete deleteList out.

(** [out[headerName].push(headerValue)]: the own property is an array; an
    inherited member has no [push]. *)
Definition pushValue (out : Props) (headerName : string) (headerValue : JsValue)
  : Exc Props :=
  if Js.obj_has out headerName then
    match Js.obj_get out headerName with
    | JArr l => Ok (Js.obj_put out headerName (JArr (l ++ [headerValue])%list))
    | _ => Throw (TypeError "out[headerName].push is not a function")
    end
  else Throw (TypeError "out[headerName].push is not a function").

Fixpoint multiValueHeaders_loop (h : list string) (out : Props) : Exc Props :=
  match h with
  | [] => Ok out
  | headerName :: tl =>
      let headerValue := valueAt tl in
      out' ← (if negb (Js.has_in out headerName)
              then Ok (Js.obj_set out headerName (JArr [headerValue]))
              else pushValue out headerName headerValue);
      match tl with
      | [] => Ok out'
      | _ :: rest => multiValueHeaders_loop rest out'
      end
  end.

Definition multiValueHeaders (h : list string) : Exc Props :=
  multiValueHeaders_loop h [].

(** The parsed query of [url.parse(reqUrl, true)]: every key holds a string,
    or the array of its values when the key is repeated. *)
Inductive QsValue :=
| QStr (s : string)
| QArr (l : list string).

Abbreviation Query := (list (string * QsValue)).

Fixpoint qs_get (qs : Query) (k : string) : option QsValue :=
  match qs with
  | [] => None
  | (k', v) :: r => if String.eqb k' k then Some v else qs_get r k
  end.

(** The query parser of the host, on the decoded [key=value] pairs of the
    query string, in order: the first value of a key is stored as a string,
    a second one turns it into an array, later ones are appended.  The
    object it fills has no prototype. *)
Fixpoint qs_add (qs : Query) (k v : string) : Query :=
  match qs with
  | [] => [(k, QStr v)]
  | (k', x) :: r =>
      if String.eqb k' k
      then (k', match x with
                | QStr a => QArr [a; v]
                | QArr l => QArr (l ++ [v])%list
                end) :: r
      else (k', x) :: qs_add r k v
  end.

Definition querystring_parse (pairs : list (string * string)) : Query :=
  List.fold_left (fun qs p => qs_add qs (fst p) (snd p)) pairs [].

(** [v[v.length - 1]] *)
Definition lastOf (l : list string) : JsValue :=
  match List.rev l with
  | [] => JUndefined
  | s :: _ => JStr s
  end.

Definition singleValueQueryString (qs : Query) : Props :=
  List.fold_left
    (fun out key =>
       match qs_get qs key with
       | Some v =>
           Js.obj_set out key (match v with
                               | QStr text => JStr text
                               | QArr values => lastOf values
                               end)
       | None => out
       end)
    (List.map fst qs) [].

Definition multiValueObject (h : Query) : Props :=
  List.fold_left
    (fun out key =>
       match qs_get h key with
       | Some (QStr v) => Js.obj_set out key (JArr [JStr v])
       | Some (QArr v) => Js.obj_set out key (JArr (List.map JStr v))
       | None => out
       end)
    (List.map fst h) [].

(** ** Result shape contract ([checkResult], child-process-worker.js) *)

Definition checkResult (v : JsValue) : bool :=
  if negb (String.eqb (Js.typeof v) "object") || negb (Js.truthy v) then false
  else if negb (String.eqb (Js.typeof (Js.Reflect_get v "isBase64Encoded")) "boolean")
  then false
  else if negb (String.eqb (Js.typeof (Js.Reflect_get v "statusCode")) "number")
  then false
  else if negb (String.eqb (Js.typeof (Js.Reflect_get v "headers")) "object")
  then false
  else
    let mvHeaders := Js.Reflect_get v "multiValueHeaders" in
    if Js.truthy mvHeaders && negb (String.eqb (Js.typeof mvHeaders) "object")
    then false
    else if negb (String.eqb (Js.typeof (Js.Reflect_get v "body")) "string")
    then false
    else true.

(** ** State and exceptions

    A statement sequence that mutates an object and may throw is a function
    from the state to an outcome and the state reached: what was mutated
    before a [throw] stays mutated. *)

Definition SE (S A : Type) : Type := S -> Exc A * S.

#[global] Instance SE_ret {S} : MRet (SE S) := fun A a σ => (Ok a, σ).
#[global] Instance SE_bind {S} : MBind (SE S) := fun A B k m σ =>
  match m σ with
  | (Ok a, σ') => k a σ'
  | (Throw e, σ') => (Throw e, σ')
  end.

Definition throw {S A} (e : JsValue) : SE S A := fun σ => (Throw e, σ).
Definition modify {S} (f : S -> S) : SE S unit := fun σ => (Ok tt, f σ).
Definition liftExc {S A} (m : Exc A) : SE S A := fun σ => (m, σ).

Fixpoint forEach {S A} (l : list A) (body : A -> SE S unit) : SE S unit :=
  match l with
  | [] => mret tt
  | x :: r => body x ;; forEach r body
  end.

(** ** The host: what the gateway relies on from the HTTP and URL modules

    [setHeader] rejects names and values the host considers invalid, [end]
    rejects a status code outside the range the host accepts, and
    [new URL(path, base)] either yields a pathname or throws. *)

Class NodeHost := {
  validHeaderName : string -> bool;
  validHeaderValue : JsValue -> bool;
  validStatusCode : JsValue -> bool;
  validStatusCode_range :
    forall n : Z, (100 <= n <= 999)%Z -> validStatusCode (JNum n) = true;
  url_pathname : string -> option string
}.

(** *** The response object of the HTTP server *)

Record ServerResponse := mkServerResponse {
  statusCode : JsValue;
  resHeaders : Props;
  finished : bool;
  resBody : string
}.

Definition freshResponse : ServerResponse :=
  {| statusCode := JNum 200; resHeaders := []; finished := false; resBody := "" |}.

Definition lowerChar (c : ascii) : ascii :=
  let n := nat_of_ascii c in
  if (65 <=? n)%nat && (n <=? 90)%nat then ascii_of_nat (n + 32) else c.

Fixpoint toLowerCase (s : string) : string :=
  match s with
  | EmptyString => EmptyString
  | String c r => String (lowerChar c) (toLowerCase r)
  end.

Section Response.
Context `{NodeHost}.

(** [res.statusCode = v] *)
Definition setStatusCode (v : JsValue) : SE ServerResponse unit :=
  modify (fun res =>
    {| statusCode := v; resHeaders := resHeaders res;
       finished := finished res; resBody := resBody res |}).

(** [res.setHeader(name, value)] *)
Definition setHeader (name : string) (value : JsValue) : SE ServerResponse unit :=
  fun res =>
    if finished res then (Throw (Error_ "ERR_HTTP_HEADERS_SENT"), res)
    else if negb (validHeaderName name)
    then (Throw (TypeError "ERR_INVALID_HTTP_TOKEN"), res)
    else if negb (validHeaderValue value)
    then (Throw (TypeError "ERR_HTTP_INVALID_HEADER_VALUE"), res)
    else (Ok tt,
          {| statusCode := statusCode res;
             resHeaders := Js.obj_put (resHeaders res) (toLowerCase name) value;
             finished := finished res; resBody := resBody res |}).

(** [res.end(chunk)]: a second [end] is ignored; a falsy chunk writes no
    body; any other chunk has to be a string. *)
Definition end_ (chunk : JsValue) : SE ServerResponse unit :=
  fun res =>
    if finished res then (Ok tt, res)
    else if negb (validStatusCode (statusCode res))
    then (Throw (mkError "RangeError" "ERR_HTTP_INVALID_STATUS_CODE"), res)
    else if Js.truthy chunk then
      match chunk with
      | JStr s =>
          (Ok tt, {| statusCode := statusCode res; resHeaders := resHeaders res;
                     finished := true; resBody := s |})
      | _ => (Throw (TypeError "ERR_INVALID_ARG_TYPE"), res)
      end
    else (Ok tt, {| statusCode := statusCode res; resHeaders := resHeaders res;
                    finished := true; resBody := resBody res |}).

(** [for (const key of Object.keys(h)) res.setHeader(key, h[key])] *)
Definition applyHeaders (h : JsValue) : SE ServerResponse unit :=
  keys ← liftExc (Js.Object_keys h);
  forEach keys (fun key => v ← liftExc (Js.getProp h key); setHeader key v).

Definition forbiddenMessage : JsValue := JObj [("message", JStr "Forbidden")].

(** The statements of [handleLambdaResult] that follow
    [const res = pending.res]. *)
Definition writeResult (result : JsValue) : SE ServerResponse unit :=
  sc ← liftExc (Js.getProp result "statusCode");
  setStatusCode sc;;
  headers ← liftExc (Js.getProp result "headers");
  applyHeaders headers;;
  mv ← liftExc (Js.getProp result "multiValueHeaders");
  (if Js.truthy mv then applyHeaders mv else mret tt);;
  isBase64Encoded ← liftExc (Js.getProp result "isBase64Encoded");
  if Js.truthy isBase64Encoded then
    setStatusCode (JNum 400);;
    end_ (JSON.stringify forbiddenMessage 0)
  else
    body ← liftExc (Js.getProp result "body");
    end_ body.

End Response.

(** ** The objects of the gateway and their stores *)

Record Server := mkServer { listening : bool }.

Inductive Settled :=
| Pending
| Resolved (value : JsValue)
| Rejected (reason : JsValue).

Inductive LogLine :=
| LogStart (id : string)
| LogEndReport (id : string)
| LogError (stack : list string).

Record WorkerOptions := mkWorkerOptions {
  runtime : string;
  optEntry : string;
  optHandler : option string
}.

(** A spawned child process together with the variables its handlers close
    over in [request]: the captured [error], the [once] listeners that are
    still armed and the promise [ready]. *)
Record Proc := mkProc {
  running : bool;
  argv : list JsValue;
  sent : list JsValue;          (* messages given to [proc.send] *)
  owner : nat;                  (* the worker whose [request] spawned it *)
  corrId : string;              (* the [id] argument of that [request] *)
  error : option string;        (* [None]: still [undefined] *)
  stderrOnce : bool;
  messageOnce : bool;
  exitOnce : bool;
  ready : Settled
}.

Record ChildProcessWorker := mkWorker {
  procs : list nat;
  latestId : option string;
  options : WorkerOptions;
  stdout : list LogLine
}.

Record PendingEntry := mkPending { res : nat; pendingId : string }.

(** The fields of the gateway ([this.httpServer], [this.httpsServer],
    [this.functions], [this.pendingRequests]) and the stores of the objects
    they refer to. *)
Record World := mkWorld {
  httpServer : option nat;
  httpsServer : option nat;
  functions : list nat;
  pendingRequests : gmap string PendingEntry;
  serverStore : list Server;
  funStore : list FunctionInfo;
  workerStore : list ChildProcessWorker;
  procStore : list Proc;
  resStore : list ServerResponse
}.

Definition emptyWorld : World :=
  mkWorld None None [] ∅ [] [] [] [] [].

Definition set_httpServer (v : option nat) (σ : World) : World :=
  mkWorld v (httpsServer σ) (functions σ) (pendingRequests σ) (serverStore σ)
          (funStore σ) (workerStore σ) (procStore σ) (resStore σ).
Definition set_httpsServer (v : option nat) (σ : World) : World :=
  mkWorld (httpServer σ) v (functions σ) (pendingRequests σ) (serverStore σ)
          (funStore σ) (workerStore σ) (procStore σ) (resStore σ).
Definition set_functions (f : list nat -> list nat) (σ : World) : World :=
  mkWorld (httpServer σ) (httpsServer σ) (f (functions σ)) (pendingRequests σ)
          (serverStore σ) (funStore σ) (workerStore σ) (procStore σ) (resStore σ).
Definition set_pendingRequests
           (f : gmap string PendingEntry -> gmap string PendingEntry) (σ : World)
  : World :=
  mkWorld (httpServer σ) (httpsServer σ) (functions σ) (f (pendingRequests σ))
          (serverStore σ) (funStore σ) (workerStore σ) (procStore σ) (resStore σ).
Definition set_serverStore (f : list Server -> list Server) (σ : World) : World :=
  mkWorld (httpServer σ) (httpsServer σ) (functions σ) (pendingRequests σ)
          (f (serverStore σ)) (funStore σ) (workerStore σ) (procStore σ) (resStore σ).
Definition set_funStore (f : list FunctionInfo -> list FunctionInfo) (σ : World)
  : World :=
  mkWorld (httpServer σ) (httpsServer σ) (functions σ) (pendingRequests σ)
          (serverStore σ) (f (funStore σ)) (workerStore σ) (procStore σ) (resStore σ).
Definition set_workerStore
           (f : list ChildProcessWorker -> list ChildProcessWorker) (σ : World)
  : World :=
  mkWorld (httpServer σ) (httpsServer σ) (functions σ) (pendingRequests σ)
          (serverStore σ) (funStore σ) (f (workerStore σ)) (procStore σ) (resStore σ).
Definition set_procStore (f : list Proc -> list Proc) (σ : World) : World :=
  mkWorld (httpServer σ) (httpsServer σ) (functions σ) (pendingRequests σ)
          (serverStore σ) (funStore σ) (workerStore σ) (f (procStore σ)) (resStore σ).
Definition set_resStore (f : list ServerResponse -> list ServerResponse) (σ : World)
  : World :=
  mkWorld (httpServer σ) (httpsServer σ) (functions σ) (pendingRequests σ)
          (serverStore σ) (funStore σ) (workerStore σ) (procStore σ) (f (resStore σ)).

(** ** Worker supervisor (child-process-worker.js) *)

Definition WORKER_PATH : string := "/tmp/worker.js".

(** [new ChildProcessWorker(options)] *)
Definition newChildProcessWorker (opts : WorkerOptions) : Exc ChildProcessWorker :=
  if negb (JsString.startsWith (runtime opts) "nodejs:")
  then Throw (Error_ "only node.js runtime supported currently")
  else Ok {| procs := []; latestId := None; options := opts; stdout := [] |}.

Definition optional (o : option string) : JsValue :=
  match o with
  | Some s => JStr s
  | None => JUndefined
  end.

(** The message [request] gives to [proc.send]. *)
Definition eventMessage (id : string) (eventObject : JsValue) : JsValue :=
  JObj [("message", JStr "event"); ("id", JStr id); ("eventObject", eventObject)].

(** [subprocess.kill(signal)] of the host.  Signal [0] is handed to the
    operating system as it is, where it only probes that the process exists:
    nothing is delivered to the process.  Any other signal of the model
    terminates it. *)
Definition kill (signal : Z) (p : Proc) : Proc :=
  if (signal =? 0)%Z then p
  else mkProc false (argv p) (sent p) (owner p) (corrId p) (error p)
              (stderrOnce p) (messageOnce p) (exitOnce p) (ready p).

Definition writeLog (line : LogLine) (wk : ChildProcessWorker) : ChildProcessWorker :=
  mkWorker (procs wk) (latestId wk) (options wk) (stdout wk ++ [line])%list.

(** [response.resolve] / [response.reject]: a settled promise stays as it is. *)
Definition settle (s : Settled) (p : Proc) : Proc :=
  match ready p with
  | Pending =>
      mkProc (running p) (argv p) (sent p) (owner p) (corrId p) (error p)
             (stderrOnce p) (messageOnce p) (exitOnce p) s
  | _ => p
  end.

(** [request(id, eventObject)] on worker [w]; answers the reference of the
    process whose promise [ready] it returns. *)
Definition request (w : nat) (id : string) (eventObject : JsValue) : SE World nat :=
  fun σ =>
    match workerStore σ !! w with
    | None => (Throw (TypeError "Cannot read properties of undefined"), σ)
    | Some wk =>
        let pid := List.length (procStore σ) in
        let proc :=
          {| running := true;
             argv := [JStr WORKER_PATH; JStr (optEntry (options wk));
                      optional (optHandler (options wk))];
             sent := [eventMessage id eventObject];
             owner := w; corrId := id; error := None;
             stderrOnce := true; messageOnce := true; exitOnce := true;
             ready := Pending |} in
        let wk' :=
          mkWorker (procs wk ++ [pid])%list (Some id) (options wk)
                   (stdout wk ++ [LogStart id])%list in
        (Ok pid,
         set_procStore (fun ps => ps ++ [proc])%list
           (set_workerStore (fun ws => <[w := wk']> ws) σ))
    end.

(** The [once('message')] handler of [request], for the process [pid]
    spawned by worker [w]. *)
Definition onMessage (w pid : nat) (msg : JsValue) : SE World unit :=
  if negb (String.eqb (Js.typeof msg) "object")
     || match msg with JNull => true | _ => false end
  then throw (Error_ "bad data type from child process")
  else
    messageType ← liftExc (Js.getProp msg "message");
    if negb (Js.isString messageType "result") then
      ty ← liftExc (Js.getProp msg "type");
      throw (Error_ ("incorrect type field from child process:" ++ Js.toString ty))
    else
      id ← liftExc (Js.getProp msg "id");
      match id with
      | JStr idText =>
          resultObj ← liftExc (Js.getProp msg "result");
          if negb (checkResult resultObj) then
            throw (Error_ ("missing result from child process:"
                           ++ Js.toString resultObj))
          else
            modify (set_workerStore (alter (writeLog (LogEndReport idText)) w));;
            modify (set_procStore (alter (settle (Resolved resultObj)) pid));;
            modify (set_procStore (alter (kill 0) pid))
      | _ => throw (Error_ ("missing id from child process:" ++ Js.toString id))
      end.

(** The [once('exit')] handler. [code] is [None] when the process was ended
    by a signal ([null] in the source, which differs from [0]). *)
Definition onExit (w pid : nat) (err : option string) (code : option Z)
  : SE World unit :=
  if match code with Some 0%Z => false | _ => true end then
    match err with
    | None => throw (TypeError "Cannot read properties of undefined (reading 'split')")
    | Some text =>
        modify (set_workerStore
                  (alter (writeLog (LogError (JsString.split "010"%char text))) w));;
        modify (set_procStore
                  (alter (settle (Rejected
                            (JObj [("message", JStr "Internal Server Error");
                                   ("error", JStr text)]))) pid))
    end
  else mret tt.

(** [close()] of a worker *)
Definition workerClose (w : nat) : SE World unit :=
  fun σ =>
    match workerStore σ !! w with
    | None => (Throw (TypeError "Cannot read properties of undefined"), σ)
    | Some wk =>
        let σ1 :=
          List.fold_left (fun σ v => set_procStore (alter (kill 0) v) σ) (procs wk) σ in
        (Ok tt,
         set_workerStore
           (alter (fun wk => mkWorker [] (latestId wk) (options wk) (stdout wk)) w) σ1)
    end.

(** ** Gateway (index.js) *)

Record Options := mkOptions {
  routes : option (list (string * string));     (* path -> entry, in key order *)
  optFunctions : list FunctionInfo;             (* the expanded list *)
  withHttps : bool                              (* key, cert and port all given *)
}.

(** [addWorker(fun)], [fun] being a reference to a function-info object. *)
Definition addWorker (f : nat) : SE World unit :=
  fun σ =>
    match funStore σ !! f with
    | None => (Throw (TypeError "Cannot read properties of undefined"), σ)
    | Some info =>
        let opts := {| runtime := "nodejs:12.x"; optEntry := entry info;
                       optHandler := handler info |} in
        match newChildProcessWorker opts with
        | Throw e => (Throw e, σ)
        | Ok wk =>
            let w := List.length (workerStore σ) in
            let info' := mkFunctionInfo (path info) (entry info) (handler info) (Some w) in
            (Ok tt,
             set_functions (fun fs => fs ++ [f])%list
               (set_funStore (fun s => <[f := info']> s)
                  (set_workerStore (fun ws => ws ++ [wk])%list σ)))
        end
    end.

(** The function infos the constructor builds from its options. *)
Definition initialFunctions (opts : Options) : list FunctionInfo :=
  match routes opts with
  | Some rs => List.map (fun kv => mkFunctionInfo (fst kv) (snd kv) None None) rs
  | None =>
      List.map (fun f => mkFunctionInfo (path f) (entry f) (handler f) (worker f))
               (optFunctions opts)
  end.

(** [new FakeApiGatewayLambda(options)] *)
Definition construct (opts : Options) : SE World unit :=
  modify (fun _ =>
    let infos := initialFunctions opts in
    mkWorld (Some 0%nat) (if withHttps opts then Some 1%nat else None) [] ∅
            (if withHttps opts then [mkServer false; mkServer false]
             else [mkServer false])
            infos [] [] []);;
  forEach (List.seq 0 (List.length (initialFunctions opts))) addWorker.

(** [server.listen(port, cb)]: a server that listens already throws
    [ERR_SERVER_ALREADY_LISTEN]; any other starts to listen. *)
Definition listen (s : nat) : SE World unit :=
  fun σ =>
    match listening <$> serverStore σ !! s with
    | Some true =>
        (Throw (Error_ "Listen method has been called more than once without closing."),
         σ)
    | _ => modify (set_serverStore (fun ss => <[s := mkServer true]> ss)) σ
    end.

(** [server.close(cb)], as far as the call goes: the server stops listening
    at once.  Node calls [cb] back only when the last connection of the
    server has ended. *)
Definition serverClose (s : option nat) : SE World unit :=
  match s with
  | Some r => modify (set_serverStore (fun ss => <[r := mkServer false]> ss))
  | None => mret tt
  end.

(** [bootstrap()] *)
Definition bootstrap : SE World unit :=
  fun σ =>
    match httpServer σ with
    | None => (Throw (Error_ "cannot bootstrap closed server"), σ)
    | Some server =>
        ((match httpsServer σ with
          | Some s => listen s
          | None => mret tt
          end);;
         listen server;;
         forEach (functions σ) addWorker) σ
    end.

(** The table [matchRoute] scans: the objects [this.functions] refers to. *)
Definition functionTable (σ : World) : list FunctionInfo :=
  omap (fun f => funStore σ !! f) (functions σ).

(** What [dispatch] returns: a promise already settled, or the promise
    [ready] of the process it spawned. *)
Inductive Dispatched :=
| Now (s : Settled)
| Awaiting (pid : nat).

Definition forbiddenResult : JsValue :=
  JObj [("isBase64Encoded", JBool false);
        ("statusCode", JNum 403);
        ("headers", JObj []);
        ("body", JSON.stringify (JObj [("message", JStr "Forbidden")]) 0);
        ("multiValueHeaders", JObj [])].

Section Gateway.
Context `{NodeHost}.

(** [dispatch(id, eventObject)]: an [async] function, so what it throws
    rejects the promise it returns. *)
Definition dispatch (id : string) (eventObject : JsValue) (σ : World)
  : Dispatched * World :=
  match Js.getProp eventObject "path" with
  | Throw e => (Now (Rejected e), σ)
  | Ok p =>
      match url_pathname (Js.toString p) with
      | None => (Now (Rejected (TypeError "Invalid URL")), σ)
      | Some pathname =>
          match matchRoute (functionTable σ) pathname with
          | Some matched =>
              match worker matched with
              | None =>
                  (Now (Rejected (TypeError "Cannot read properties of undefined")), σ)
              | Some w =>
                  match request w id eventObject σ with
                  | (Ok pid, σ') => (Awaiting pid, σ')
                  | (Throw e, σ') => (Now (Rejected e), σ')
                  end
              end
          | None => (Now (Resolved forbiddenResult), σ)
          end
      end
  end.

(** Run statements on the response object [r] refers to. *)
Definition onResponse (r : nat) (m : SE ServerResponse unit) : SE World unit :=
  fun σ =>
    match resStore σ !! r with
    | None => (Throw (TypeError "Cannot set properties of undefined"), σ)
    | Some response =>
        let '(out, response') := m response in
        (out, set_resStore (fun rs => <[r := response']> rs) σ)
    end.

(** [handleLambdaResult(id, result)] *)
Definition handleLambdaResult (id : string) (result : JsValue) : SE World unit :=
  fun σ =>
    match pendingRequests σ !! id with
    | None =>
        (Throw (Error_ "response without request: should never happen"), σ)
    | Some pending =>
        onResponse (res pending) (writeResult result)
                   (set_pendingRequests (delete id) σ)
    end.

(** The result the [catch] callback of [doDispatch] builds from [err]. *)
Definition crashResult (err : JsValue) : Exc JsValue :=
  message ← Js.getProp err "message";
  e ← Js.getProp err "error";
  match e with
  | JStr text =>
      Ok (JObj [("statusCode", JNum 500);
                ("headers", JObj []);
                ("body",
                 JSON.stringify
                   (JObj [("message", message);
                          ("stack", JArr (List.map JStr (JsString.split "010"%char text)))])
                   2)])
  | _ => Throw (TypeError "err.error.split is not a function")
  end.

Definition catchCallback (id : string) (err : JsValue) : SE World unit :=
  result ← liftExc (crashResult err);
  handleLambdaResult id result.

(** [promise.then(result => ...).catch(err => ...)] of [doDispatch], run
    on the settled promise; what it throws is an unhandled rejection. *)
Definition deliver (id : string) (s : Settled) : SE World unit :=
  match s with
  | Pending => mret tt
  | Resolved result =>
      fun σ =>
        match handleLambdaResult id result σ with
        | (Ok u, σ') => (Ok u, σ')
        | (Throw e, σ') => catchCallback id e σ'
        end
  | Rejected err => catchCallback id err
  end.

(** [doDispatch], for the response object [r] of the request, with [id]
    the identifier [cuuid()] produced. *)
Definition doDispatch (id : string) (r : nat) (eventObject : JsValue)
  : SE World unit :=
  fun σ =>
    let σ1 := set_pendingRequests (fun m => <[id := mkPending r id]> m) σ in
    match dispatch id eventObject σ1 with
    | (Now s, σ2) => deliver id s σ2
    | (Awaiting _, σ2) => (Ok tt, σ2)
    end.

(** What a child process can make the gateway observe. *)
Inductive ProcEvent :=
| StderrData (chunk : string)
| Message (msg : JsValue)
| Exit (code : option Z)
| ProcError (err : JsValue).

Definition disarm (ev : ProcEvent) (p : Proc) : Proc :=
  match ev with
  | StderrData chunk =>
      if stderrOnce p then
        mkProc (running p) (argv p) (sent p) (owner p) (corrId p) (Some chunk)
               false (messageOnce p) (exitOnce p) (ready p)
      else p
  | Message _ =>
      mkProc (running p) (argv p) (sent p) (owner p) (corrId p) (error p)
             (stderrOnce p) false (exitOnce p) (ready p)
  | Exit _ =>
      mkProc false (argv p) (sent p) (owner p) (corrId p) (error p)
             (stderrOnce p) (messageOnce p) false (ready p)
  | ProcError _ => p
  end.

(** The listener [request] registered for the event, if still armed. *)
Definition listener (pid : nat) (p : Proc) (ev : ProcEvent) : SE World unit :=
  match ev with
  | StderrData _ => mret tt
  | Message msg => if messageOnce p then onMessage (owner p) pid msg else mret tt
  | Exit code => if exitOnce p then onExit (owner p) pid (error p) code else mret tt
  | ProcError err => modify (set_procStore (alter (settle (Rejected err)) pid))
  end.

Definition readyOf (σ : World) (pid : nat) : Settled :=
  match procStore σ !! pid with
  | Some p => ready p
  | None => Pending
  end.

(** One event of process [pid]: the listener runs (what it throws is an
    uncaught exception of the gateway); if it settled [ready], the
    callbacks [doDispatch] chained on the promise run. *)
Definition procEvent (pid : nat) (ev : ProcEvent) : SE World unit :=
  fun σ =>
    match procStore σ !! pid with
    | None => (Ok tt, σ)
    | Some p =>
        let σ1 := set_procStore (alter (disarm ev) pid) σ in
        match listener pid p ev σ1 with
        | (Throw e, σ2) => (Throw e, σ2)
        | (Ok _, σ2) =>
            match ready p with
            | Pending => deliver (corrId p) (readyOf σ2 pid) σ2
            | _ => (Ok tt, σ2)
            end
        end
    end.

(** [close()], in the run in which both servers call back, that is, once
    their connections have ended: the three calls are made, the [await]
    returns and the servers are dropped.  While a connection stays open the
    call has got as far as the workers and the last two steps have not run. *)
Definition close : SE World unit :=
  fun σ =>
    (serverClose (httpServer σ);;
     serverClose (httpsServer σ);;
     forEach (functionTable σ)
       (fun f => match worker f with
                 | Some w => workerClose w
                 | None => throw (TypeError "Cannot read properties of undefined")
                 end);;
     modify (set_httpServer None);;
     modify (set_httpsServer None)) σ.

End Gateway.

(** The HTTP server hands every request a response object of its own. *)
Definition newResponse : SE World nat :=
  fun σ => (Ok (List.length (resStore σ)),
            set_resStore (fun rs => rs ++ [freshResponse])%list σ).

(** The event object [handleServerRequest] builds once the body is read. *)
Definition buildEvent (url method : option string) (rawHeaders : list string)
           (query : Query) (body : string) : Exc JsValue :=
  let headers := flattenHeaders rawHeaders in
  mv ← multiValueHeaders rawHeaders;
  Ok (JObj [("resource", JStr "/{proxy+}");
            ("path", JStr (match url with Some u => if String.eqb u "" then "/" else u
                                     | None => "/" end));
            ("httpMethod", JStr (match method with
                                 | Some m => if String.eqb m "" then "GET" else m
                                 | None => "GET" end));
            ("headers", JObj headers);
            ("multiValueHeaders", JObj mv);
            ("queryStringParameters", JObj (singleValueQueryString query));
            ("multiValueQueryStringParameters", JObj (multiValueObject query));
            ("pathParameters", JObj []);
            ("stageVariables", JObj []);
            ("requestContext", JObj []);
            ("body", JStr body);
            ("isBase64Encoded", JBool false)]).

(** ** A host for worked examples

    Header names are HTTP tokens, a header value is anything but
    [undefined], status codes are the integers from 100 to 999, and the
    pathname of a plain absolute path is the path up to its query or
    fragment. *)

Definition isTokenChar (c : ascii) : bool :=
  let n := nat_of_ascii c in
  ((48 <=? n) && (n <=? 57) || (65 <=? n) && (n <=? 90) || (97 <=? n) && (n <=? 122)
   || List.existsb (Nat.eqb n) [33; 35; 36; 37; 38; 39; 42; 43; 45; 46; 94; 95; 96; 124; 126])%nat.

Fixpoint allChars (f : ascii -> bool) (s : string) : bool :=
  match s with
  | EmptyString => true
  | String c r => f c && allChars f r
  end.

Fixpoint beforeQuery (s : string) : string :=
  match s with
  | EmptyString => EmptyString
  | String c r =>
      if Ascii.eqb c "?"%char || Ascii.eqb c "#"%char then EmptyString
      else String c (beforeQuery r)
  end.

Definition plainStatus (v : JsValue) : bool :=
  match v with
  | JNum n => (100 <=? n)%Z && (n <=? 999)%Z
  | _ => false
  end.

Definition PlainHost : NodeHost :=
  {| validHeaderName := fun name => negb (String.eqb name "") && allChars isTokenChar name;
     validHeaderValue := fun v => match v with JUndefined => false | _ => true end;
     validStatusCode := plainStatus;
     validStatusCode_range := fun n bounds =>
       eq_trans
         (f_equal2 andb (proj2 (Z.leb_le 100 n) (proj1 bounds))
                        (proj2 (Z.leb_le n 999) (proj2 bounds)))
         eq_refl;
     url_pathname := fun p => Some (beforeQuery p) |}.

(** * Definitions for the statements

    Three kinds of definitions serve the properties: readings of the
    specification, which follow its words and are compared with the code
    ([proxyPattern], [patternMatches], [firstOccurrence], [specEventShape],
    [specResultShape]); views of the code that the statements and proofs
    name (the pairs a loop reads, one turn of a loop, the state a handler
    leaves); and the worked requests of the examples. *)

(** ** Routing and flattening *)

(** [c] occurs in [s]. *)
Fixpoint occursIn (c : ascii) (s : string) : bool :=
  match s with
  | EmptyString => false
  | String d r => Ascii.eqb d c || occursIn c r
  end.

(** The routing rule in the words of the specification, which these
    definitions follow without looking at the code.  A proxy pattern is a
    literal prefix followed by the proxy marker and nothing more; the
    marker is the greedy path variable [{name+}], whose name holds no
    opening brace, so that a pattern has one literal prefix at most. *)
Definition proxyPattern (route prefix : string) : Prop :=
  exists name, occursIn "{" name = false /\ route = prefix ++ "{" ++ name ++ "+}".

Definition isProxyPattern (route : string) : Prop :=
  exists prefix, proxyPattern route prefix.

(** An exact pattern matches the pathname equal to it, a proxy pattern the
    pathnames that start with its literal prefix and differ from that
    prefix. *)
Definition patternMatches (route pathname : string) : Prop :=
  (~ isProxyPattern route /\ pathname = route) \/
  (exists prefix,
      proxyPattern route prefix /\
      (exists rest, pathname = prefix ++ rest) /\
      pathname <> prefix).

(** The patterns the rule is proved for: the proxy patterns, and the exact
    patterns that do not end the way a marker ends. *)
Definition plainPattern (route : string) : Prop :=
  isProxyPattern route \/ forall stem, route <> stem ++ "+}".

(** The raw header list read as [(name, value)] pairs, and the decoded
    pairs of a query string as values. *)
Fixpoint headerPairs (h : list string) : list (string * JsValue) :=
  match h with
  | [] => []
  | name :: tl =>
      (name, valueAt tl) :: match tl with
                            | [] => []
                            | _ :: rest => headerPairs rest
                            end
  end.

Definition queryPairs (pairs : list (string * string)) : list (string * JsValue) :=
  List.map (fun p => (fst p, JStr (snd p))) pairs.

(** The values given to name [k], in order of occurrence. *)
Definition occurrences (k : string) (ps : list (string * JsValue)) : list JsValue :=
  List.map snd (List.filter (fun p => String.eqb (fst p) k) ps).

(** Single-valued forms: the first occurrence of a name, its last
    occurrence, and its value when it occurs exactly once. *)
Definition firstOccurrence (k : string) (ps : list (string * JsValue)) : JsValue :=
  match occurrences k ps with
  | [] => JUndefined
  | v :: _ => v
  end.

Definition lastOccurrence (k : string) (ps : list (string * JsValue)) : JsValue :=
  match List.rev (occurrences k ps) with
  | [] => JUndefined
  | v :: _ => v
  end.

Definition soleOccurrence (k : string) (ps : list (string * JsValue)) : JsValue :=
  match occurrences k ps with
  | [v] => v
  | _ => JUndefined
  end.

(** Multi-valued form: every occurrence of a name, in order. *)
Definition allOccurrences (k : string) (ps : list (string * JsValue)) : JsValue :=
  match occurrences k ps with
  | [] => JUndefined
  | vs => JArr vs
  end.

(** No name of the list is a member every object inherits. *)
Definition plainNames (ps : list (string * JsValue)) : Prop :=
  Forall (fun p => Js.inherited (fst p) = false) ps.

(** The values a query string gives to key [k], in order. *)
Definition valuesOf (k : string) (pairs : list (string * string)) : list string :=
  List.map snd (List.filter (fun p => String.eqb (fst p) k) pairs).

(** ** The loops of the event construction, turn by turn *)

(** One turn of the loop of [flattenHeaders], on the pair it reads. *)
Definition flattenStep (st : Props * list string) (p : string * JsValue)
  : Props * list string :=
  if negb (Js.has_in (fst st) (fst p))
  then (Js.obj_set (fst st) (fst p) (snd p), snd st)
  else (fst st, (snd st ++ [fst p])%list).

Definition isNil {A} (l : list A) : bool :=
  match l with
  | [] => true
  | _ => false
  end.

Definition severalIn {A} (l : list A) : bool :=
  match l with
  | _ :: _ :: _ => true
  | _ => false
  end.

(** One turn of the loop of [multiValueHeaders]. *)
Definition multiStep (out : Props) (p : string * JsValue) : Exc Props :=
  if negb (Js.has_in out (fst p))
  then Ok (Js.obj_set out (fst p) (JArr [snd p]))
  else pushValue out (fst p) (snd p).

Definition multiFold (ps : list (string * JsValue)) (start : Exc Props) : Exc Props :=
  List.fold_left (fun acc p => acc ≫= fun out => multiStep out p) ps start.

Definition stored (vs : list string) : option QsValue :=
  match vs with
  | [] => None
  | [v] => Some (QStr v)
  | _ => Some (QArr vs)
  end.

(** The loop shared by [singleValueQueryString] and [multiValueObject]:
    every key of the query is assigned the converted value it holds. *)
Definition assignAll (conv : QsValue -> JsValue) (qs : Query) (keys : list string)
           (out : Props) : Props :=
  List.fold_left
    (fun out key =>
       match qs_get qs key with
       | Some v => Js.obj_set out key (conv v)
       | None => out
       end)
    keys out.

(** ** Message shapes *)

Definition isObject (v : JsValue) : bool :=
  String.eqb (Js.typeof v) "object" && negb match v with JNull => true | _ => false end.



(** The shape the message handler of the code lets through: the tag is the
    field [message], and no field reports the memory used. *)
Definition wireResultShape (m : JsValue) : bool :=
  isObject m
  && Js.isString (Js.Reflect_get m "message") "result"
  && String.eqb (Js.typeof (Js.Reflect_get m "id")) "string"
  && checkResult (Js.Reflect_get m "result").

(** The result of the [/hello] scenario of the specification. *)
Definition helloResult : JsValue :=
  JObj [("isBase64Encoded", JBool false);
        ("statusCode", JNum 200);
        ("headers", JObj [("Content-Type", JStr "text/plain")]);
        ("body", JStr "hi")].

(** The state the message handler leaves when it lets a message through. *)
Definition accepted (w pid : nat) (msg : JsValue) (σ : World) : World :=
  set_procStore (alter (kill 0) pid)
    (set_procStore (alter (settle (Resolved (Js.Reflect_get msg "result"))) pid)
       (set_workerStore
          (alter (writeLog (LogEndReport (Js.toString (Js.Reflect_get msg "id")))) w) σ)).



(** ** Response texts *)

(** The text [{"message":"Forbidden"}]. *)
Definition forbiddenBody : string :=
  "{" ++ JSON.dquote ++ "message" ++ JSON.dquote ++ ":"
      ++ JSON.dquote ++ "Forbidden" ++ JSON.dquote ++ "}".

Section Passes.
Context `{NodeHost}.

(** The response [writeResult] leaves once the headers of a
    binary-encoded result are applied. *)
Definition overridden (response : ServerResponse) : ServerResponse :=
  {| statusCode := JNum 400; resHeaders := resHeaders response;
     finished := true; resBody := forbiddenBody |}.

(** The statements of [writeResult] that precede the test of the
    binary-encoding flag: the status is assigned and the two header passes
    run. *)
Definition headerPasses (result : JsValue) : SE ServerResponse unit :=
  sc ← liftExc (Js.getProp result "statusCode");
  setStatusCode sc;;
  headers ← liftExc (Js.getProp result "headers");
  applyHeaders headers;;
  mv ← liftExc (Js.getProp result "multiValueHeaders");
  if Js.truthy mv then applyHeaders mv else mret tt.

End Passes.

(** ** Worked requests

    A gateway with the single route [/hello], started; then the request
    [GET /hello] accepted under the correlation id [r1]. *)

Definition run {A} (m : SE World A) (σ : World) : World := snd (m σ).

Definition helloOptions : Options :=
  mkOptions (Some [("/hello", "hello.js")]) [] false.

Definition helloGateway : World :=
  run bootstrap (run (construct helloOptions) emptyWorld).

Definition helloRequest : World :=
  run (r ← newResponse; @doDispatch PlainHost "r1" r (JObj [("path", JStr "/hello")]))
      helloGateway.

(** A result the shape check lets through although its [headers] are
    [null]. *)
Definition nullHeadersResult : JsValue :=
  JObj [("isBase64Encoded", JBool false);
        ("statusCode", JNum 200);
        ("headers", JNull);
        ("body", JStr "hi")].

Definition noPendingError : JsValue :=
  Error_ "response without request: should never happen".

(** ** Worker crash *)

(** What the exit handler rejects the invocation with, the document the
    gateway answers with, and the text of that document. *)
Definition crashPayload (text : string) : JsValue :=
  JObj [("message", JStr "Internal Server Error"); ("error", JStr text)].

Definition crashDocument (text : string) : JsValue :=
  JObj [("message", JStr "Internal Server Error");
        ("stack", JArr (List.map JStr (JsString.split "010"%char text)))].

Definition crashBody (text : string) : string :=
  match JSON.stringify (crashDocument text) 2 with
  | JStr t => t
  | _ => ""
  end.


(** * More of the gateway

    The operations of [index.js] that surround the ones above: the request
    handler with its guards, [changePort] and [hasPendingRequest]. *)

(** [hasPendingRequest(id)] *)
Definition hasPendingRequest (id : string) (σ : World) : bool :=
  bool_decide (is_Some (pendingRequests σ !! id)).

(** [changePort(newPort)].  The port is no part of the state: [listen]
    abstracts from it.  [http.createServer()] adds a server that does not
    listen yet; no HTTPS server is created again. *)
Definition changePort (newPort : Z) : SE World unit :=
  fun σ =>
    ((match httpServer σ with
      | Some s =>
          modify (set_serverStore (fun ss => <[s := mkServer false]> ss));;
          modify (set_httpServer None);;
          modify (fun τ =>
                    set_httpServer (Some (List.length (serverStore τ)))
                      (set_serverStore (fun ss => ss ++ [mkServer false])%list τ))
      | None => mret tt
      end);;
     (match httpsServer σ with
      | Some s =>
          modify (set_serverStore (fun ss => <[s := mkServer false]> ss));;
          modify (set_httpsServer None)
      | None => mret tt
      end);;
     bootstrap) σ.

(** The fields of the gateway the request handler reads and the constructor
    fixes: [this.enableCors] and [this.populateRequestContext].  The hook is
    one that answers a plain value (or throws), so that the handler takes
    its synchronous branch. *)
Record Settings := mkSettings {
  enableCors : bool;
  populateRequestContext : option (JsValue -> Exc JsValue)
}.

(** The request as the HTTP server presents it: [req.method], [req.url],
    the headers the handler reads from [req.headers], [req.rawHeaders] and
    the chunks of the body. *)
Record IncomingMessage := mkIncomingMessage {
  reqMethod : option string;
  reqUrl : option string;
  headerOrigin : option string;
  headerReferer : option string;
  headerHost : option string;
  reqRawHeaders : list string;
  reqChunks : list string
}.

(** What the handler reads of a parsed URL. *)
Record Url := mkUrl {
  urlQuery : Query;
  urlHostname : option string      (* [None]: [null] *)
}.

(** A header or [req.url] used as a condition: absent and empty are falsy. *)
Definition present (o : option string) : bool :=
  match o with
  | Some s => negb (String.eqb s "")
  | None => false
  end.

(** [o || fallback] *)
Definition orElse (o : option string) (fallback : string) : string :=
  match o with
  | Some s => if String.eqb s "" then fallback else s
  | None => fallback
  end.

(** [host.split(':')[0]] *)
Definition hostName (host : string) : string :=
  List.hd "" (JsString.split ":"%char host).

Definition isLocalhost (hostname : option string) : bool :=
  match hostname with
  | Some h => String.eqb h "localhost"
  | None => false
  end.

Section RequestHandler.
Context `{NodeHost}.

(** [url.parse] of the host, which may throw. *)
Variable url_parse : string -> Exc Url.

Definition corsHeaders (origin : option string) : SE ServerResponse unit :=
  setHeader "Access-Control-Allow-Origin" (JStr (orElse origin "*"));;
  setHeader "Access-Control-Allow-Methods"
            (JStr "POST, GET, PUT, DELETE, OPTIONS, XMODIFY");;
  setHeader "Access-Control-Allow-Credentials" (JStr "true");;
  setHeader "Access-Control-Max-Age" (JStr "86400");;
  setHeader "Access-Control-Allow-Headers"
            (JStr "X-Requested-With, X-HTTP-Method-Override, Content-Type, Accept, Authorization").

(** [res.statusCode = 403; return res.end(JSON.stringify({ message }, null, 2))] *)
Definition refuse (message : string) : SE ServerResponse unit :=
  setStatusCode (JNum 403);;
  end_ (JSON.stringify (JObj [("message", JStr message)]) 2).

(** The listener of the [end] event of the request: the event object is
    built, the hook (if any) fills its request context, and the request is
    dispatched under the identifier [id]. *)
Definition onEnd (settings : Settings) (id : string) (req : IncomingMessage)
           (r : nat) (query : Query) : SE World unit :=
  let body := String.concat "" (reqChunks req) in
  eventObject ← liftExc (buildEvent (reqUrl req) (reqMethod req)
                                    (reqRawHeaders req) query body);
  match populateRequestContext settings with
  | Some hook =>
      reqContext ← liftExc (hook eventObject);
      match eventObject with
      | JObj props =>
          doDispatch id r (JObj (Js.obj_set props "requestContext" reqContext))
      | _ => doDispatch id r eventObject
      end
  | None => doDispatch id r eventObject
  end.

(** [handleServerRequest(req, res)], [r] being the response object and [id]
    the identifier [cuuid()] produces when the request is dispatched. *)
Definition handleServerRequest (settings : Settings) (id : string)
           (req : IncomingMessage) (r : nat) : SE World unit :=
  (if enableCors settings then onResponse r (corsHeaders (headerOrigin req))
   else mret tt);;
  if enableCors settings
     && match reqMethod req with Some m => String.eqb m "OPTIONS" | None => false end
  then onResponse r (end_ JUndefined)
  else
    uriObj ← liftExc (url_parse (orElse (reqUrl req) "/"));
    refused ←
      (if negb (enableCors settings) && present (headerReferer req) then
         referer ← liftExc (url_parse (orElse (headerReferer req) ""));
         if negb (isLocalhost (urlHostname referer)) then
           onResponse r (refuse "expected request from localhost");; mret true
         else mret false
       else mret false);
    if (refused : bool) then mret tt
    else if present (headerHost req)
            && negb (String.eqb (hostName (orElse (headerHost req) "")) "localhost")
    then onResponse r (refuse "unexpected host header")
    else onEnd settings id req r (urlQuery uriObj).

End RequestHandler.

(** A host for the worked examples of the request handler: it parses the
    one foreign URL of the examples and takes any other text for a path. *)
Definition examplesParse (text : string) : Exc Url :=
  if String.eqb text "http://evil.com/page"
  then Ok (mkUrl [] (Some "evil.com"))
  else Ok (mkUrl [] None).

Definition plainSettings : Settings := mkSettings false None.
Definition corsSettings : Settings := mkSettings true None.

(** * Views for the further properties *)

(** The response [writeResult] leaves for a result that is not
    binary-encoded. *)
Definition answered (sc : JsValue) (body : string) (r : ServerResponse)
  : ServerResponse :=
  {| statusCode := sc; resHeaders := resHeaders r; finished := true;
     resBody := if String.eqb body "" then resBody r else body |}.

(** [h[key]] once [Object.keys(h)] answered. *)
Definition propOf (h : JsValue) (key : string) : JsValue :=
  match Js.getProp h key with
  | Ok v => v
  | Throw _ => JUndefined
  end.

(** The header store after [setHeader] ran for every key of [keys]. *)
Definition headersAfter (h : JsValue) (keys : list string) (start : Props) : Props :=
  List.fold_left (fun acc key => Js.obj_put acc (toLowerCase key) (propOf h key))
                 keys start.

(** The process [request] spawns on worker [w] and the state it leaves. *)
Definition spawnedProc (w : nat) (wk : ChildProcessWorker) (id : string)
           (eventObject : JsValue) : Proc :=
  {| running := true;
     argv := [JStr WORKER_PATH; JStr (optEntry (options wk));
              optional (optHandler (options wk))];
     sent := [eventMessage id eventObject];
     owner := w; corrId := id; error := None;
     stderrOnce := true; messageOnce := true; exitOnce := true;
     ready := Pending |}.

Definition spawned (w : nat) (wk : ChildProcessWorker) (id : string)
           (eventObject : JsValue) (σ : World) : World :=
  set_procStore (fun ps => ps ++ [spawnedProc w wk id eventObject])%list
    (set_workerStore
       (fun ws => <[w := mkWorker (procs wk ++ [List.length (procStore σ)])%list (Some id)
                                   (options wk) (stdout wk ++ [LogStart id])%list]> ws)
       σ).

(** The events a settled invocation lets pass: a message that is no longer
    listened to or has the shape of a result, an exit that is no longer
    listened to, reports code 0 or finds a captured chunk, and any chunk or
    error. *)
Definition harmlessWhenSettled (p : Proc) (ev : ProcEvent) : bool :=
  match ev with
  | StderrData _ => true
  | Message msg => negb (messageOnce p) || wireResultShape msg
  | Exit code =>
      negb (exitOnce p)
      || match code with Some 0%Z => true | _ => false end
      || match error p with Some _ => true | None => false end
  | ProcError _ => true
  end.

(** The process of the request [r1], as spawned. *)
Definition helloProc : Proc :=
  spawnedProc 1 (mkWorker [] None (mkWorkerOptions "nodejs:12.x" "hello.js" None) [])
              "r1" (JObj [("path", JStr "/hello")]).


(** The request [r1] answered with the [/hello] result, and its process. *)
Definition helloAnswered : World :=
  run (@procEvent PlainHost 0
         (Message (JObj [("message", JStr "result"); ("id", JStr "r1");
                         ("result", helloResult)])))
      helloRequest.

Definition helloProcAnswered : Proc :=
  mkProc true (argv helloProc) (sent helloProc) 1 "r1" None true false true
         (Resolved helloResult).

(** Every function of the table has a worker, and the worker exists. *)
Definition workersInPlace (σ : World) (table : list FunctionInfo) : Prop :=
  Forall (fun f => exists w, worker f = Some w /\ (w < List.length (workerStore σ))%nat)
         table.

(** The tracked set of worker [w] is empty. *)
Definition cleared (σ : World) (w : nat) : Prop :=
  procs <$> workerStore σ !! w = Some [].

(** [f.worker.close()], as [close] of the gateway calls it. *)
Definition closeWorkerOf (f : FunctionInfo) : SE World unit :=
  match worker f with
  | Some w => workerClose w
  | None => throw (TypeError "Cannot read properties of undefined")
  end.

(** [close()] up to its [await]: the two calls of [server.close] and the
    calls of [f.worker.close()] are made while the array given to
    [Promise.all] is built, whether or not a connection is open. *)
Definition closeCalls : SE World unit :=
  fun σ =>
    (serverClose (httpServer σ);;
     serverClose (httpsServer σ);;
     forEach (functionTable σ) closeWorkerOf) σ.

(** [this.httpServer = this.httpsServer = null], the statement after the
    [await]. *)
Definition dropServers : SE World unit :=
  modify (set_httpServer None);;
  modify (set_httpsServer None).


(** ** Views of the request handler *)

Definition isOptions (req : IncomingMessage) : bool :=
  match reqMethod req with
  | Some m => String.eqb m "OPTIONS"
  | None => false
  end.

(** The text of [JSON.stringify({ message }, null, 2)]. *)
Definition refusalBody (message : string) : string :=
  match JSON.stringify (JObj [("message", JStr message)]) 2 with
  | JStr t => t
  | _ => ""
  end.

(** The response a guard of the handler leaves, and the one a preflight
    request gets. *)
Definition refusedResponse (message : string) (r : ServerResponse) : ServerResponse :=
  {| statusCode := JNum 403; resHeaders := resHeaders r; finished := true;
     resBody := refusalBody message |}.

Definition endedResponse (r : ServerResponse) : ServerResponse :=
  {| statusCode := statusCode r; resHeaders := resHeaders r; finished := true;
     resBody := resBody r |}.

(** The first statement of the handler, on the response object. *)
Definition afterCors `{NodeHost} (settings : Settings) (req : IncomingMessage)
  : SE ServerResponse unit :=
  if enableCors settings then corsHeaders (headerOrigin req) else mret tt.

(** The Referer guard lets the request pass: CORS is enabled, or there is
    no Referer, or its hostname is [localhost]. *)
Definition refererPasses (url_parse : string -> Exc Url) (settings : Settings)
           (req : IncomingMessage) : Prop :=
  negb (enableCors settings) && present (headerReferer req) = false \/
  exists referer,
    url_parse (orElse (headerReferer req) "") = Ok referer /\
    isLocalhost (urlHostname referer) = true.

(** The events of process [pid], one after the other. *)
Definition procEvents `{NodeHost} (pid : nat) (events : list ProcEvent) : SE World unit :=
  forEach events (procEvent pid).

(** [lines.join(sep)] *)
Fixpoint joinLines (sep : ascii) (lines : list string) : string :=
  match lines with
  | [] => ""
  | [line] => line
  | line :: rest => line ++ String sep (joinLines sep rest)
  end.

(** ** Correlation identifiers

    [cuuid()], on the texts [Date.now().toString(16)] and
    [Math.random().toString(16)] (three of them) the clock and the random
    source gave it. *)
Definition cuuid (now random1 random2 random3 : string) : string :=
  let str :=
    JsString.slice
      (now ++ JsString.sliceFrom random1 2 ++ JsString.sliceFrom random2 2
           ++ JsString.sliceFrom random3 2)
      0 32 in
  JsString.slice str 0 8 ++ "-" ++ JsString.slice str 8 12 ++ "-"
    ++ JsString.slice str 12 16 ++ "-" ++ JsString.slice str 16 20 ++ "-"
    ++ JsString.sliceFrom str 20.

(** The digits [cuuid] draws from, and a text without the character [c]. *)
Definition cuuidDigits (now random1 random2 random3 : string) : string :=
  now ++ JsString.sliceFrom random1 2 ++ JsString.sliceFrom random2 2
      ++ JsString.sliceFrom random3 2.

Fixpoint without (c : ascii) (s : string) : string :=
  match s with
  | EmptyString => EmptyString
  | String d r => if Ascii.eqb d c then without c r else String d (without c r)
  end.

(** [s.slice(a, b)] for positions given as naturals. *)
Definition between (s : string) (a b : nat) : string :=
  String.substring (Nat.min a (String.length s))
                   (Nat.min b (String.length s) - Nat.min a (String.length s)) s.


(** * Properties *)

(** ** Strings *)

Lemma startsWith_spec (s p : string) :
  JsString.startsWith s p = true <-> exists rest, s = p ++ rest.
Proof.
  revert s. induction p as [|c p IH]; intros s; simpl.
  - split; [intros _; exists s; reflexivity | reflexivity].
  - destruct s as [|d s]; simpl.
    + split; [discriminate | intros [rest Hr]; discriminate].
    + rewrite andb_true_iff, Ascii.eqb_eq, IH. split.
      * intros [-> [rest ->]]. exists rest. reflexivity.
      * intros [rest Hr]. injection Hr as -> ->. split; [reflexivity | exists rest; reflexivity].
Qed.

Lemma append_cons (c : ascii) (a b : string) : String c a ++ b = String c (a ++ b).
Proof. reflexivity. Qed.

Lemma string_length_app (a b : string) :
  String.length (a ++ b) = (String.length a + String.length b)%nat.
Proof. induction a as [|c a IH]; simpl; [reflexivity | rewrite IH; reflexivity]. Qed.

Lemma substring_zero_all (s : string) : String.substring 0 (String.length s) s = s.
Proof. induction s as [|c s IH]; simpl; [reflexivity | rewrite IH; reflexivity]. Qed.

Lemma substring_skip (a b : string) (m : nat) :
  String.substring (String.length a) m (a ++ b) = String.substring 0 m b.
Proof. induction a as [|c a IH]; simpl; [reflexivity | apply IH]. Qed.

Lemma substring_take (a b : string) :
  String.substring 0 (String.length a) (a ++ b) = a.
Proof. induction a as [|c a IH]; simpl; [destruct b; reflexivity | rewrite IH; reflexivity]. Qed.

Lemma substring_cut (n : nat) (s : string) :
  (n <= String.length s)%nat ->
  s = String.substring 0 n s ++ String.substring n (String.length s - n) s.
Proof.
  revert s. induction n as [|n IH]; intros s Hn.
  - rewrite Nat.sub_0_r, substring_zero_all. destruct s; reflexivity.
  - destruct s as [|c s]; simpl in *; [lia |].
    rewrite append_cons. f_equal. apply IH. lia.
Qed.

Lemma endsWith_spec (s suffix : string) :
  JsString.endsWith s suffix = true <-> exists stem, s = stem ++ suffix.
Proof.
  unfold JsString.endsWith, JsString.sliceFrom, JsString.slice, JsString.clamp,
    JsString.slen.
  rewrite andb_true_iff, Z.leb_le, String.eqb_eq.
  set (n := String.length s). set (m := String.length suffix).
  split.
  - intros [Hle Hsub].
    destruct (Z.ltb_spec (Z.of_nat n - Z.of_nat m) 0) as [Hneg|_]; [lia |].
    destruct (Z.ltb_spec (Z.of_nat n) 0) as [Hneg|_]; [lia |].
    rewrite Z.min_id, (Z.min_l (Z.of_nat n - Z.of_nat m)) in Hsub by lia.
    replace (Z.to_nat (Z.of_nat n - Z.of_nat m)) with (n - m)%nat in Hsub by lia.
    replace (Z.to_nat (Z.max (Z.of_nat n - (Z.of_nat n - Z.of_nat m)) 0))
      with (n - (n - m))%nat in Hsub by lia.
    exists (String.substring 0 (n - m) s).
    rewrite <- Hsub. apply substring_cut. lia.
  - intros [stem ->]. subst n m. rewrite string_length_app.
    split; [lia |].
    destruct (Z.ltb_spec (Z.of_nat (String.length stem + String.length suffix)
                          - Z.of_nat (String.length suffix)) 0) as [Hneg|_]; [lia |].
    destruct (Z.ltb_spec (Z.of_nat (String.length stem + String.length suffix)) 0)
      as [Hneg|_]; [lia |].
    rewrite Z.min_id, Z.min_l by lia.
    match goal with
    | |- String.substring ?a ?b _ = _ =>
        replace a with (String.length stem) by lia;
        replace b with (String.length suffix) by lia
    end.
    rewrite substring_skip. apply substring_zero_all.
Qed.

(** ** Path router *)

Lemma string_app_assoc (a b c : string) : (a ++ b) ++ c = a ++ b ++ c.
Proof. induction a as [|d a IH]; [reflexivity |]. rewrite !append_cons, IH. reflexivity. Qed.

Lemma lastIndexOf_from_absent (s : string) (c : ascii) (i acc : Z) :
  occursIn c s = false -> JsString.lastIndexOf_from s c i acc = acc.
Proof.
  revert i acc. induction s as [|d s IH]; intros i acc Habsent; [reflexivity |].
  cbn in *. apply orb_false_iff in Habsent as [Hd Hs].
  rewrite Hd. apply IH. exact Hs.
Qed.

Lemma lastIndexOf_from_app (a b : string) (c : ascii) (i acc : Z) :
  JsString.lastIndexOf_from (a ++ b) c i acc
  = JsString.lastIndexOf_from b c (i + JsString.slen a)
      (JsString.lastIndexOf_from a c i acc).
Proof.
  revert i acc. induction a as [|d a IH]; intros i acc.
  - cbn. rewrite Z.add_0_r. reflexivity.
  - rewrite append_cons. cbn [JsString.lastIndexOf_from]. rewrite IH.
    unfold JsString.slen. cbn [String.length].
    replace (i + 1 + Z.of_nat (String.length a))%Z
      with (i + Z.of_nat (S (String.length a)))%Z by lia.
    reflexivity.
Qed.

Lemma occursIn_app (c : ascii) (a b : string) :
  occursIn c (a ++ b) = occursIn c a || occursIn c b.
Proof.
  induction a as [|d a IH]; [reflexivity |].
  rewrite append_cons. cbn. rewrite IH. apply orb_assoc.
Qed.

(** The prefix the code computes for the pattern [stem{name+}] is [stem]. *)
Lemma exactPrefix_proxy (stem name : string) :
  occursIn "{" name = false ->
  exactPrefix (stem ++ "{" ++ name ++ "+}") = stem.
Proof.
  intros Habsent. unfold exactPrefix, JsString.lastIndexOf.
  rewrite lastIndexOf_from_app.
  change ("{" ++ name ++ "+}") with (String "{" (name ++ "+}")).
  cbn [JsString.lastIndexOf_from]. rewrite Ascii.eqb_refl.
  rewrite lastIndexOf_from_absent
    by (rewrite occursIn_app, Habsent; reflexivity).
  unfold JsString.slice, JsString.clamp, JsString.slen.
  rewrite string_length_app.
  destruct (Z.ltb_spec 0 0) as [Hneg|_]; [lia |].
  destruct (Z.ltb_spec (0 + Z.of_nat (String.length stem)) 0) as [Hneg|_]; [lia |].
  rewrite Z.min_l by lia. rewrite Z.min_l by lia.
  replace (Z.to_nat (Z.max (0 + Z.of_nat (String.length stem) - 0) 0))
    with (String.length stem) by lia.
  apply substring_take.
Qed.

(** A proxy pattern ends in [+}] and has one literal prefix, the one the
    code computes. *)
Lemma proxyPattern_ends (route prefix : string) :
  proxyPattern route prefix -> JsString.endsWith route "+}" = true.
Proof.
  intros (name & _ & ->). apply endsWith_spec.
  exists (prefix ++ "{" ++ name). rewrite !string_app_assoc. reflexivity.
Qed.

Lemma proxyPattern_prefix (route prefix : string) :
  proxyPattern route prefix -> exactPrefix route = prefix.
Proof. intros (name & Hname & ->). apply exactPrefix_proxy. exact Hname. Qed.

Lemma exact_not_proxy (route : string) :
  (forall stem, route <> stem ++ "+}") -> ~ isProxyPattern route.
Proof.
  intros Hexact (prefix & Hproxy).
  apply proxyPattern_ends, endsWith_spec in Hproxy as (stem & Hstem).
  exact (Hexact stem Hstem).
Qed.

(** On proxy patterns and on exact patterns that do not end in [+}] the
    callback of [matchRoute]
    decides the rule of the specification. *)
Lemma routeMatches_spec (route pathname : string) :
  plainPattern route ->
  routeMatches route pathname = true <-> patternMatches route pathname.
Proof.
  intros [(prefix & Hproxy)|Hexact]; unfold routeMatches, patternMatches.
  - rewrite (proxyPattern_ends route prefix Hproxy).
    rewrite (proxyPattern_prefix route prefix Hproxy). cbn [negb andb].
    destruct (JsString.startsWith pathname prefix) eqn:Hstarts; cbn [andb].
    + apply startsWith_spec in Hstarts.
      destruct (String.eqb_spec pathname prefix) as [Heq|Hne]; cbn [negb].
      * split; [discriminate |].
        intros [[Hno _]|(prefix' & Hproxy' & _ & Hne)].
        -- exfalso. apply Hno. exists prefix. exact Hproxy.
        -- apply proxyPattern_prefix in Hproxy, Hproxy'. congruence.
      * split; [| reflexivity]. intros _. right. exists prefix. auto.
    + split; [discriminate |].
      intros [[Hno _]|(prefix' & Hproxy' & Hrest & _)].
      * exfalso. apply Hno. exists prefix. exact Hproxy.
      * apply proxyPattern_prefix in Hproxy, Hproxy'.
        assert (prefix' = prefix) as -> by congruence.
        apply startsWith_spec in Hrest. congruence.
  - assert (Hends : JsString.endsWith route "+}" = false).
    { destruct (JsString.endsWith route "+}") eqn:Hends; [| reflexivity].
      apply endsWith_spec in Hends as (stem & Hstem).
      exfalso. exact (Hexact stem Hstem). }
    rewrite Hends. cbn [negb andb].
    destruct (String.eqb_spec pathname route) as [Heq|Hne].
    + split; [| reflexivity]. intros _. left.
      split; [apply exact_not_proxy; exact Hexact | exact Heq].
    + split; [discriminate |].
      intros [[_ Heq]|(prefix & Hproxy & _)]; [contradiction |].
      exfalso. apply (exact_not_proxy route Hexact). exists prefix. exact Hproxy.
Qed.

(** The testable property of the specification: the literal prefix of a
    proxy pattern is never matched, the prefix followed by anything is. *)
Lemma proxy_prefix_never_matches (route prefix : string) :
  proxyPattern route prefix -> routeMatches route prefix = false.
Proof.
  intros Hproxy. unfold routeMatches.
  rewrite (proxyPattern_ends route prefix Hproxy).
  rewrite (proxyPattern_prefix route prefix Hproxy).
  rewrite String.eqb_refl, andb_false_r. reflexivity.
Qed.

Lemma proxy_longer_path_matches (route prefix rest : string) :
  proxyPattern route prefix -> rest <> "" ->
  routeMatches route (prefix ++ rest) = true.
Proof.
  intros Hproxy Hrest. apply routeMatches_spec; [left; exists prefix; exact Hproxy |].
  right. exists prefix. split; [exact Hproxy |]. split; [exists rest; reflexivity |].
  intros Heq. apply (f_equal String.length) in Heq.
  rewrite string_length_app in Heq.
  destruct rest as [|c rest]; [congruence | cbn in Heq; lia].
Qed.

(** C1, as the code has it. Route matching, for the registration lists whose
    patterns are proxy patterns [P{name+}] or do not end in [+}]:
    [matchRoute] answers the first function, in registration order, whose
    pattern matches the pathname, and no function when none matches; an
    exact pattern matches exactly the pathname equal to it, and a proxy
    pattern exactly the pathnames that start with its literal prefix [P]
    without being that prefix, so that [P] itself never matches and [P]
    followed by anything does. *)
Theorem matchRoute_first_match (functions : list FunctionInfo) (pathname : string) :
  (Forall (fun f => plainPattern (path f)) functions ->
   match matchRoute functions pathname with
   | Some f =>
       exists earlier later,
         functions = (earlier ++ f :: later)%list /\
         patternMatches (path f) pathname /\
         Forall (fun g => ~ patternMatches (path g) pathname) earlier
   | None => Forall (fun g => ~ patternMatches (path g) pathname) functions
   end) /\
  (forall route,
      plainPattern route ->
      routeMatches route pathname = true <-> patternMatches route pathname) /\
  (forall route prefix rest,
      proxyPattern route prefix ->
      routeMatches route prefix = false /\
      (rest <> "" -> routeMatches route (prefix ++ rest) = true)).
Proof.
  split; [| split].
  - unfold matchRoute.
    induction functions as [|g gs IH]; intros Hplain; cbn [List.find].
    + apply Forall_nil_2.
    + apply Forall_cons in Hplain as [Hg Hgs].
      destruct (routeMatches (path g) pathname) eqn:Hm.
      * exists [], gs. split; [reflexivity |].
        split; [apply routeMatches_spec; assumption | apply Forall_nil_2].
      * assert (Hno : ~ patternMatches (path g) pathname).
        { intros Hyes. apply routeMatches_spec in Hyes; [congruence | exact Hg]. }
        specialize (IH Hgs).
        destruct (find (fun f => routeMatches (path f) pathname) gs) as [f|].
        -- destruct IH as (earlier & later & -> & Hf & Hearlier).
           exists (g :: earlier), later. split; [reflexivity |].
           split; [exact Hf |]. apply Forall_cons. split; assumption.
        -- apply Forall_cons. split; assumption.
  - intros route. apply routeMatches_spec.
  - intros route prefix rest Hproxy.
    split; [apply proxy_prefix_never_matches; exact Hproxy |].
    apply proxy_longer_path_matches. exact Hproxy.
Qed.

(** An exact route and a proxy route, asked for a path under the proxy
    prefix. *)
Lemma matchRoute_first_match_witness :
  matchRoute [mkFunctionInfo "/hello" "hello.js" None None;
              mkFunctionInfo "/proxy/{proxy+}" "proxy.js" None None]
             "/proxy/x"
  = Some (mkFunctionInfo "/proxy/{proxy+}" "proxy.js" None None) /\
  patternMatches "/proxy/{proxy+}" "/proxy/x" /\
  ~ patternMatches "/hello" "/proxy/x".
Proof.
  destruct (matchRoute_first_match
              [mkFunctionInfo "/hello" "hello.js" None None;
               mkFunctionInfo "/proxy/{proxy+}" "proxy.js" None None]
              "/proxy/x") as [Hfirst [Hrule _]].
  assert (Hhello : plainPattern "/hello").
  { right. intros stem Hstem.
    assert (Hends : JsString.endsWith "/hello" "+}" = true)
      by (apply endsWith_spec; exists stem; exact Hstem).
    discriminate Hends. }
  assert (Hproxy : plainPattern "/proxy/{proxy+}").
  { left. exists "/proxy/", "proxy". split; reflexivity. }
  split; [reflexivity |]. split.
  - apply Hrule; [exact Hproxy | reflexivity].
  - intros Hyes. apply Hrule in Hyes; [discriminate Hyes | exact Hhello].
Defined.

(** C1, as stated, fails for a pattern that ends in [+}] without holding
    a marker.  [/files+}] has no [{name+}], so that by the rule only
    the pathname [/files+}] matches it; the router matches [/files+x]
    against it.  Nor does the router treat [+}] as the marker and [/files]
    as the prefix: [/filesx] is not matched. *)
Lemma braceless_pattern_counterexample :
  matchRoute [mkFunctionInfo "/files+}" "files.js" None None] "/files+x"
  = Some (mkFunctionInfo "/files+}" "files.js" None None) /\
  ~ patternMatches "/files+}" "/files+x" /\
  matchRoute [mkFunctionInfo "/files+}" "files.js" None None] "/filesx" = None.
Proof.
  split; [reflexivity |]. split; [| reflexivity].
  assert (Hbare : ~ isProxyPattern "/files+}").
  { intros (prefix & name & _ & Heq).
    apply (f_equal (occursIn "{")) in Heq.
    rewrite occursIn_app in Heq. cbn in Heq.
    rewrite orb_true_r in Heq. discriminate Heq. }
  intros [[_ Heq]|(prefix & Hproxy & _)]; [discriminate Heq |].
  apply Hbare. exists prefix. exact Hproxy.
Qed.

Example proxy_route_example :
  exactPrefix "/proxy/{proxy+}" = "/proxy/" /\
  routeMatches "/proxy/{proxy+}" "/proxy/" = false /\
  routeMatches "/proxy/{proxy+}" "/proxy/x" = true /\
  routeMatches "/hello" "/hello" = true /\
  routeMatches "/hello" "/hello/x" = false.
Proof. repeat split. Qed.

(** ** Objects as property lists *)

Lemma obj_get_put (ps : Props) (k k' : string) (v : JsValue) :
  Js.obj_get (Js.obj_put ps k v) k' = if String.eqb k k' then v else Js.obj_get ps k'.
Proof.
  induction ps as [|[k0 v0] ps IH]; simpl; [reflexivity |].
  destruct (String.eqb_spec k0 k) as [->|Hne]; simpl.
  - destruct (String.eqb k k'); reflexivity.
  - rewrite IH. destruct (String.eqb_spec k0 k') as [->|Hne']; [| reflexivity].
    destruct (String.eqb_spec k k'); [congruence | reflexivity].
Qed.

Lemma obj_has_put (ps : Props) (k k' : string) (v : JsValue) :
  Js.obj_has (Js.obj_put ps k v) k' = String.eqb k k' || Js.obj_has ps k'.
Proof.
  induction ps as [|[k0 v0] ps IH]; simpl; [reflexivity |].
  destruct (String.eqb_spec k0 k) as [->|Hne]; simpl.
  - destruct (String.eqb k k'); reflexivity.
  - rewrite IH. destruct (String.eqb k0 k'), (String.eqb k k'); reflexivity.
Qed.

Lemma obj_get_delete (ps : Props) (k k' : string) :
  Js.obj_get (Js.obj_delete ps k) k'
  = if String.eqb k k' then JUndefined else Js.obj_get ps k'.
Proof.
  unfold Js.obj_delete.
  induction ps as [|[k0 v0] ps IH]; simpl.
  - destruct (String.eqb k k'); reflexivity.
  - destruct (String.eqb_spec k0 k) as [->|Hne]; simpl.
    + rewrite IH. destruct (String.eqb k k'); reflexivity.
    + rewrite IH. destruct (String.eqb_spec k0 k') as [->|Hne']; [| reflexivity].
      destruct (String.eqb_spec k k'); [congruence | reflexivity].
Qed.

Lemma obj_get_deleteAll (deleteList : list string) (out : Props) (k : string) :
  Js.obj_get (List.fold_left Js.obj_delete deleteList out) k
  = if List.existsb (String.eqb k) deleteList then JUndefined else Js.obj_get out k.
Proof.
  revert out. induction deleteList as [|d ds IH]; intros out; simpl; [reflexivity |].
  rewrite IH, obj_get_delete, (String.eqb_sym k d).
  destruct (String.eqb d k), (List.existsb (String.eqb k) ds); reflexivity.
Qed.

Lemma obj_set_plain (ps : Props) (k : string) (v : JsValue) :
  String.eqb k "__proto__" = false -> Js.obj_set ps k v = Js.obj_put ps k v.
Proof. intros Hk. unfold Js.obj_set. rewrite Hk. reflexivity. Qed.

Lemma inherited_proto (k : string) :
  Js.inherited k = false -> String.eqb k "__proto__" = false.
Proof.
  unfold Js.inherited, Js.Object_prototype_names. simpl.
  intros Hk. repeat (apply orb_false_iff in Hk; destruct Hk as [? Hk]).
  assumption.
Qed.

(** ** Event flattening *)

Lemma list_pair_ind (P : list string -> Prop) :
  P [] ->
  (forall name, P [name]) ->
  (forall name value rest, P rest -> P (name :: value :: rest)) ->
  forall h, P h.
Proof.
  intros Hnil Hone Hstep.
  assert (Hboth : forall h, P h /\ forall name, P (name :: h)).
  { induction h as [|x h [IH1 IH2]]; split; auto. }
  intros h. apply Hboth.
Qed.

Lemma occurrences_snoc (k : string) (ps : list (string * JsValue)) (p : string * JsValue) :
  occurrences k (ps ++ [p])
  = (occurrences k ps ++ if String.eqb (fst p) k then [snd p] else [])%list.
Proof.
  unfold occurrences. rewrite List.filter_app, List.map_app. simpl.
  destruct (String.eqb (fst p) k); reflexivity.
Qed.

Lemma plainNames_snoc (ps : list (string * JsValue)) (p : string * JsValue) :
  plainNames (ps ++ [p]) -> plainNames ps /\ Js.inherited (fst p) = false.
Proof.
  unfold plainNames. intros Hall. apply Forall_app in Hall as [Hps Hp].
  split; [exact Hps |]. inversion Hp; assumption.
Qed.

Lemma flattenHeaders_loop_fold (h : list string) :
  forall out deleteList,
    flattenHeaders_loop h out deleteList
    = List.fold_left flattenStep (headerPairs h) (out, deleteList).
Proof.
  induction h as [| name | name value rest IH] using list_pair_ind;
    intros out deleteList.
  - reflexivity.
  - simpl. unfold flattenStep. simpl. reflexivity.
  - change (flattenHeaders_loop (name :: value :: rest) out deleteList)
      with (flattenHeaders_loop rest
              (fst (flattenStep (out, deleteList) (name, JStr value)))
              (snd (flattenStep (out, deleteList) (name, JStr value)))).
    rewrite IH. simpl. destruct (flattenStep (out, deleteList) (name, JStr value)).
    reflexivity.
Qed.

(** What the loop of [flattenHeaders] has built after the pairs [ps]. *)
Lemma flatten_fold_inv (ps : list (string * JsValue)) :
  plainNames ps ->
  forall k,
    Js.obj_get (fst (List.fold_left flattenStep ps ([], []))) k = firstOccurrence k ps /\
    Js.obj_has (fst (List.fold_left flattenStep ps ([], []))) k
    = negb (isNil (occurrences k ps)) /\
    List.existsb (String.eqb k) (snd (List.fold_left flattenStep ps ([], [])))
    = severalIn (occurrences k ps).
Proof.
  induction ps as [|[name value] ps IH] using rev_ind; intros Hplain k.
  - repeat split.
  - apply plainNames_snoc in Hplain as [Hplain Hname]. cbn [fst] in Hname.
    specialize (IH Hplain).
    rewrite List.fold_left_app. cbn [List.fold_left].
    destruct (List.fold_left flattenStep ps ([], [])) as [out deleteList].
    cbn [fst snd] in IH.
    unfold firstOccurrence in *. rewrite occurrences_snoc. cbn [fst snd].
    destruct (IH name) as (_ & Hhas_n & _).
    destruct (IH k) as (Hget & Hhas & Hdel).
    unfold flattenStep, Js.has_in. cbn [fst snd]. rewrite Hname, orb_false_r.
    destruct (Js.obj_has out name) eqn:Hown; cbn [negb fst snd].
    + (* the name is already there: it goes to the delete list *)
      rewrite List.existsb_app. cbn [List.existsb]. rewrite orb_false_r, Hdel, Hget, Hhas.
      destruct (String.eqb_spec name k) as [->|Hne].
      * rewrite String.eqb_refl.
        destruct (occurrences k ps) as [|v [|v' vs]]; [discriminate | |];
          repeat split.
      * rewrite app_nil_r.
        replace (String.eqb k name) with false
          by (symmetry; apply String.eqb_neq; congruence).
        rewrite orb_false_r. repeat split.
    + (* first occurrence of the name *)
      rewrite obj_set_plain by (apply inherited_proto; exact Hname).
      rewrite obj_get_put, obj_has_put, Hdel, Hget, Hhas.
      destruct (String.eqb_spec name k) as [->|Hne].
      * destruct (occurrences k ps) as [|v vs]; [| discriminate].
        repeat split.
      * rewrite app_nil_r. repeat split.
Qed.

Lemma flattenHeaders_sole (h : list string) (k : string) :
  plainNames (headerPairs h) ->
  Js.obj_get (flattenHeaders h) k = soleOccurrence k (headerPairs h).
Proof.
  intros Hplain. unfold flattenHeaders.
  rewrite flattenHeaders_loop_fold.
  destruct (flatten_fold_inv (headerPairs h) Hplain k) as (Hget & _ & Hdel).
  destruct (List.fold_left flattenStep (headerPairs h) ([], [])) as [out deleteList].
  cbn [fst snd] in *. lazy beta iota. rewrite obj_get_deleteAll, Hdel, Hget.
  unfold firstOccurrence, soleOccurrence.
  destruct (occurrences k (headerPairs h)) as [|v [|v' vs]]; reflexivity.
Qed.

Lemma multiFold_throw (ps : list (string * JsValue)) (e : JsValue) :
  multiFold ps (Throw e) = Throw e.
Proof. induction ps as [|p ps IH]; [reflexivity | exact IH]. Qed.

Lemma multiValueHeaders_loop_fold (h : list string) :
  forall out, multiValueHeaders_loop h out = multiFold (headerPairs h) (Ok out).
Proof.
  induction h as [| name | name value rest IH] using list_pair_ind; intros out.
  - reflexivity.
  - unfold multiFold. cbn. unfold multiStep. cbn.
    destruct (negb (Js.has_in out name)); [reflexivity |].
    destruct (pushValue out name JUndefined); reflexivity.
  - change (multiValueHeaders_loop (name :: value :: rest) out)
      with (multiStep out (name, JStr value) ≫= multiValueHeaders_loop rest).
    change (multiFold (headerPairs (name :: value :: rest)) (Ok out))
      with (multiFold (headerPairs rest) (multiStep out (name, JStr value))).
    destruct (multiStep out (name, JStr value)) as [out'|e].
    + apply IH.
    + rewrite multiFold_throw. reflexivity.
Qed.

(** What the loop of [multiValueHeaders] has built after the pairs [ps]. *)
Lemma multi_fold_inv (ps : list (string * JsValue)) :
  plainNames ps ->
  exists out,
    multiFold ps (Ok []) = Ok out /\
    forall k,
      Js.obj_get out k = allOccurrences k ps /\
      Js.obj_has out k = negb (isNil (occurrences k ps)).
Proof.
  induction ps as [|[name value] ps IH] using rev_ind; intros Hplain.
  - exists []. repeat split.
  - apply plainNames_snoc in Hplain as [Hplain Hname]. cbn [fst] in Hname.
    destruct (IH Hplain) as (out & Hrun & Hout).
    unfold multiFold in *. rewrite List.fold_left_app, Hrun. cbn.
    unfold multiStep, Js.has_in, pushValue. cbn [fst snd].
    rewrite Hname, orb_false_r.
    destruct (Hout name) as (Hget_n & Hhas_n).
    destruct (Js.obj_has out name) eqn:Hown; cbn [negb].
    + (* the array of the name grows *)
      rewrite Hget_n. unfold allOccurrences in *.
      destruct (occurrences name ps) as [|v vs] eqn:Hocc; [discriminate |].
      eexists. split; [reflexivity |]. intros k.
      rewrite obj_get_put, obj_has_put, occurrences_snoc. cbn [fst snd].
      destruct (Hout k) as (Hget & Hhas).
      destruct (String.eqb_spec name k) as [<-|Hne].
      * rewrite Hocc. repeat split.
      * rewrite app_nil_r, Hget, Hhas. repeat split.
    + (* first occurrence of the name *)
      rewrite obj_set_plain by (apply inherited_proto; exact Hname).
      eexists. split; [reflexivity |]. intros k. unfold allOccurrences in *.
      rewrite obj_get_put, obj_has_put, occurrences_snoc. cbn [fst snd].
      destruct (Hout k) as (Hget & Hhas).
      destruct (String.eqb_spec name k) as [<-|Hne].
      * destruct (occurrences name ps) as [|v vs]; [| cbn in Hhas_n; discriminate].
        repeat split.
      * rewrite app_nil_r, Hget, Hhas. repeat split.
Qed.

Lemma multiValueHeaders_all (h : list string) :
  plainNames (headerPairs h) ->
  exists out,
    multiValueHeaders h = Ok out /\
    forall k, Js.obj_get out k = allOccurrences k (headerPairs h).
Proof.
  intros Hplain. unfold multiValueHeaders. rewrite multiValueHeaders_loop_fold.
  destruct (multi_fold_inv _ Hplain) as (out & Hrun & Hout).
  exists out. split; [exact Hrun |]. intros k. apply Hout.
Qed.

(** *** The query string *)

Lemma qs_get_add (qs : Query) (k k' v : string) :
  qs_get (qs_add qs k v) k'
  = if String.eqb k k'
    then Some (match qs_get qs k with
               | None => QStr v
               | Some (QStr a) => QArr [a; v]
               | Some (QArr l) => QArr (l ++ [v])
               end)
    else qs_get qs k'.
Proof.
  induction qs as [|[k0 x] qs IH]; cbn [qs_add qs_get]; [reflexivity |].
  destruct (String.eqb_spec k0 k) as [->|Hne]; cbn [qs_get].
  - destruct (String.eqb k k'); reflexivity.
  - rewrite IH. destruct (String.eqb_spec k0 k') as [->|Hne']; [| reflexivity].
    destruct (String.eqb_spec k k'); [congruence | reflexivity].
Qed.

Lemma valuesOf_snoc (k : string) (pairs : list (string * string)) (p : string * string) :
  valuesOf k (pairs ++ [p])
  = (valuesOf k pairs ++ if String.eqb (fst p) k then [snd p] else [])%list.
Proof.
  unfold valuesOf. rewrite List.filter_app, List.map_app. cbn.
  destruct (String.eqb (fst p) k); reflexivity.
Qed.

Lemma querystring_parse_get (pairs : list (string * string)) (k : string) :
  qs_get (querystring_parse pairs) k = stored (valuesOf k pairs).
Proof.
  revert k. induction pairs as [|[name v] pairs IH] using rev_ind; intros k.
  - reflexivity.
  - unfold querystring_parse in *. rewrite List.fold_left_app. cbn [List.fold_left fst snd].
    rewrite qs_get_add, valuesOf_snoc. cbn [fst snd].
    destruct (String.eqb_spec name k) as [->|Hne].
    + rewrite IH. destruct (valuesOf k pairs) as [|a [|b l]]; reflexivity.
    + rewrite app_nil_r. apply IH.
Qed.

Lemma occurrences_queryPairs (k : string) (pairs : list (string * string)) :
  occurrences k (queryPairs pairs) = List.map JStr (valuesOf k pairs).
Proof.
  unfold occurrences, queryPairs, valuesOf.
  induction pairs as [|[name v] pairs IH]; cbn; [reflexivity |].
  destruct (String.eqb name k); cbn; rewrite IH; reflexivity.
Qed.

Lemma obj_get_set (out : Props) (key k : string) (v : JsValue) :
  String.eqb k "__proto__" = false ->
  Js.obj_get (Js.obj_set out key v) k
  = if String.eqb key k then v else Js.obj_get out k.
Proof.
  intros Hk. unfold Js.obj_set.
  destruct (String.eqb_spec key "__proto__") as [->|Hne].
  - rewrite String.eqb_sym, Hk. reflexivity.
  - apply obj_get_put.
Qed.

Lemma assignAll_get (conv : QsValue -> JsValue) (qs : Query) (keys : list string) :
  forall (out : Props) (k : string),
    String.eqb k "__proto__" = false ->
    Js.obj_get (assignAll conv qs keys out) k
    = if List.existsb (String.eqb k) keys
      then match qs_get qs k with
           | Some v => conv v
           | None => Js.obj_get out k
           end
      else Js.obj_get out k.
Proof.
  unfold assignAll.
  induction keys as [|key keys IH]; intros out k Hk; cbn [List.fold_left List.existsb];
    [reflexivity |].
  rewrite IH by exact Hk.
  destruct (String.eqb_spec k key) as [<-|Hne]; cbn [orb].
  - destruct (qs_get qs k) as [v|].
    + rewrite obj_get_set, String.eqb_refl by exact Hk.
      destruct (List.existsb (String.eqb k) keys); reflexivity.
    + destruct (List.existsb (String.eqb k) keys); reflexivity.
  - assert (Hsame :
      Js.obj_get (match qs_get qs key with
                  | Some v => Js.obj_set out key (conv v)
                  | None => out
                  end) k = Js.obj_get out k).
    { destruct (qs_get qs key) as [v|]; [| reflexivity].
      rewrite obj_get_set by exact Hk.
      destruct (String.eqb_spec key k); [congruence | reflexivity]. }
    rewrite Hsame. reflexivity.
Qed.

Lemma keys_of_query (qs : Query) (k : string) :
  List.existsb (String.eqb k) (List.map fst qs)
  = match qs_get qs k with Some _ => true | None => false end.
Proof.
  induction qs as [|[k0 x] qs IH]; cbn; [reflexivity |].
  rewrite (String.eqb_sym k k0). destruct (String.eqb k0 k); [reflexivity | exact IH].
Qed.

Lemma assignAll_query (conv : QsValue -> JsValue) (qs : Query) (k : string) :
  String.eqb k "__proto__" = false ->
  Js.obj_get (assignAll conv qs (List.map fst qs) []) k
  = match qs_get qs k with
    | Some v => conv v
    | None => JUndefined
    end.
Proof.
  intros Hk. rewrite assignAll_get, keys_of_query by exact Hk.
  destruct (qs_get qs k); reflexivity.
Qed.

Lemma fold_left_pointwise {A B} (f g : A -> B -> A) (l : list B) :
  (forall a b, f a b = g a b) ->
  forall a, List.fold_left f l a = List.fold_left g l a.
Proof.
  intros Hfg. induction l as [|b l IH]; intros a; cbn; [reflexivity |].
  rewrite Hfg. apply IH.
Qed.

Lemma singleValueQueryString_last (pairs : list (string * string)) (k : string) :
  String.eqb k "__proto__" = false ->
  Js.obj_get (singleValueQueryString (querystring_parse pairs)) k
  = lastOccurrence k (queryPairs pairs).
Proof.
  intros Hk.
  change (singleValueQueryString (querystring_parse pairs))
    with (assignAll (fun v => match v with
                              | QStr text => JStr text
                              | QArr values => lastOf values
                              end)
                    (querystring_parse pairs)
                    (List.map fst (querystring_parse pairs)) []).
  rewrite assignAll_query by exact Hk.
  rewrite querystring_parse_get.
  unfold lastOccurrence. rewrite occurrences_queryPairs, <- List.map_rev.
  unfold lastOf.
  destruct (valuesOf k pairs) as [|a [|b l]]; [reflexivity | reflexivity |].
  cbn [stored].
  destruct (List.rev (a :: b :: l)); reflexivity.
Qed.

Lemma multiValueObject_all (pairs : list (string * string)) (k : string) :
  String.eqb k "__proto__" = false ->
  Js.obj_get (multiValueObject (querystring_parse pairs)) k
  = allOccurrences k (queryPairs pairs).
Proof.
  intros Hk.
  assert (Hloop :
    multiValueObject (querystring_parse pairs)
    = assignAll (fun v => match v with
                          | QStr text => JArr [JStr text]
                          | QArr values => JArr (List.map JStr values)
                          end)
                (querystring_parse pairs)
                (List.map fst (querystring_parse pairs)) []).
  { unfold multiValueObject, assignAll. apply fold_left_pointwise.
    intros out key. destruct (qs_get (querystring_parse pairs) key) as [[text|values]|];
      reflexivity. }
  rewrite Hloop, assignAll_query by exact Hk.
  rewrite querystring_parse_get.
  unfold allOccurrences. rewrite occurrences_queryPairs.
  destruct (valuesOf k pairs) as [|a [|b l]]; reflexivity.
Qed.

(** C3, as the code has it. Event flattening: for every raw header list
    whose names are not members inherited by every object, the
    single-valued header form holds exactly the names that occur once (a
    repeated name is dropped altogether) and the multi-valued form holds
    every occurrence of a name in order; for every query string the
    single-valued form holds the last occurrence of each key and the
    multi-valued form every occurrence in order. *)
Theorem event_flattening (rawHeaders : list string) (pairs : list (string * string)) :
  plainNames (headerPairs rawHeaders) ->
  (forall k,
      Js.obj_get (flattenHeaders rawHeaders) k
      = soleOccurrence k (headerPairs rawHeaders)) /\
  (exists out,
      multiValueHeaders rawHeaders = Ok out /\
      forall k, Js.obj_get out k = allOccurrences k (headerPairs rawHeaders)) /\
  (forall k,
      k <> "__proto__" ->
      Js.obj_get (singleValueQueryString (querystring_parse pairs)) k
      = lastOccurrence k (queryPairs pairs) /\
      Js.obj_get (multiValueObject (querystring_parse pairs)) k
      = allOccurrences k (queryPairs pairs)).
Proof.
  intros Hplain. split; [| split].
  - intros k. apply flattenHeaders_sole. exact Hplain.
  - apply multiValueHeaders_all. exact Hplain.
  - intros k Hk. apply String.eqb_neq in Hk. split.
    + apply singleValueQueryString_last. exact Hk.
    + apply multiValueObject_all. exact Hk.
Qed.

(** The header pair [X: a], [X: b] and the query [x=a&x=b]. *)
Lemma event_flattening_witness :
  plainNames (headerPairs ["X"; "a"; "X"; "b"]) /\
  Js.obj_get (flattenHeaders ["X"; "a"; "X"; "b"]) "X" = JUndefined /\
  (exists out,
      multiValueHeaders ["X"; "a"; "X"; "b"] = Ok out /\
      Js.obj_get out "X" = JArr [JStr "a"; JStr "b"]) /\
  Js.obj_get (singleValueQueryString (querystring_parse [("x", "a"); ("x", "b")])) "x"
  = JStr "b".
Proof.
  assert (Hplain : plainNames (headerPairs ["X"; "a"; "X"; "b"])).
  { repeat constructor. }
  destruct (event_flattening ["X"; "a"; "X"; "b"] [("x", "a"); ("x", "b")] Hplain)
    as (Hsingle & (out & Hrun & Hmulti) & Hquery).
  split; [exact Hplain |]. split; [| split].
  - rewrite Hsingle. reflexivity.
  - exists out. split; [exact Hrun |]. rewrite Hmulti. reflexivity.
  - destruct (Hquery "x") as [Hlast _]; [discriminate |]. rewrite Hlast. reflexivity.
Defined.

(** C3, as stated, fails: with first-occurrence-wins the headers [X: a],
    [X: b] would give [X] the value [a] and the query [x=a&x=b] would give
    [x] the value [a]; the code leaves [X] out and gives [x] the value [b]. *)
Lemma first_occurrence_counterexample :
  firstOccurrence "X" (headerPairs ["X"; "a"; "X"; "b"]) = JStr "a" /\
  Js.obj_get (flattenHeaders ["X"; "a"; "X"; "b"]) "X" = JUndefined /\
  Js.obj_get (flattenHeaders ["X"; "a"; "X"; "b"]) "X"
  <> firstOccurrence "X" (headerPairs ["X"; "a"; "X"; "b"]) /\
  firstOccurrence "x" (queryPairs [("x", "a"); ("x", "b")]) = JStr "a" /\
  Js.obj_get (singleValueQueryString (querystring_parse [("x", "a"); ("x", "b")])) "x"
  = JStr "b".
Proof. repeat split; try reflexivity. vm_compute. discriminate. Qed.

(** Outside the hypothesis of [event_flattening]: a header whose name every
    object inherits is seen by [headerName in out] before it was ever
    stored, so the single-valued form leaves it out and the multi-valued
    form throws on its first occurrence. *)
Example inherited_header_name :
  flattenHeaders ["constructor"; "x"] = [] /\
  exists e, multiValueHeaders ["constructor"; "x"] = Throw e.
Proof. split; [reflexivity | eexists; reflexivity]. Qed.

(** The event built for [GET /hello?x=a&x=b] with the headers [X: a],
    [X: b], [Y: c]. *)
Example buildEvent_example :
  exists event,
    buildEvent (Some "/hello?x=a&x=b") (Some "GET") ["X"; "a"; "X"; "b"; "Y"; "c"]
               (querystring_parse [("x", "a"); ("x", "b")]) "" = Ok event /\
    Js.getProp event "headers" = Ok (JObj [("Y", JStr "c")]) /\
    Js.getProp event "multiValueHeaders"
    = Ok (JObj [("X", JArr [JStr "a"; JStr "b"]); ("Y", JArr [JStr "c"])]) /\
    Js.getProp event "queryStringParameters" = Ok (JObj [("x", JStr "b")]) /\
    Js.getProp event "multiValueQueryStringParameters"
    = Ok (JObj [("x", JArr [JStr "a"; JStr "b"])]).
Proof. eexists. split; [reflexivity |]. repeat split. Qed.

(** ** The message contract of the process boundary *)

Ltac run_se :=
  unfold mbind, SE_bind, mret, SE_ret, liftExc, modify, throw; lazy beta iota.

Lemma getProp_object (m : JsValue) (k : string) :
  isObject m = true -> Js.getProp m k = Ok (Js.Reflect_get m k).
Proof. destruct m; try discriminate; reflexivity. Qed.


Lemma onMessage_accepts (w pid : nat) (msg : JsValue) (σ : World) :
  wireResultShape msg = true ->
  onMessage w pid msg σ = (Ok tt, accepted w pid msg σ).
Proof.
  unfold wireResultShape. rewrite !andb_true_iff.
  intros [[[Hobj Htag] Hid] Hres].
  unfold onMessage.
  assert (Hguard :
    negb (String.eqb (Js.typeof msg) "object")
    || match msg with JNull => true | _ => false end = false).
  { destruct msg; try discriminate; reflexivity. }
  rewrite Hguard, !getProp_object by exact Hobj.
  run_se. rewrite Htag. cbn [negb].
  run_se.
  destruct (Js.Reflect_get msg "id") as [| | | |idText| |] eqn:Hidv; try discriminate.
  run_se.
  rewrite Hres. unfold accepted. rewrite Hidv. reflexivity.
Qed.





(** ** Result conversion *)

Lemma stringify_forbidden : JSON.stringify forbiddenMessage 0 = JStr forbiddenBody.
Proof. reflexivity. Qed.

Lemma getProp_defined (v x : JsValue) (k k' : string) :
  Js.getProp v k = Ok x -> exists y, Js.getProp v k' = Ok y.
Proof. destruct v; try discriminate; intros _; eexists; reflexivity. Qed.

Lemma forEach_preserves {S A} (P : S -> Prop) (body : A -> SE S unit) :
  (forall x σ out σ', body x σ = (out, σ') -> P σ -> P σ') ->
  forall l σ out σ', forEach l body σ = (out, σ') -> P σ -> P σ'.
Proof.
  intros Hbody. induction l as [|x l IH]; intros σ out σ' Hrun HP.
  - cbn in Hrun. injection Hrun as _ <-. exact HP.
  - cbn [forEach] in Hrun. unfold mbind, SE_bind in Hrun.
    destruct (body x σ) as [[u|e] σ1] eqn:Hx.
    + eapply IH; [exact Hrun |]. eapply Hbody; eassumption.
    + injection Hrun as _ <-. eapply Hbody; eassumption.
Qed.

Section ResultConversion.
Context `{NodeHost}.

Lemma setHeader_finished (name : string) (value : JsValue)
      (response response' : ServerResponse) (out : Exc unit) :
  setHeader name value response = (out, response') ->
  finished response' = finished response.
Proof.
  unfold setHeader. intros Hrun.
  destruct (finished response) eqn:Hf; [injection Hrun as _ <-; exact Hf |].
  destruct (negb (validHeaderName name)); [injection Hrun as _ <-; exact Hf |].
  destruct (negb (validHeaderValue value)); injection Hrun as _ <-;
    [exact Hf | reflexivity].
Qed.

Lemma applyHeaders_finished (h : JsValue) (response response' : ServerResponse)
      (out : Exc unit) :
  applyHeaders h response = (out, response') ->
  finished response' = finished response.
Proof.
  unfold applyHeaders, mbind, SE_bind, liftExc. intros Hrun.
  destruct (Js.Object_keys h) as [keys|e]; [| injection Hrun as _ <-; reflexivity].
  eapply (forEach_preserves (fun r => finished r = finished response));
    [| exact Hrun | reflexivity].
  intros key r out1 r1 Hstep Hr. cbn beta in *.
  destruct (Js.getProp h key) as [v|e]; [| injection Hstep as _ <-; exact Hr].
  rewrite <- Hr. eapply setHeader_finished. exact Hstep.
Qed.

Lemma headerPasses_finished (result : JsValue) (response response' : ServerResponse)
      (out : Exc unit) :
  headerPasses result response = (out, response') ->
  finished response' = finished response.
Proof.
  unfold headerPasses, mbind, SE_bind, liftExc, setStatusCode, modify.
  intros Hrun.
  destruct (Js.getProp result "statusCode") as [sc|e];
    [| injection Hrun as _ <-; reflexivity].
  destruct (Js.getProp result "headers") as [hs|e];
    [| injection Hrun as _ <-; reflexivity].
  destruct (applyHeaders hs _) as [[u|e] r1] eqn:Hfirst.
  - apply applyHeaders_finished in Hfirst. cbn in Hfirst.
    destruct (Js.getProp result "multiValueHeaders") as [mv|e];
      [| injection Hrun as _ <-; exact Hfirst].
    destruct (Js.truthy mv).
    + apply applyHeaders_finished in Hrun. congruence.
    + cbn in Hrun. injection Hrun as _ <-. exact Hfirst.
  - apply applyHeaders_finished in Hfirst. cbn in Hfirst.
    injection Hrun as _ <-. exact Hfirst.
Qed.

Lemma writeResult_passes (result : JsValue) (response : ServerResponse) :
  writeResult result response
  = match headerPasses result response with
    | (Ok _, r) =>
        (isBase64Encoded ← liftExc (Js.getProp result "isBase64Encoded");
         if Js.truthy isBase64Encoded then
           setStatusCode (JNum 400);;
           end_ (JSON.stringify forbiddenMessage 0)
         else
           body ← liftExc (Js.getProp result "body");
           end_ body) r
    | (Throw e, r) => (Throw e, r)
    end.
Proof.
  unfold writeResult, headerPasses, mbind, SE_bind, liftExc.
  destruct (Js.getProp result "statusCode") as [sc|e]; [| reflexivity].
  destruct (setStatusCode sc response) as [[u|e] r0]; [| reflexivity].
  destruct (Js.getProp result "headers") as [hs|e]; [| reflexivity].
  destruct (applyHeaders hs r0) as [[u1|e] r1]; [| reflexivity].
  destruct (Js.getProp result "multiValueHeaders") as [mv|e]; [| reflexivity].
  destruct (Js.truthy mv).
  - destruct (applyHeaders mv r1) as [[u2|e] r2]; reflexivity.
  - reflexivity.
Qed.

Lemma writeResult_base64 (result : JsValue) (response : ServerResponse) :
  finished response = false ->
  Js.getProp result "isBase64Encoded" = Ok (JBool true) ->
  writeResult result response
  = match headerPasses result response with
    | (Ok _, r) => (Ok tt, overridden r)
    | (Throw e, r) => (Throw e, r)
    end.
Proof.
  intros Hfresh Hflag. rewrite writeResult_passes.
  destruct (headerPasses result response) as [[u|e] r] eqn:Hpasses; [| reflexivity].
  apply headerPasses_finished in Hpasses.
  unfold mbind, SE_bind, liftExc, setStatusCode, modify, end_.
  rewrite Hflag. cbn [Js.truthy finished statusCode].
  rewrite Hpasses, Hfresh.
  rewrite validStatusCode_range by lia. cbn [negb].
  rewrite stringify_forbidden. reflexivity.
Qed.

Lemma end_finished (chunk : JsValue) (response response' : ServerResponse) :
  end_ chunk response = (Ok tt, response') -> finished response' = true.
Proof.
  unfold end_. intros Hrun.
  destruct (finished response) eqn:Hf; [injection Hrun as <-; exact Hf |].
  destruct (negb (validStatusCode (statusCode response))); [discriminate |].
  destruct (Js.truthy chunk).
  - destruct chunk; try discriminate. injection Hrun as <-. reflexivity.
  - injection Hrun as <-. reflexivity.
Qed.

(** A result that is written without a throw has ended the response. *)
Lemma writeResult_ends (result : JsValue) (response response' : ServerResponse) :
  writeResult result response = (Ok tt, response') -> finished response' = true.
Proof.
  rewrite writeResult_passes.
  destruct (headerPasses result response) as [[u|e] r]; [| discriminate].
  unfold mbind, SE_bind, liftExc, setStatusCode, modify.
  destruct (Js.getProp result "isBase64Encoded") as [flag|e]; [| discriminate].
  destruct (Js.truthy flag).
  - apply end_finished.
  - destruct (Js.getProp result "body") as [body|e]; [| discriminate].
    apply end_finished.
Qed.

Lemma handleLambdaResult_pending (id : string) (result : JsValue) (σ : World)
      (entry : PendingEntry) (response : ServerResponse) :
  pendingRequests σ !! id = Some entry ->
  resStore σ !! res entry = Some response ->
  handleLambdaResult id result σ
  = (fst (writeResult result response),
     set_resStore (fun rs => <[res entry := snd (writeResult result response)]> rs)
       (set_pendingRequests (delete id) σ)).
Proof.
  intros Hentry Hres. unfold handleLambdaResult, onResponse.
  rewrite Hentry. cbn [resStore set_pendingRequests]. rewrite Hres.
  destruct (writeResult result response). reflexivity.
Qed.

End ResultConversion.

(** C4, as the code has it. Binary-encoding override: the status code is assigned
    and the two header passes run before the flag is tested.  For every
    result whose [isBase64Encoded] flag is [true], delivered for a pending
    request whose response is not yet ended, the response
    [handleLambdaResult] writes has status 400 and the body
    [{"message":"Forbidden"}], whatever status and body the result carries;
    and it does write that response whenever the two header passes go
    through. *)
Theorem base64_override `{NodeHost} (id : string) (result : JsValue) (σ : World)
        (entry : PendingEntry) (response : ServerResponse) :
  pendingRequests σ !! id = Some entry ->
  resStore σ !! res entry = Some response ->
  finished response = false ->
  Js.getProp result "isBase64Encoded" = Ok (JBool true) ->
  (forall σ',
      handleLambdaResult id result σ = (Ok tt, σ') ->
      exists written,
        resStore σ' !! res entry = Some written /\
        statusCode written = JNum 400 /\
        resBody written = forbiddenBody /\
        finished written = true) /\
  (forall r,
      headerPasses result response = (Ok tt, r) ->
      handleLambdaResult id result σ
      = (Ok tt,
         set_resStore (fun rs => <[res entry := overridden r]> rs)
           (set_pendingRequests (delete id) σ))).
Proof.
  intros Hentry Hres Hfresh Hflag.
  rewrite (handleLambdaResult_pending id result σ entry response Hentry Hres).
  rewrite (writeResult_base64 result response Hfresh Hflag).
  assert (Hin : (res entry < List.length (resStore σ))%nat).
  { eapply lookup_lt_Some. exact Hres. }
  split.
  - intros σ' Hrun.
    destruct (headerPasses result response) as [[u|e] r]; cbn [fst snd] in Hrun;
      [| discriminate].
    injection Hrun as <-. exists (overridden r).
    destruct σ; cbn in *.
    rewrite list_lookup_insert_eq by exact Hin. repeat split.
  - intros r Hpasses. rewrite Hpasses. reflexivity.
Qed.

(** The [/hello] result with the flag set, delivered for the request [r1]. *)
Lemma base64_override_witness :
  exists written,
    resStore (run (@handleLambdaResult PlainHost "r1"
                     (JObj [("isBase64Encoded", JBool true);
                            ("statusCode", JNum 200);
                            ("headers", JObj [("Content-Type", JStr "text/plain")]);
                            ("body", JStr "hi")]))
                  helloRequest) !! 0%nat = Some written /\
    statusCode written = JNum 400 /\
    resBody written = forbiddenBody /\
    finished written = true.
Proof.
  destruct (@base64_override PlainHost "r1"
              (JObj [("isBase64Encoded", JBool true);
                     ("statusCode", JNum 200);
                     ("headers", JObj [("Content-Type", JStr "text/plain")]);
                     ("body", JStr "hi")])
              helloRequest (mkPending 0 "r1") freshResponse)
    as [Hwritten _]; try reflexivity.
  eapply Hwritten. unfold run.
  match goal with
  | |- ?m = _ => destruct m as [[[]|e] σ'] eqn:Hrun; [reflexivity |]
  end.
  vm_compute in Hrun. discriminate.
Defined.

(** C4, as stated, fails for a flagged result whose headers the response
    refuses.  The result passes the shape check, its flag is
    [true] and its one header has a name that is no token: [setHeader]
    throws in the first header pass, before the flag is looked at, and the
    request gets no 400; its response is not ended and its pending entry is
    gone. *)
Lemma flagged_result_counterexample :
  let result := JObj [("isBase64Encoded", JBool true);
                      ("statusCode", JNum 200);
                      ("headers", JObj [("bad name", JStr "x")]);
                      ("body", JStr "hi")] in
  checkResult result = true /\
  Js.getProp result "isBase64Encoded" = Ok (JBool true) /\
  fst (@handleLambdaResult PlainHost "r1" result helloRequest)
  = Throw (TypeError "ERR_INVALID_HTTP_TOKEN") /\
  resStore (snd (@handleLambdaResult PlainHost "r1" result helloRequest)) !! 0%nat
  = Some {| statusCode := JNum 200; resHeaders := []; finished := false;
            resBody := "" |} /\
  pendingRequests (snd (@handleLambdaResult PlainHost "r1" result helloRequest)) !! "r1"
  = None.
Proof. cbv zeta. repeat split; vm_compute; reflexivity. Qed.

(** C7, as the code has it. Correlation integrity: a result delivered for an id
    with no pending entry makes [handleLambdaResult] throw, leaving the
    gateway as it was; a result delivered for a pending id removes the
    entry before anything is written, whatever happens next, so that a
    second delivery for the same id throws and changes nothing, and a
    delivery that completes has ended the response of the entry: an entry
    is resolved once at most. *)
Theorem correlation_integrity `{NodeHost} (id : string) (result : JsValue) (σ : World) :
  (pendingRequests σ !! id = None ->
   handleLambdaResult id result σ = (Throw noPendingError, σ)) /\
  (forall entry,
      pendingRequests σ !! id = Some entry ->
      pendingRequests (snd (handleLambdaResult id result σ))
      = delete id (pendingRequests σ) /\
      (forall again,
          handleLambdaResult id again (snd (handleLambdaResult id result σ))
          = (Throw noPendingError, snd (handleLambdaResult id result σ))) /\
      (forall response,
          resStore σ !! res entry = Some response ->
          fst (handleLambdaResult id result σ) = Ok tt ->
          finished <$> resStore (snd (handleLambdaResult id result σ)) !! res entry
          = Some true)).
Proof.
  split.
  - intros Hnone. unfold handleLambdaResult. rewrite Hnone. reflexivity.
  - intros entry Hentry.
    assert (Hgone :
      pendingRequests (snd (handleLambdaResult id result σ))
      = delete id (pendingRequests σ)).
    { unfold handleLambdaResult, onResponse. rewrite Hentry.
      cbn [resStore set_pendingRequests].
      destruct (resStore σ !! res entry) as [response|]; [| reflexivity].
      destruct (writeResult result response). reflexivity. }
    split; [exact Hgone |]. split.
    + intros again. unfold handleLambdaResult at 1.
      rewrite Hgone, lookup_delete_eq. reflexivity.
    + intros response Hres.
      assert (Hin : (res entry < List.length (resStore σ))%nat).
      { eapply lookup_lt_Some. exact Hres. }
      rewrite (handleLambdaResult_pending id result σ entry response Hentry Hres).
      cbn [fst snd]. intros Hok.
      destruct (writeResult result response) as [[[]|e] r] eqn:Hwrite;
        cbn [fst] in Hok; [| discriminate].
      cbn [snd resStore set_resStore set_pendingRequests].
      rewrite list_lookup_insert_eq by exact Hin.
      cbn. rewrite (writeResult_ends result response r Hwrite). reflexivity.
Qed.

Lemma correlation_integrity_witness :
  pendingRequests helloRequest !! "r1" = Some (mkPending 0 "r1") /\
  pendingRequests (run (@handleLambdaResult PlainHost "r1" helloResult) helloRequest)
  !! "r1" = None /\
  fst (@handleLambdaResult PlainHost "r1" helloResult
         (run (@handleLambdaResult PlainHost "r1" helloResult) helloRequest))
  = Throw noPendingError /\
  finished <$> resStore (run (@handleLambdaResult PlainHost "r1" helloResult) helloRequest)
               !! 0%nat
  = Some true.
Proof.
  assert (Hentry : pendingRequests helloRequest !! "r1" = Some (mkPending 0 "r1"))
    by reflexivity.
  destruct (@correlation_integrity PlainHost "r1" helloResult helloRequest)
    as [_ Hpending].
  destruct (Hpending _ Hentry) as (Hgone & Hagain & Hended).
  split; [exact Hentry |]. split; [| split].
  - unfold run. rewrite Hgone. apply lookup_delete_eq.
  - rewrite Hagain. reflexivity.
  - apply (Hended freshResponse); reflexivity.
Defined.

(** C7, as stated, fails for a worker that exits with code 0 without
    having sent a result.  The exit handler acts on other codes
    only: the process of the request [r1] is gone, its invocation is still
    pending, and the entry of [r1] has received no resolution: it is still
    in the map and its response is not ended. *)
Lemma unresolved_entry_counterexample :
  let σ := snd (@procEvent PlainHost 0 (Exit (Some 0%Z)) helloRequest) in
  fst (@procEvent PlainHost 0 (Exit (Some 0%Z)) helloRequest) = Ok tt /\
  running <$> procStore σ !! 0%nat = Some false /\
  readyOf σ 0 = Pending /\
  pendingRequests σ !! "r1" = Some (mkPending 0 "r1") /\
  finished <$> resStore σ !! 0%nat = Some false.
Proof. cbv zeta. repeat split; vm_compute; reflexivity. Qed.

(** C10 fails on the code. The shape check lets through a result whose
    [headers] are [null]; applying that result throws in the first header
    pass, on every host and for every response object, and the promise
    chain of the request ends in an unhandled rejection with the pending
    entry removed and the response never ended. *)
Theorem null_headers_break_application :
  checkResult nullHeadersResult = true /\
  (forall (host : NodeHost) (response : ServerResponse),
      fst (@writeResult host nullHeadersResult response)
      = Throw (TypeError "Cannot convert undefined or null to object")) /\
  (let σ := snd (@procEvent PlainHost 0
                   (Message (JObj [("message", JStr "result"); ("id", JStr "r1");
                                   ("result", nullHeadersResult)]))
                   helloRequest) in
   (exists e,
       fst (@procEvent PlainHost 0
              (Message (JObj [("message", JStr "result"); ("id", JStr "r1");
                              ("result", nullHeadersResult)]))
              helloRequest) = Throw e) /\
   pendingRequests σ !! "r1" = None /\
   finished <$> resStore σ !! 0%nat = Some false).
Proof.
  split; [reflexivity |]. split.
  - intros host response. reflexivity.
  - cbv zeta. split; [eexists; vm_compute; reflexivity |].
    split; vm_compute; reflexivity.
Qed.

(** ** Dispatch *)

Lemma forbiddenResult_fields :
  Js.getProp forbiddenResult "statusCode" = Ok (JNum 403) /\
  Js.getProp forbiddenResult "body" = Ok (JStr forbiddenBody).
Proof. split; reflexivity. Qed.

Lemma writeResult_forbidden `{NodeHost} (response : ServerResponse) :
  finished response = false ->
  writeResult forbiddenResult response
  = (Ok tt, {| statusCode := JNum 403; resHeaders := resHeaders response;
               finished := true; resBody := forbiddenBody |}).
Proof.
  intros Hfresh.
  unfold writeResult, applyHeaders, mbind, SE_bind, liftExc, setStatusCode, modify, end_.
  cbn. rewrite Hfresh. rewrite validStatusCode_range by lia. reflexivity.
Qed.

(** C6. Routing miss: when the pathname of the event matches no registered
    function, [dispatch] answers a promise already resolved with status 403
    and the body [{"message":"Forbidden"}] and leaves every store as it was,
    so that no process is spawned; the request is answered with that status
    and body, and its pending entry is removed. *)
Theorem dispatch_routing_miss `{NodeHost} (id : string) (eventObject p : JsValue)
        (pathname : string) (σ : World) :
  Js.getProp eventObject "path" = Ok p ->
  url_pathname (Js.toString p) = Some pathname ->
  matchRoute (functionTable σ) pathname = None ->
  dispatch id eventObject σ = (Now (Resolved forbiddenResult), σ) /\
  Js.getProp forbiddenResult "statusCode" = Ok (JNum 403) /\
  Js.getProp forbiddenResult "body" = Ok (JStr forbiddenBody) /\
  (forall r response,
      resStore σ !! r = Some response ->
      finished response = false ->
      exists σ',
        doDispatch id r eventObject σ = (Ok tt, σ') /\
        procStore σ' = procStore σ /\
        workerStore σ' = workerStore σ /\
        pendingRequests σ' !! id = None /\
        resStore σ' !! r
        = Some {| statusCode := JNum 403; resHeaders := resHeaders response;
                  finished := true; resBody := forbiddenBody |}).
Proof.
  intros Hpath Hurl Hmiss.
  assert (Hdispatch : forall τ,
             functionTable τ = functionTable σ ->
             dispatch id eventObject τ = (Now (Resolved forbiddenResult), τ)).
  { intros τ Htable. unfold dispatch. rewrite Hpath, Hurl, Htable, Hmiss. reflexivity. }
  split; [apply Hdispatch; reflexivity |].
  split; [reflexivity |]. split; [reflexivity |].
  intros r response Hres Hfresh.
  assert (Hin : (r < List.length (resStore σ))%nat).
  { eapply lookup_lt_Some. exact Hres. }
  unfold doDispatch. rewrite Hdispatch by reflexivity.
  unfold deliver.
  erewrite handleLambdaResult_pending;
    [| cbn [pendingRequests set_pendingRequests]; apply lookup_insert_eq
     | cbn [res resStore set_pendingRequests]; exact Hres].
  rewrite (writeResult_forbidden response Hfresh). cbn [fst snd res].
  eexists. split; [reflexivity |].
  destruct σ; cbn in *.
  rewrite lookup_delete_eq, list_lookup_insert_eq by exact Hin.
  repeat split.
Qed.

(** [GET /nope] on the gateway whose only route is [/hello]. *)
Lemma dispatch_routing_miss_witness :
  exists σ',
    @doDispatch PlainHost "r2" 0 (JObj [("path", JStr "/nope")])
                (run newResponse helloGateway) = (Ok tt, σ') /\
    procStore σ' = [] /\
    resStore σ' !! 0%nat
    = Some {| statusCode := JNum 403; resHeaders := [];
              finished := true; resBody := forbiddenBody |}.
Proof.
  destruct (@dispatch_routing_miss PlainHost "r2" (JObj [("path", JStr "/nope")])
              (JStr "/nope") "/nope" (run newResponse helloGateway))
    as (_ & _ & _ & Hserve); try reflexivity.
  destruct (Hserve 0%nat freshResponse) as (σ' & Hrun & Hprocs & _ & _ & Hwritten);
    try reflexivity.
  exists σ'. split; [exact Hrun |]. split; [exact Hprocs | exact Hwritten].
Defined.

(** ** Registration *)

Lemma addWorker_registered (f : nat) (info : FunctionInfo) (σ : World) :
  funStore σ !! f = Some info ->
  addWorker f σ
  = (Ok tt,
     set_functions (fun fs => fs ++ [f])%list
       (set_funStore
          (fun s => <[f := mkFunctionInfo (path info) (entry info) (handler info)
                                          (Some (List.length (workerStore σ)))]> s)
          (set_workerStore
             (fun ws => ws ++ [mkWorker [] None
                                 (mkWorkerOptions "nodejs:12.x" (entry info) (handler info))
                                 []])%list σ))).
Proof. intros Hinfo. unfold addWorker. rewrite Hinfo. reflexivity. Qed.

(** Registering the functions [refs] one after the other: every reference
    is pushed on the table and every registration creates a worker. *)
Lemma forEach_addWorker (refs : list nat) :
  forall σ,
    Forall (fun f => (f < List.length (funStore σ))%nat) refs ->
    exists σ',
      forEach refs addWorker σ = (Ok tt, σ') /\
      functions σ' = (functions σ ++ refs)%list /\
      List.length (funStore σ') = List.length (funStore σ) /\
      List.length (workerStore σ') = (List.length (workerStore σ) + List.length refs)%nat /\
      httpServer σ' = httpServer σ /\
      httpsServer σ' = httpsServer σ.
Proof.
  induction refs as [|f refs IH]; intros σ Hrefs.
  - exists σ. rewrite app_nil_r, Nat.add_0_r. repeat split.
  - inversion Hrefs as [|? ? Hf Hrest]; subst.
    destruct (lookup_lt_is_Some_2 _ _ Hf) as [info Hinfo].
    cbn [forEach]. unfold mbind, SE_bind.
    rewrite (addWorker_registered f info σ Hinfo).
    match goal with
    | |- context [forEach refs addWorker ?τ] => destruct (IH τ) as (σ' & Hrun & Hfs & Hlen & Hws & Hhttp & Hhttps)
    end.
    { destruct σ; cbn in *. rewrite length_insert. exact Hrest. }
    exists σ'. rewrite Hrun. split; [reflexivity |].
    destruct σ; cbn in *.
    rewrite Hfs, Hlen, Hws, Hhttp, Hhttps, length_insert, length_app, <- app_assoc.
    cbn. repeat split. lia.
Qed.

Lemma addWorker_serverStore (f : nat) (σ σ' : World) (out : Exc unit) :
  addWorker f σ = (out, σ') -> serverStore σ' = serverStore σ.
Proof.
  unfold addWorker. destruct (funStore σ !! f) as [info|].
  - cbn. intros Hrun. injection Hrun as _ <-. reflexivity.
  - intros Hrun. injection Hrun as _ <-. reflexivity.
Qed.

Lemma forEach_addWorker_serverStore (refs : list nat) (σ σ' : World) (out : Exc unit) :
  forEach refs addWorker σ = (out, σ') -> serverStore σ' = serverStore σ.
Proof.
  intros Hrun.
  eapply (forEach_preserves (fun ω => serverStore ω = serverStore σ));
    [| exact Hrun | reflexivity].
  intros f ω o ω' Hstep Hω. apply addWorker_serverStore in Hstep. congruence.
Qed.

(** A server that does not listen yet starts to listen; one that listens
    already throws. *)
Lemma listen_idle (s : nat) (σ : World) :
  listening <$> serverStore σ !! s <> Some true ->
  listen s σ = (Ok tt, set_serverStore (fun ss => <[s := mkServer true]> ss) σ).
Proof.
  intros Hidle. unfold listen.
  destruct (listening <$> serverStore σ !! s) as [[|]|]; [contradiction | |]; reflexivity.
Qed.

Lemma listen_listening (s : nat) (σ : World) :
  listening <$> serverStore σ !! s = Some true ->
  exists e, listen s σ = (Throw e, σ).
Proof. intros Hon. unfold listen. rewrite Hon. eexists. reflexivity. Qed.

Lemma seq_below (n : nat) : Forall (fun f => (f < n)%nat) (List.seq 0 n).
Proof. apply Forall_forall. intros f Hf. apply elem_of_seq in Hf. lia. Qed.

Lemma functionTable_length (σ : World) :
  Forall (fun f => (f < List.length (funStore σ))%nat) (functions σ) ->
  List.length (functionTable σ) = List.length (functions σ).
Proof.
  unfold functionTable. generalize (functions σ) as refs.
  induction refs as [|f refs IH]; intros Hrefs; [reflexivity |].
  inversion Hrefs as [|? ? Hf Hrest]; subst.
  destruct (lookup_lt_is_Some_2 _ _ Hf) as [info Hinfo].
  cbn. rewrite Hinfo. cbn. rewrite IH by exact Hrest. reflexivity.
Qed.

(** C9 fails on the code. For a gateway constructed with [n] functions,
    the constructor registers each function once, and [bootstrap] registers
    each of them again: the function table then holds every function twice,
    [2 * n] entries, and [2 * n] workers have been created. *)
Theorem bootstrap_registers_twice (opts : Options) :
  exists σ σ',
    construct opts emptyWorld = (Ok tt, σ) /\
    bootstrap σ = (Ok tt, σ') /\
    functions σ = List.seq 0 (List.length (initialFunctions opts)) /\
    functions σ'
    = (List.seq 0 (List.length (initialFunctions opts))
       ++ List.seq 0 (List.length (initialFunctions opts)))%list /\
    List.length (functionTable σ') = (2 * List.length (initialFunctions opts))%nat /\
    List.length (workerStore σ') = (2 * List.length (initialFunctions opts))%nat.
Proof.
  set (n := List.length (initialFunctions opts)).
  unfold construct, mbind, SE_bind, modify.
  match goal with
  | |- context [forEach (List.seq 0 _) addWorker ?τ] =>
      destruct (forEach_addWorker (List.seq 0 n) τ)
        as (σ & Hrun & Hfs & Hlen & Hws & Hhttp & Hhttps)
  end.
  { cbn [funStore]. apply seq_below. }
  cbn [functions funStore workerStore httpServer httpsServer] in *.
  fold n. rewrite Hrun. exists σ.
  assert (Hrefs : Forall (fun f => (f < List.length (funStore σ))%nat) (functions σ)).
  { rewrite Hfs, Hlen. apply seq_below. }
  assert (Hservers : serverStore σ
                     = if withHttps opts then [mkServer false; mkServer false]
                       else [mkServer false]).
  { apply forEach_addWorker_serverStore in Hrun. exact Hrun. }
  unfold bootstrap. rewrite Hhttp.
  assert (Hlisten : exists τ,
    forall k : SE World unit,
      ((match httpsServer σ with
        | Some s => listen s
        | None => mret tt
        end);; listen 0%nat;; k) σ = k τ /\
      functions τ = functions σ /\ funStore τ = funStore σ /\
      workerStore τ = workerStore σ).
  { rewrite Hhttps. unfold mbind, SE_bind, mret, SE_ret.
    destruct (withHttps opts).
    - rewrite listen_idle by (rewrite Hservers; discriminate).
      rewrite listen_idle
        by (cbn [serverStore set_serverStore]; rewrite Hservers; discriminate).
      eexists. intros k. split; [reflexivity |]. destruct σ; repeat split.
    - rewrite listen_idle by (rewrite Hservers; discriminate).
      eexists. intros k. split; [reflexivity |]. destruct σ; repeat split. }
  destruct Hlisten as (τ & Hτ).
  destruct (Hτ (forEach (functions σ) addWorker)) as (Hstep & Hfτ & Hsτ & Hwτ).
  destruct (forEach_addWorker (functions σ) τ)
    as (σ' & Hrun' & Hfs' & Hlen' & Hws' & _).
  { rewrite Hsτ. exact Hrefs. }
  exists σ'. split; [reflexivity |]. split; [rewrite Hstep; exact Hrun' |].
  rewrite Hfτ in Hfs'. rewrite Hsτ in Hlen'. rewrite Hwτ in Hws'.
  rewrite Hfs in *. cbn [app] in *.
  split; [reflexivity |]. split; [exact Hfs' |].
  rewrite length_seq in *.
  split.
  - rewrite functionTable_length.
    + rewrite Hfs', length_app, !length_seq. lia.
    + rewrite Hfs', Hlen', Hlen. apply Forall_app. split; apply seq_below.
  - change (List.length (@nil ChildProcessWorker)) with 0%nat in Hws. lia.
Qed.

(** The gateway of the single route [/hello] after [bootstrap]: the route
    is in the table twice, and the worker the constructor created for it is
    no longer referred to. *)
Lemma helloGateway_table :
  functions helloGateway = [0; 0]%nat /\
  List.map path (functionTable helloGateway) = ["/hello"; "/hello"] /\
  List.map worker (functionTable helloGateway) = [Some 1; Some 1]%nat /\
  List.length (workerStore helloGateway) = 2%nat.
Proof. repeat split. Qed.

(** ** Shutdown *)

Lemma kill_zero (p : Proc) : kill 0 p = p.
Proof. reflexivity. Qed.

Lemma workerClose_procStore (w : nat) (σ σ' : World) (out : Exc unit) :
  workerClose w σ = (out, σ') -> procStore σ' = procStore σ.
Proof.
  unfold workerClose. destruct (workerStore σ !! w) as [wk|].
  - intros Hrun. injection Hrun as _ <-. cbn [procStore set_workerStore].
    generalize (procs wk) as tracked. intros tracked. revert σ.
    induction tracked as [|v tracked IH]; intros σ; [reflexivity |].
    cbn [List.fold_left]. rewrite IH. cbn [procStore set_procStore].
    apply list_alter_id. intros p. apply kill_zero.
  - intros Hrun. injection Hrun as _ <-. reflexivity.
Qed.

Lemma workerClose_clears (w : nat) (wk : ChildProcessWorker) (σ : World) :
  workerStore σ !! w = Some wk ->
  exists σ',
    workerClose w σ = (Ok tt, σ') /\
    procs <$> workerStore σ' !! w = Some [].
Proof.
  intros Hwk. unfold workerClose. rewrite Hwk.
  eexists. split; [reflexivity |].
  cbn [workerStore set_workerStore].
  assert (Hsame : forall tracked τ,
    workerStore (List.fold_left (fun σ v => set_procStore (alter (kill 0) v) σ) tracked τ)
    = workerStore τ).
  { induction tracked as [|v tracked IH]; intros τ; [reflexivity |].
    cbn [List.fold_left]. rewrite IH. reflexivity. }
  rewrite Hsame, list_lookup_alter_eq, Hwk. reflexivity.
Qed.

Lemma close_procStore (σ : World) : procStore (snd (close σ)) = procStore σ.
Proof.
  unfold close, mbind, SE_bind.
  assert (Hservers : forall s τ, procStore (snd (serverClose s τ)) = procStore τ /\
                                 exists τ', serverClose s τ = (Ok tt, τ')).
  { intros [r|] τ; split; try reflexivity; eexists; reflexivity. }
  destruct (Hservers (httpServer σ) σ) as [Hp1 [σ1 Hs1]]. rewrite Hs1 in *.
  destruct (Hservers (httpsServer σ) σ1) as [Hp2 [σ2 Hs2]]. rewrite Hs2 in *.
  cbn [snd] in *.
  destruct (forEach (functionTable σ) _ σ2) as [[u|e] σ3] eqn:Hworkers.
  - cbn. transitivity (procStore σ2); [| congruence].
    eapply (forEach_preserves (fun τ => procStore τ = procStore σ2));
      [| exact Hworkers | reflexivity].
    intros f τ out τ' Hstep Hτ. cbn beta in *.
    destruct (worker f) as [w|].
    + apply workerClose_procStore in Hstep. congruence.
    + injection Hstep as _ <-. exact Hτ.
  - cbn. transitivity (procStore σ2); [| congruence].
    eapply (forEach_preserves (fun τ => procStore τ = procStore σ2));
      [| exact Hworkers | reflexivity].
    intros f τ out τ' Hstep Hτ. cbn beta in *.
    destruct (worker f) as [w|].
    + apply workerClose_procStore in Hstep. congruence.
    + injection Hstep as _ <-. exact Hτ.
Qed.

(** C8 fails on the code. [close()] leaves every process as it was: the
    supervisors send signal [0], which delivers nothing.  On the gateway
    with the request [r1] in flight, [close()] completes, both listeners
    are closed and forgotten and the tracked set of the supervisor is
    cleared, but the process it was tracking is still running. *)
Theorem close_leaves_workers_running :
  (forall σ, procStore (snd (close σ)) = procStore σ) /\
  procs <$> workerStore helloRequest !! 1%nat = Some [0%nat] /\
  running <$> procStore helloRequest !! 0%nat = Some true /\
  fst (close helloRequest) = Ok tt /\
  httpServer (run close helloRequest) = None /\
  httpsServer (run close helloRequest) = None /\
  serverStore (run close helloRequest) = [mkServer false] /\
  procs <$> workerStore (run close helloRequest) !! 1%nat = Some [] /\
  running <$> procStore (run close helloRequest) !! 0%nat = Some true.
Proof.
  split; [exact close_procStore |].
  repeat split.
Qed.

(** ** Worker crash *)

Lemma stringify_crashDocument (text : string) :
  JSON.stringify (crashDocument text) 2 = JStr (crashBody text).
Proof. reflexivity. Qed.

Lemma crashBody_not_empty (text : string) : String.eqb (crashBody text) "" = false.
Proof.
  unfold crashBody, crashDocument, JSON.stringify. cbn [JSON.serialize].
  unfold JSON.wrap.
  match goal with
  | |- context [match ?parts with [] => _ | _ :: _ => _ end] => destruct parts
  end; reflexivity.
Qed.

Lemma crashResult_payload `{NodeHost} (text : string) :
  crashResult (crashPayload text)
  = Ok (JObj [("statusCode", JNum 500); ("headers", JObj []);
              ("body", JStr (crashBody text))]).
Proof. reflexivity. Qed.

Lemma writeResult_crash `{NodeHost} (text : string) (response : ServerResponse) :
  finished response = false ->
  writeResult (JObj [("statusCode", JNum 500); ("headers", JObj []);
                     ("body", JStr (crashBody text))]) response
  = (Ok tt, {| statusCode := JNum 500; resHeaders := resHeaders response;
               finished := true; resBody := crashBody text |}).
Proof.
  intros Hfresh.
  unfold writeResult, applyHeaders, mbind, SE_bind, liftExc, setStatusCode, modify, end_.
  cbn -[crashBody]. rewrite Hfresh. rewrite validStatusCode_range by lia.
  cbn -[crashBody]. rewrite crashBody_not_empty. reflexivity.
Qed.

(** The half of C5 the code does provide: when the first chunk of the error
    stream was captured before the process exits with a non-zero code (or is
    ended by a signal), the invocation is rejected, the request is answered
    with status 500 and a document that holds the message and the captured
    chunk split into lines, and the pending entry is removed. *)
Lemma crash_with_captured_stderr `{NodeHost} (pid : nat) (p : Proc) (text : string)
      (code : option Z) (entry : PendingEntry) (response : ServerResponse) (σ : World) :
  procStore σ !! pid = Some p ->
  ready p = Pending ->
  exitOnce p = true ->
  error p = Some text ->
  code <> Some 0%Z ->
  pendingRequests σ !! corrId p = Some entry ->
  resStore σ !! res entry = Some response ->
  finished response = false ->
  exists σ',
    procEvent pid (Exit code) σ = (Ok tt, σ') /\
    readyOf σ' pid = Rejected (crashPayload text) /\
    pendingRequests σ' !! corrId p = None /\
    resStore σ' !! res entry
    = Some {| statusCode := JNum 500; resHeaders := resHeaders response;
              finished := true; resBody := crashBody text |}.
Proof.
  intros Hp Hready Hexit Herror Hcode Hentry Hres Hfresh.
  assert (Hin : (res entry < List.length (resStore σ))%nat).
  { eapply lookup_lt_Some. exact Hres. }
  unfold procEvent. rewrite Hp. unfold listener. rewrite Hexit, Herror, Hready.
  unfold onExit.
  assert (Hnonzero : match code with Some 0%Z => false | _ => true end = true).
  { destruct code as [[| |]|]; try reflexivity. contradiction. }
  rewrite Hnonzero. unfold mbind, SE_bind, modify.
  set (σ2 := set_procStore _ (set_workerStore _ (set_procStore _ σ))).
  assert (Hsettled : readyOf σ2 pid = Rejected (crashPayload text)).
  { unfold readyOf, σ2. cbn [procStore set_procStore set_workerStore].
    rewrite !list_lookup_alter_eq, Hp. cbn.
    unfold settle. cbn. rewrite Hready. reflexivity. }
  rewrite Hsettled. unfold deliver, catchCallback, mbind, SE_bind, liftExc.
  rewrite crashResult_payload.
  erewrite handleLambdaResult_pending; [| exact Hentry | exact Hres].
  rewrite (writeResult_crash text response Hfresh). cbn [fst snd].
  eexists. split; [reflexivity |]. split.
  - unfold readyOf in *. exact Hsettled.
  - cbn [pendingRequests resStore set_pendingRequests set_resStore].
    rewrite lookup_delete_eq.
    split; [reflexivity |].
    subst σ2. cbn [resStore set_procStore set_workerStore].
    apply list_lookup_insert_eq. exact Hin.
Qed.

(** C5 fails on the code. The worker of the request [r1] exits with code 1
    having written nothing on its error stream: the exit handler throws
    before it rejects the invocation, no response is written and the pending
    entry stays.  With a chunk captured first, the same exit is answered
    with status 500 and the entry is removed. *)
Theorem silent_crash_is_not_translated :
  (exists e σ',
      @procEvent PlainHost 0 (Exit (Some 1%Z)) helloRequest = (Throw e, σ') /\
      readyOf σ' 0 = Pending /\
      pendingRequests σ' !! "r1" = Some (mkPending 0 "r1") /\
      finished <$> resStore σ' !! 0%nat = Some false) /\
  (exists σ',
      @procEvent PlainHost 0 (Exit (Some 1%Z))
                 (run (@procEvent PlainHost 0 (StderrData "boom")) helloRequest)
      = (Ok tt, σ') /\
      pendingRequests σ' !! "r1" = None /\
      statusCode <$> resStore σ' !! 0%nat = Some (JNum 500)).
Proof.
  split.
  - eexists. eexists. split; [vm_compute; reflexivity |]. repeat split.
  - eexists. split; [vm_compute; reflexivity |]. repeat split.
Qed.

(** * Further properties *)

(** ** The literal prefix of a proxy pattern *)

Lemma lastIndexOf_absent (route : string) :
  occursIn "{" route = false -> JsString.lastIndexOf route "{" = (-1)%Z.
Proof. intros Habsent. apply lastIndexOf_from_absent. exact Habsent. Qed.

(** X1. The literal prefix [matchRoute] gives a proxy pattern is what
    precedes its last opening brace: [stem] for the pattern [stem{name+}];
    a pattern that holds no brace at all loses its last character only. *)
Theorem proxy_literal_prefix (route : string) :
  (forall stem name,
      occursIn "{" name = false ->
      route = stem ++ "{" ++ name ++ "+}" ->
      exactPrefix route = stem) /\
  (occursIn "{" route = false ->
   exactPrefix route = String.substring 0 (String.length route - 1) route).
Proof.
  split.
  - intros stem name Habsent ->. apply exactPrefix_proxy. exact Habsent.
  - intros Habsent. unfold exactPrefix. rewrite lastIndexOf_absent by exact Habsent.
    unfold JsString.slice, JsString.clamp, JsString.slen.
    destruct (Z.ltb_spec 0 0) as [Hneg|_]; [lia |].
    destruct (Z.ltb_spec (-1) 0) as [_|Hneg]; [| lia].
    rewrite Z.min_l by lia.
    replace (Z.to_nat 0) with 0%nat by reflexivity.
    replace (Z.to_nat (Z.max (Z.max (Z.of_nat (String.length route) + -1) 0 - 0) 0))
      with (String.length route - 1)%nat by lia.
    reflexivity.
Qed.

Lemma proxy_literal_prefix_witness :
  exactPrefix "/proxy/{proxy+}" = "/proxy/" /\ exactPrefix "/files+}" = "/files+".
Proof.
  destruct (proxy_literal_prefix "/proxy/{proxy+}") as [Hbrace _].
  destruct (proxy_literal_prefix "/files+}") as [_ Hbare].
  split.
  - apply (Hbrace "/proxy/" "proxy"); reflexivity.
  - rewrite Hbare; reflexivity.
Defined.

(** ** Results written verbatim *)

Section Verbatim.
Context `{NodeHost}.

Lemma setHeader_keeps (name : string) (value : JsValue)
      (response response' : ServerResponse) (out : Exc unit) :
  setHeader name value response = (out, response') ->
  statusCode response' = statusCode response /\ resBody response' = resBody response.
Proof.
  unfold setHeader. intros Hrun.
  destruct (finished response); [injection Hrun as _ <-; auto |].
  destruct (negb (validHeaderName name)); [injection Hrun as _ <-; auto |].
  destruct (negb (validHeaderValue value)); injection Hrun as _ <-; auto.
Qed.

Lemma applyHeaders_keeps (h : JsValue) (response response' : ServerResponse)
      (out : Exc unit) :
  applyHeaders h response = (out, response') ->
  statusCode response' = statusCode response /\ resBody response' = resBody response.
Proof.
  unfold applyHeaders, mbind, SE_bind, liftExc. intros Hrun.
  destruct (Js.Object_keys h) as [keys|e]; [| injection Hrun as _ <-; auto].
  eapply (forEach_preserves
            (fun r => statusCode r = statusCode response /\ resBody r = resBody response));
    [| exact Hrun | auto].
  intros key r out1 r1 Hstep [Hs Hb]. cbn beta in *.
  destruct (Js.getProp h key) as [v|e]; [| injection Hstep as _ <-; auto].
  apply setHeader_keeps in Hstep as [Hs' Hb']. split; congruence.
Qed.

Lemma headerPasses_keeps (result sc : JsValue) (response r : ServerResponse) :
  Js.getProp result "statusCode" = Ok sc ->
  headerPasses result response = (Ok tt, r) ->
  statusCode r = sc /\ resBody r = resBody response /\ finished r = finished response.
Proof.
  intros Hsc Hrun.
  pose proof (headerPasses_finished _ _ _ _ Hrun) as Hfin.
  unfold headerPasses, mbind, SE_bind, liftExc, setStatusCode, modify in Hrun.
  rewrite Hsc in Hrun.
  destruct (Js.getProp result "headers") as [hs|e]; [| discriminate].
  destruct (applyHeaders hs _) as [[u|e] r1] eqn:Hfirst; [| discriminate].
  apply applyHeaders_keeps in Hfirst as [Hs1 Hb1]. cbn in Hs1, Hb1.
  destruct (Js.getProp result "multiValueHeaders") as [mv|e]; [| discriminate].
  destruct (Js.truthy mv).
  - apply applyHeaders_keeps in Hrun as [Hs2 Hb2]. repeat split; congruence.
  - cbn in Hrun. injection Hrun as <-. auto.
Qed.

Lemma writeResult_verbatim (result flag sc : JsValue) (body : string)
      (response r : ServerResponse) :
  finished response = false ->
  Js.getProp result "isBase64Encoded" = Ok flag ->
  Js.truthy flag = false ->
  Js.getProp result "statusCode" = Ok sc ->
  validStatusCode sc = true ->
  Js.getProp result "body" = Ok (JStr body) ->
  headerPasses result response = (Ok tt, r) ->
  writeResult result response = (Ok tt, answered sc body r).
Proof.
  intros Hfresh Hflag Hfalsy Hsc Hvalid Hbody Hpasses.
  rewrite writeResult_passes, Hpasses.
  destruct (headerPasses_keeps _ _ _ _ Hsc Hpasses) as (Hs & Hb & Hf).
  unfold mbind, SE_bind, liftExc, end_, answered.
  rewrite Hflag, Hfalsy, Hbody, Hf, Hfresh, Hs, Hvalid. cbn [negb Js.truthy].
  destruct (String.eqb body ""); reflexivity.
Qed.

End Verbatim.

(** X2. A result whose binary-encoding flag is falsy is written verbatim:
    when the two header passes go through and the host accepts the status
    code, [handleLambdaResult] ends the response with the status code and
    the body of the result and removes the pending entry. *)
Theorem verbatim_result `{NodeHost} (id : string) (result flag sc : JsValue)
        (body : string) (σ : World) (entry : PendingEntry)
        (response r : ServerResponse) :
  pendingRequests σ !! id = Some entry ->
  resStore σ !! res entry = Some response ->
  finished response = false ->
  Js.getProp result "isBase64Encoded" = Ok flag ->
  Js.truthy flag = false ->
  Js.getProp result "statusCode" = Ok sc ->
  validStatusCode sc = true ->
  Js.getProp result "body" = Ok (JStr body) ->
  headerPasses result response = (Ok tt, r) ->
  exists σ',
    handleLambdaResult id result σ = (Ok tt, σ') /\
    hasPendingRequest id σ' = false /\
    resStore σ' !! res entry
    = Some {| statusCode := sc; resHeaders := resHeaders r; finished := true;
              resBody := if String.eqb body "" then resBody response else body |}.
Proof.
  intros Hentry Hres Hfresh Hflag Hfalsy Hsc Hvalid Hbody Hpasses.
  assert (Hin : (res entry < List.length (resStore σ))%nat).
  { eapply lookup_lt_Some. exact Hres. }
  rewrite (handleLambdaResult_pending id result σ entry response Hentry Hres).
  rewrite (writeResult_verbatim result flag sc body response r) by assumption.
  destruct (headerPasses_keeps _ _ _ _ Hsc Hpasses) as (_ & Hb & _).
  eexists. split; [reflexivity |]. destruct σ; cbn in *. split.
  - unfold hasPendingRequest. cbn. rewrite lookup_delete_eq.
    apply bool_decide_eq_false. intros [x Hx]. discriminate.
  - rewrite list_lookup_insert_eq by exact Hin. unfold answered. rewrite Hb. reflexivity.
Qed.

(** The [/hello] result delivered for the request [r1]. *)
Lemma verbatim_result_witness :
  exists σ',
    @handleLambdaResult PlainHost "r1" helloResult helloRequest = (Ok tt, σ') /\
    hasPendingRequest "r1" σ' = false /\
    resStore σ' !! 0%nat
    = Some {| statusCode := JNum 200;
              resHeaders := [("content-type", JStr "text/plain")];
              finished := true; resBody := "hi" |}.
Proof.
  destruct (@verbatim_result PlainHost "r1" helloResult (JBool false) (JNum 200) "hi"
              helloRequest (mkPending 0 "r1") freshResponse
              {| statusCode := JNum 200;
                 resHeaders := [("content-type", JStr "text/plain")];
                 finished := false; resBody := "" |})
    as (σ' & Hrun & Hgone & Hwritten); try reflexivity.
  exists σ'. split; [exact Hrun |]. split; [exact Hgone | exact Hwritten].
Defined.

(** ** The two header passes *)

Section HeaderPasses.
Context `{NodeHost}.

Lemma setHeader_headers (name : string) (value : JsValue) (response r : ServerResponse) :
  setHeader name value response = (Ok tt, r) ->
  resHeaders r = Js.obj_put (resHeaders response) (toLowerCase name) value.
Proof.
  unfold setHeader. intros Hrun.
  destruct (finished response); [discriminate |].
  destruct (negb (validHeaderName name)); [discriminate |].
  destruct (negb (validHeaderValue value)); [discriminate |].
  injection Hrun as <-. reflexivity.
Qed.

Lemma forEach_setHeader_headers (h : JsValue) (keys : list string) :
  forall response r,
    forEach keys (fun key => v ← liftExc (Js.getProp h key); setHeader key v) response
    = (Ok tt, r) ->
    resHeaders r = headersAfter h keys (resHeaders response).
Proof.
  induction keys as [|key keys IH]; intros response r Hrun.
  - cbn in Hrun. injection Hrun as <-. reflexivity.
  - cbn [forEach] in Hrun. unfold mbind, SE_bind, liftExc in *.
    change (headersAfter h (key :: keys) (resHeaders response))
      with (headersAfter h keys
              (Js.obj_put (resHeaders response) (toLowerCase key) (propOf h key))).
    unfold propOf.
    destruct (Js.getProp h key) as [v|e]; [| discriminate].
    destruct (setHeader key v response) as [[[]|e] r1] eqn:Hset; [| discriminate].
    apply setHeader_headers in Hset. rewrite <- Hset.
    apply IH. exact Hrun.
Qed.

Lemma applyHeaders_headers (ps : Props) (response r : ServerResponse) :
  applyHeaders (JObj ps) response = (Ok tt, r) ->
  resHeaders r = headersAfter (JObj ps) (List.map fst ps) (resHeaders response).
Proof.
  unfold applyHeaders, mbind, SE_bind, liftExc. cbn [Js.Object_keys].
  apply forEach_setHeader_headers.
Qed.

End HeaderPasses.

Lemma headersAfter_other (h : JsValue) (keys : list string) (name : string) :
  forall start,
    ~ In name (List.map toLowerCase keys) ->
    Js.obj_get (headersAfter h keys start) name = Js.obj_get start name.
Proof.
  unfold headersAfter.
  induction keys as [|key keys IH]; intros start Hout; [reflexivity |].
  cbn [List.fold_left]. rewrite IH.
  - rewrite obj_get_put.
    destruct (String.eqb_spec (toLowerCase key) name) as [Heq|Hne]; [| reflexivity].
    exfalso. apply Hout. left. exact Heq.
  - intros Hin. apply Hout. right. exact Hin.
Qed.

Lemma headersAfter_lookup (h : JsValue) (keys : list string) (key : string) :
  forall start,
    In key keys ->
    List.NoDup (List.map toLowerCase keys) ->
    Js.obj_get (headersAfter h keys start) (toLowerCase key) = propOf h key.
Proof.
  induction keys as [|k keys IH]; intros start Hin Hnodup; [contradiction |].
  inversion Hnodup as [|? ? Hfresh Hrest]; subst.
  change (headersAfter h (k :: keys) start)
    with (headersAfter h keys (Js.obj_put start (toLowerCase k) (propOf h k))).
  destruct Hin as [->|Hin].
  - rewrite headersAfter_other by exact Hfresh.
    rewrite obj_get_put, String.eqb_refl. reflexivity.
  - apply IH; assumption.
Qed.

Lemma obj_get_member (ps : Props) (k : string) (v : JsValue) :
  List.NoDup (List.map fst ps) -> In (k, v) ps -> Js.obj_get ps k = v.
Proof.
  induction ps as [|[k0 v0] ps IH]; intros Hnodup Hin; [contradiction |].
  inversion Hnodup as [|? ? Hfresh Hrest]; subst. cbn.
  destruct Hin as [Heq|Hin].
  - injection Heq as -> ->. rewrite String.eqb_refl. reflexivity.
  - destruct (String.eqb_spec k0 k) as [->|Hne]; [| apply IH; assumption].
    exfalso. apply Hfresh. apply (List.in_map fst) in Hin. exact Hin.
Qed.

Lemma NoDup_lower_keys (keys : list string) :
  List.NoDup (List.map toLowerCase keys) -> List.NoDup keys.
Proof.
  induction keys as [|k keys IH]; intros Hnodup; [constructor |].
  inversion Hnodup as [|? ? Hfresh Hrest]; subst.
  constructor; [| apply IH; exact Hrest].
  intros Hin. apply Hfresh. apply List.in_map. exact Hin.
Qed.

(** X3. The second header pass wins: when a result carries multi-valued
    headers whose names differ pairwise whatever their case, every one of
    them is, after the two passes, the value of its header, whatever the
    single-valued pass had written under that name. *)
Theorem multi_valued_header_wins `{NodeHost} (result : JsValue) (ms : Props)
        (response r : ServerResponse) (k : string) (v : JsValue) :
  Js.getProp result "multiValueHeaders" = Ok (JObj ms) ->
  List.NoDup (List.map toLowerCase (List.map fst ms)) ->
  In (k, v) ms ->
  headerPasses result response = (Ok tt, r) ->
  Js.obj_get (resHeaders r) (toLowerCase k) = v.
Proof.
  intros Hmv Hnodup Hin Hrun.
  unfold headerPasses, mbind, SE_bind, liftExc, setStatusCode, modify in Hrun.
  destruct (Js.getProp result "statusCode") as [sc|e]; [| discriminate].
  destruct (Js.getProp result "headers") as [hs|e]; [| discriminate].
  destruct (applyHeaders hs _) as [[u|e] r1]; [| discriminate].
  rewrite Hmv in Hrun. cbn [Js.truthy] in Hrun.
  apply applyHeaders_headers in Hrun. rewrite Hrun.
  rewrite headersAfter_lookup.
  - unfold propOf. cbn [Js.getProp]. apply obj_get_member; [| exact Hin].
    apply NoDup_lower_keys. exact Hnodup.
  - apply (List.in_map fst) in Hin. exact Hin.
  - exact Hnodup.
Qed.

(** [Set-Cookie] given once as a single value and once as a list. *)
Lemma multi_valued_header_wins_witness :
  Js.obj_get
    (resHeaders
       (snd (@headerPasses PlainHost
               (JObj [("statusCode", JNum 200);
                      ("headers", JObj [("Set-Cookie", JStr "a=1")]);
                      ("multiValueHeaders",
                       JObj [("set-cookie", JArr [JStr "a=1"; JStr "b=2"])])])
               freshResponse)))
    "set-cookie"
  = JArr [JStr "a=1"; JStr "b=2"].
Proof.
  apply (@multi_valued_header_wins PlainHost
           (JObj [("statusCode", JNum 200);
                  ("headers", JObj [("Set-Cookie", JStr "a=1")]);
                  ("multiValueHeaders",
                   JObj [("set-cookie", JArr [JStr "a=1"; JStr "b=2"])])])
           [("set-cookie", JArr [JStr "a=1"; JStr "b=2"])] freshResponse _
           "set-cookie" (JArr [JStr "a=1"; JStr "b=2"])).
  - reflexivity.
  - repeat constructor. intros [].
  - left. reflexivity.
  - reflexivity.
Defined.

(** ** The events of a worker process *)

Lemma ready_disarm (ev : ProcEvent) (p : Proc) : ready (disarm ev p) = ready p.
Proof. destruct ev; cbn; [destruct (stderrOnce p) | | |]; reflexivity. Qed.

Lemma settle_settled (s : Settled) (p : Proc) : ready p <> Pending -> settle s p = p.
Proof. unfold settle. destruct (ready p); [contradiction | reflexivity | reflexivity]. Qed.

Lemma ready_settle_pending (s : Settled) (p : Proc) :
  ready p = Pending -> ready (settle s p) = s.
Proof. unfold settle. intros ->. reflexivity. Qed.

(** X5. A worker that exits with code 0 before it sent a result is not
    reported to anyone: the exit handler does nothing, the invocation stays
    pending, no response is written and the pending entry stays. *)
Theorem zero_exit_leaves_request_pending `{NodeHost} (pid : nat) (p : Proc) (σ : World) :
  procStore σ !! pid = Some p ->
  ready p = Pending ->
  exists σ',
    procEvent pid (Exit (Some 0%Z)) σ = (Ok tt, σ') /\
    readyOf σ' pid = Pending /\
    running <$> procStore σ' !! pid = Some false /\
    pendingRequests σ' = pendingRequests σ /\
    resStore σ' = resStore σ.
Proof.
  intros Hp Hready. unfold procEvent. rewrite Hp, Hready.
  set (σ1 := set_procStore (alter (disarm (Exit (Some 0%Z))) pid) σ).
  assert (Hlistener : listener pid p (Exit (Some 0%Z)) σ1 = (Ok tt, σ1)).
  { unfold listener, onExit. destruct (exitOnce p); reflexivity. }
  rewrite Hlistener.
  assert (Hσ1 : procStore σ1 !! pid = Some (disarm (Exit (Some 0%Z)) p)).
  { subst σ1. destruct σ; cbn in *. rewrite list_lookup_alter_eq, Hp. reflexivity. }
  assert (Hstill : readyOf σ1 pid = Pending).
  { unfold readyOf. rewrite Hσ1, ready_disarm. exact Hready. }
  rewrite Hstill. exists σ1. split; [reflexivity |]. split; [exact Hstill |].
  split; [rewrite Hσ1; reflexivity |].
  subst σ1. destruct σ; split; reflexivity.
Qed.

Lemma zero_exit_leaves_request_pending_witness :
  exists σ',
    @procEvent PlainHost 0 (Exit (Some 0%Z)) helloRequest = (Ok tt, σ') /\
    readyOf σ' 0 = Pending /\
    hasPendingRequest "r1" σ' = true.
Proof.
  edestruct (@zero_exit_leaves_request_pending PlainHost 0 helloProc helloRequest)
    as (σ' & Hrun & Hstill & _ & Hpending & _); [reflexivity | reflexivity |].
  exists σ'. split; [exact Hrun |]. split; [exact Hstill |].
  unfold hasPendingRequest. rewrite Hpending. reflexivity.
Defined.

(** X6. A rejection whose reason carries no [error] text is not converted
    into a response: when the process reports a spawn or channel error (an
    error object has a message and no [error] field), the invocation is
    rejected with it, the [catch] callback of [doDispatch] throws while it
    builds the result, no response is written and the pending entry stays. *)
Theorem error_event_is_not_answered `{NodeHost} (pid : nat) (p : Proc)
        (err : JsValue) (σ : World) :
  procStore σ !! pid = Some p ->
  ready p = Pending ->
  (forall text, Js.getProp err "error" <> Ok (JStr text)) ->
  exists e σ',
    procEvent pid (ProcError err) σ = (Throw e, σ') /\
    readyOf σ' pid = Rejected err /\
    pendingRequests σ' = pendingRequests σ /\
    resStore σ' = resStore σ.
Proof.
  intros Hp Hready Hnotext. unfold procEvent. rewrite Hp, Hready.
  cbn [listener disarm]. unfold modify.
  set (σ2 := set_procStore (alter (settle (Rejected err)) pid)
               (set_procStore (alter (fun q => q) pid) σ)).
  assert (Hσ2 : readyOf σ2 pid = Rejected err).
  { unfold readyOf. subst σ2. destruct σ; cbn in *.
    rewrite !list_lookup_alter_eq, Hp. cbn. apply ready_settle_pending. exact Hready. }
  change (set_procStore (alter (settle (Rejected err)) pid)
            (set_procStore (alter (disarm (ProcError err)) pid) σ)) with σ2.
  rewrite Hσ2. unfold deliver, catchCallback, mbind, SE_bind, liftExc.
  assert (Hthrows : exists e, crashResult err = Throw e).
  { unfold crashResult, mbind, Exc_bind.
    destruct (Js.getProp err "message") as [m|e]; [| eexists; reflexivity].
    destruct (Js.getProp err "error") as [[| | | |text| |]|e] eqn:Herr;
      try (eexists; reflexivity).
    exfalso. apply (Hnotext text). reflexivity. }
  destruct Hthrows as [e He]. rewrite He.
  exists e, σ2. split; [reflexivity |]. split; [exact Hσ2 |].
  subst σ2. destruct σ; split; reflexivity.
Qed.

Lemma error_event_is_not_answered_witness :
  exists e σ',
    @procEvent PlainHost 0 (ProcError (Error_ "spawn ENOENT")) helloRequest
    = (Throw e, σ') /\
    hasPendingRequest "r1" σ' = true /\
    finished <$> resStore σ' !! 0%nat = Some false.
Proof.
  edestruct (@error_event_is_not_answered PlainHost 0 helloProc (Error_ "spawn ENOENT")
               helloRequest)
    as (e & σ' & Hrun & _ & Hpending & Hres);
    [reflexivity | reflexivity | intros text; discriminate |].
  exists e, σ'. split; [exact Hrun |].
  unfold hasPendingRequest. rewrite Hpending, Hres. split; reflexivity.
Defined.

(** X7. A message in the shape of a result settles the invocation of the
    process it comes from, whatever [id] the message carries: the promise
    is resolved with the [result] of the message and the callbacks of
    [doDispatch] run under the id the request was dispatched with.  The
    process is left as it was, running and tracked by its supervisor. *)
Theorem accepted_result_is_delivered `{NodeHost} (pid : nat) (p : Proc)
        (msg : JsValue) (σ : World) :
  procStore σ !! pid = Some p ->
  ready p = Pending ->
  messageOnce p = true ->
  wireResultShape msg = true ->
  exists σ1,
    procEvent pid (Message msg) σ
    = deliver (corrId p) (Resolved (Js.Reflect_get msg "result")) σ1 /\
    readyOf σ1 pid = Resolved (Js.Reflect_get msg "result") /\
    running <$> procStore σ1 !! pid = Some (running p) /\
    (forall w, procs <$> workerStore σ1 !! w = procs <$> workerStore σ !! w) /\
    pendingRequests σ1 = pendingRequests σ /\
    resStore σ1 = resStore σ.
Proof.
  intros Hp Hready Harmed Hshape. unfold procEvent. rewrite Hp, Hready.
  cbn [listener]. rewrite Harmed.
  rewrite (onMessage_accepts (owner p) pid msg _ Hshape).
  set (σ1 := accepted (owner p) pid msg _).
  assert (Hσ1 : procStore σ1 !! pid
                = Some (kill 0 (settle (Resolved (Js.Reflect_get msg "result"))
                                       (disarm (Message msg) p)))).
  { subst σ1. unfold accepted. destruct σ; cbn in *.
    rewrite !list_lookup_alter_eq, Hp. reflexivity. }
  assert (Hsettled : readyOf σ1 pid = Resolved (Js.Reflect_get msg "result")).
  { unfold readyOf. rewrite Hσ1, kill_zero.
    apply ready_settle_pending. rewrite ready_disarm. exact Hready. }
  rewrite Hsettled. exists σ1. split; [reflexivity |]. split; [exact Hsettled |].
  split.
  { rewrite Hσ1, kill_zero. unfold settle. rewrite ready_disarm, Hready. reflexivity. }
  split.
  { intros w. subst σ1. unfold accepted.
    cbn [workerStore set_procStore set_workerStore].
    rewrite list_lookup_alter. destruct (decide (owner p = w)) as [<-|Hne]; [| reflexivity].
    destruct (workerStore σ !! owner p); reflexivity. }
  subst σ1. unfold accepted. destruct σ; split; reflexivity.
Qed.

(** The worker of the request [r1] answers under another id. *)
Lemma accepted_result_is_delivered_witness :
  exists σ1,
    @procEvent PlainHost 0
       (Message (JObj [("message", JStr "result"); ("id", JStr "another");
                       ("result", helloResult)]))
       helloRequest
    = @deliver PlainHost "r1" (Resolved helloResult) σ1 /\
    readyOf σ1 0 = Resolved helloResult /\
    running <$> procStore σ1 !! 0%nat = Some true /\
    procs <$> workerStore σ1 !! 1%nat = Some [0%nat].
Proof.
  edestruct (@accepted_result_is_delivered PlainHost 0 helloProc
               (JObj [("message", JStr "result"); ("id", JStr "another");
                      ("result", helloResult)])
               helloRequest)
    as (σ1 & Hrun & Hready & Hrunning & Htracked & _);
    [reflexivity | reflexivity | reflexivity | reflexivity |].
  exists σ1. split; [exact Hrun |]. split; [exact Hready |].
  split; [exact Hrunning |]. rewrite Htracked. reflexivity.
Defined.

(** X8. A settled invocation stays as it is: a later chunk, error, message
    or exit of its process (a message that is still listened to having the
    shape of a result, an exit that is still listened to reporting code 0 or
    finding a captured chunk) changes neither the settlement nor the pending
    map nor any response, and delivers nothing again. *)
Theorem settled_invocation_ignores_events `{NodeHost} (pid : nat) (p : Proc)
        (ev : ProcEvent) (σ : World) :
  procStore σ !! pid = Some p ->
  ready p <> Pending ->
  harmlessWhenSettled p ev = true ->
  exists σ',
    procEvent pid ev σ = (Ok tt, σ') /\
    readyOf σ' pid = ready p /\
    pendingRequests σ' = pendingRequests σ /\
    resStore σ' = resStore σ.
Proof.
  intros Hp Hsettled Hharmless. unfold procEvent. rewrite Hp.
  assert (Hkeep : forall τ (q : Proc),
             procStore τ !! pid = Some q -> ready q = ready p ->
             pendingRequests τ = pendingRequests σ -> resStore τ = resStore σ ->
             exists σ',
               (match ready p with
                | Pending => deliver (corrId p) (readyOf τ pid) τ
                | _ => (Ok tt, τ)
                end) = (Ok tt, σ') /\
               readyOf σ' pid = ready p /\
               pendingRequests σ' = pendingRequests σ /\
               resStore σ' = resStore σ).
  { intros τ q Hq Hrq Hpend Hres. exists τ.
    split; [destruct (ready p); [contradiction | reflexivity | reflexivity] |].
    unfold readyOf. rewrite Hq. auto. }
  set (σ1 := set_procStore (alter (disarm ev) pid) σ).
  assert (Hσ1 : procStore σ1 !! pid = Some (disarm ev p)).
  { subst σ1. destruct σ; cbn in *. rewrite list_lookup_alter_eq, Hp. reflexivity. }
  assert (Hpend1 : pendingRequests σ1 = pendingRequests σ) by (destruct σ; reflexivity).
  assert (Hres1 : resStore σ1 = resStore σ) by (destruct σ; reflexivity).
  assert (Hsame : forall s, settle s (disarm ev p) = disarm ev p).
  { intros s. apply settle_settled. rewrite ready_disarm. exact Hsettled. }
  destruct ev as [chunk|msg|code|err]; cbn [listener harmlessWhenSettled] in *.
  - apply (Hkeep σ1 _ Hσ1); [apply ready_disarm | assumption | assumption].
  - destruct (messageOnce p); cbn [negb orb] in Hharmless.
    + rewrite (onMessage_accepts (owner p) pid msg σ1 Hharmless).
      eapply (Hkeep (accepted (owner p) pid msg σ1)).
      * unfold accepted. cbn [procStore set_procStore set_workerStore].
        rewrite !list_lookup_alter_eq, Hσ1. reflexivity.
      * rewrite kill_zero, Hsame. apply ready_disarm.
      * unfold accepted. cbn [pendingRequests set_procStore set_workerStore].
        exact Hpend1.
      * unfold accepted. cbn [resStore set_procStore set_workerStore]. exact Hres1.
    + apply (Hkeep σ1 _ Hσ1); [apply ready_disarm | assumption | assumption].
  - destruct (exitOnce p); cbn [negb orb] in Hharmless;
      [| apply (Hkeep σ1 _ Hσ1); [apply ready_disarm | assumption | assumption]].
    unfold onExit.
    destruct (match code with Some 0%Z => false | _ => true end) eqn:Hcode;
      [| apply (Hkeep σ1 _ Hσ1); [apply ready_disarm | assumption | assumption]].
    assert (Hcaptured : exists text, error p = Some text).
    { destruct code as [[|c|c]|]; try discriminate;
        cbn [orb] in Hharmless; destruct (error p) as [text|];
        try discriminate; exists text; reflexivity. }
    destruct Hcaptured as [text Htext]. rewrite Htext.
    unfold mbind, SE_bind, modify.
    eapply Hkeep.
    + cbn [procStore set_procStore set_workerStore].
      rewrite list_lookup_alter_eq, Hσ1. reflexivity.
    + rewrite Hsame. apply ready_disarm.
    + cbn [pendingRequests set_procStore set_workerStore]. exact Hpend1.
    + cbn [resStore set_procStore set_workerStore]. exact Hres1.
  - unfold modify. eapply Hkeep.
    + cbn [procStore set_procStore]. rewrite list_lookup_alter_eq, Hσ1. reflexivity.
    + rewrite Hsame. apply ready_disarm.
    + cbn [pendingRequests set_procStore]. exact Hpend1.
    + cbn [resStore set_procStore]. exact Hres1.
Qed.

(** After the answer to [r1], the worker sends a second, malformed message. *)
Lemma settled_invocation_ignores_events_witness :
  exists σ',
    @procEvent PlainHost 0 (Message JNull) helloAnswered = (Ok tt, σ') /\
    readyOf σ' 0 = Resolved helloResult /\
    resStore σ' = resStore helloAnswered.
Proof.
  edestruct (@settled_invocation_ignores_events PlainHost 0 helloProcAnswered
               (Message JNull) helloAnswered)
    as (σ' & Hrun & Hready & _ & Hres);
    [reflexivity | discriminate | reflexivity |].
  exists σ'. split; [exact Hrun |]. split; [exact Hready | exact Hres].
Defined.

(** ** Spawn per invocation *)

Lemma dispatch_hit `{NodeHost} (id : string) (eventObject p : JsValue)
      (pathname : string) (f : FunctionInfo) (w : nat) (wk : ChildProcessWorker)
      (σ : World) :
  Js.getProp eventObject "path" = Ok p ->
  url_pathname (Js.toString p) = Some pathname ->
  matchRoute (functionTable σ) pathname = Some f ->
  worker f = Some w ->
  workerStore σ !! w = Some wk ->
  dispatch id eventObject σ
  = (Awaiting (List.length (procStore σ)), spawned w wk id eventObject σ).
Proof.
  intros Hpath Hurl Hmatch Hworker Hwk. unfold dispatch, request.
  rewrite Hpath, Hurl, Hmatch, Hworker, Hwk. reflexivity.
Qed.

(** X9. No process is reused: two requests dispatched to the same function
    spawn two processes, each started on the worker script with the entry
    and the handler of the function and given its own event message; both
    are running, both invocations are pending, and the supervisor tracks
    both, in the order of the requests. *)
Theorem dispatch_spawns_a_process_per_request `{NodeHost}
        (id1 id2 : string) (ev1 ev2 p1 p2 : JsValue) (path1 path2 : string)
        (f : FunctionInfo) (w : nat) (wk : ChildProcessWorker) (σ : World) :
  Js.getProp ev1 "path" = Ok p1 ->
  url_pathname (Js.toString p1) = Some path1 ->
  Js.getProp ev2 "path" = Ok p2 ->
  url_pathname (Js.toString p2) = Some path2 ->
  matchRoute (functionTable σ) path1 = Some f ->
  matchRoute (functionTable σ) path2 = Some f ->
  worker f = Some w ->
  workerStore σ !! w = Some wk ->
  exists σ1 σ2,
    dispatch id1 ev1 σ = (Awaiting (List.length (procStore σ)), σ1) /\
    dispatch id2 ev2 σ1 = (Awaiting (S (List.length (procStore σ))), σ2) /\
    procStore σ2
    = (procStore σ ++ [spawnedProc w wk id1 ev1; spawnedProc w wk id2 ev2])%list /\
    procs <$> workerStore σ2 !! w
    = Some (procs wk ++ [List.length (procStore σ); S (List.length (procStore σ))])%list.
Proof.
  intros Hp1 Hu1 Hp2 Hu2 Hm1 Hm2 Hworker Hwk.
  assert (Hw : (w < List.length (workerStore σ))%nat).
  { eapply lookup_lt_Some. exact Hwk. }
  set (wk1 := mkWorker (procs wk ++ [List.length (procStore σ)])%list (Some id1)
                       (options wk) (stdout wk ++ [LogStart id1])%list).
  exists (spawned w wk id1 ev1 σ), (spawned w wk1 id2 ev2 (spawned w wk id1 ev1 σ)).
  split; [apply (dispatch_hit id1 ev1 p1 path1 f w wk σ); assumption |].
  assert (Hlen : List.length (procStore (spawned w wk id1 ev1 σ))
                 = S (List.length (procStore σ))).
  { unfold spawned. cbn [procStore set_procStore set_workerStore].
    rewrite length_app. cbn. lia. }
  split.
  - rewrite <- Hlen.
    apply (dispatch_hit id2 ev2 p2 path2 f w wk1); try assumption.
    unfold spawned. cbn [workerStore set_procStore set_workerStore].
    apply list_lookup_insert_eq. exact Hw.
  - unfold spawned at 1 3. cbn [procStore workerStore set_procStore set_workerStore].
    rewrite Hlen. split.
    + unfold spawned. cbn [procStore set_procStore set_workerStore].
      rewrite <- app_assoc. reflexivity.
    + rewrite list_lookup_insert_eq.
      * cbn. rewrite <- app_assoc. reflexivity.
      * unfold spawned. cbn [workerStore set_procStore set_workerStore].
        rewrite length_insert. exact Hw.
Qed.

(** [GET /hello] twice on the gateway of the single route. *)
Lemma dispatch_spawns_a_process_per_request_witness :
  exists σ1 σ2,
    @dispatch PlainHost "r1" (JObj [("path", JStr "/hello")]) helloGateway
    = (Awaiting 0, σ1) /\
    @dispatch PlainHost "r2" (JObj [("path", JStr "/hello?again")]) σ1
    = (Awaiting 1, σ2) /\
    procs <$> workerStore σ2 !! 1%nat = Some [0; 1]%nat /\
    List.map running (procStore σ2) = [true; true].
Proof.
  edestruct (@dispatch_spawns_a_process_per_request PlainHost "r1" "r2"
               (JObj [("path", JStr "/hello")]) (JObj [("path", JStr "/hello?again")])
               (JStr "/hello") (JStr "/hello?again") "/hello" "/hello"
               (mkFunctionInfo "/hello" "hello.js" None (Some 1%nat)) 1%nat
               (mkWorker [] None (mkWorkerOptions "nodejs:12.x" "hello.js" None) [])
               helloGateway)
    as (σ1 & σ2 & Hfirst & Hsecond & Hprocs & Htracked); try reflexivity.
  exists σ1, σ2. split; [exact Hfirst |]. split; [exact Hsecond |].
  split; [exact Htracked |]. rewrite Hprocs. reflexivity.
Defined.

(** ** Shutdown and restart *)

Lemma workerClose_state (w : nat) (wk : ChildProcessWorker) (σ : World) :
  workerStore σ !! w = Some wk ->
  exists σ',
    workerClose w σ = (Ok tt, σ') /\
    workerStore σ'
    = alter (fun wk => mkWorker [] (latestId wk) (options wk) (stdout wk)) w (workerStore σ) /\
    serverStore σ' = serverStore σ /\
    httpServer σ' = httpServer σ /\
    httpsServer σ' = httpsServer σ.
Proof.
  intros Hwk. unfold workerClose. rewrite Hwk.
  eexists. split; [reflexivity |].
  assert (Hsame : forall tracked τ,
    let τ' := List.fold_left (fun σ v => set_procStore (alter (kill 0) v) σ) tracked τ in
    workerStore τ' = workerStore τ /\ serverStore τ' = serverStore τ /\
    httpServer τ' = httpServer τ /\ httpsServer τ' = httpsServer τ).
  { induction tracked as [|v tracked IH]; intros τ; [repeat split |].
    cbn [List.fold_left]. destruct (IH (set_procStore (alter (kill 0) v) τ))
      as (Hw & Hs & Hh & Hhs).
    cbn zeta. rewrite Hw, Hs, Hh, Hhs. repeat split. }
  destruct (Hsame (procs wk) σ) as (Hw & Hs & Hh & Hhs).
  cbn [workerStore serverStore httpServer httpsServer set_workerStore].
  rewrite Hw, Hs, Hh, Hhs. repeat split.
Qed.

Lemma closeWorkers (table : list FunctionInfo) :
  forall σ,
    workersInPlace σ table ->
    exists σ',
      forEach table closeWorkerOf σ = (Ok tt, σ') /\
      List.length (workerStore σ') = List.length (workerStore σ) /\
      serverStore σ' = serverStore σ /\
      httpServer σ' = httpServer σ /\
      httpsServer σ' = httpsServer σ /\
      (forall w, cleared σ w -> cleared σ' w) /\
      Forall (fun f => forall w, worker f = Some w -> cleared σ' w) table.
Proof.
  induction table as [|f table IH]; intros σ Hplace.
  - exists σ. repeat split; auto.
  - inversion Hplace as [|? ? (w & Hworker & Hw) Hrest]; subst.
    destruct (lookup_lt_is_Some_2 _ _ Hw) as [wk Hwk].
    destruct (workerClose_state w wk σ Hwk) as (σ1 & Hrun1 & Hws1 & Hs1 & Hh1 & Hhs1).
    assert (Hlen1 : List.length (workerStore σ1) = List.length (workerStore σ)).
    { rewrite Hws1. apply length_alter. }
    assert (Hkeep1 : forall v, cleared σ v -> cleared σ1 v).
    { intros v Hv. unfold cleared in *. rewrite Hws1, list_lookup_alter.
      destruct (decide (w = v)) as [->|Hne]; [| exact Hv].
      rewrite Hwk. reflexivity. }
    assert (Hnow : cleared σ1 w).
    { unfold cleared. rewrite Hws1, list_lookup_alter_eq, Hwk. reflexivity. }
    destruct (IH σ1) as (σ' & Hrun & Hlen & Hs & Hh & Hhs & Hkeep & Hall).
    { unfold workersInPlace in *. rewrite Hlen1. exact Hrest. }
    exists σ'. cbn [forEach]. unfold mbind, SE_bind.
    unfold closeWorkerOf at 1. rewrite Hworker, Hrun1.
    split; [exact Hrun |]. split; [congruence |]. split; [congruence |].
    split; [congruence |]. split; [congruence |].
    split; [intros v Hv; apply Hkeep, Hkeep1, Hv |].
    constructor; [| exact Hall].
    intros v Hv. rewrite Hworker in Hv. injection Hv as <-. apply Hkeep, Hnow.
Qed.

Lemma close_unfold (σ : World) :
  close σ
  = (serverClose (httpServer σ);;
     serverClose (httpsServer σ);;
     forEach (functionTable σ) closeWorkerOf;;
     modify (set_httpServer None);;
     modify (set_httpsServer None)) σ.
Proof. reflexivity. Qed.

Lemma serverClose_state (s : option nat) (σ : World) :
  exists σ',
    serverClose s σ = (Ok tt, σ') /\
    serverStore σ'
    = match s with
      | Some r => <[r := mkServer false]> (serverStore σ)
      | None => serverStore σ
      end /\
    workerStore σ' = workerStore σ /\
    httpServer σ' = httpServer σ /\
    httpsServer σ' = httpsServer σ.
Proof. destruct s as [r|]; eexists; (split; [reflexivity |]); destruct σ; repeat split. Qed.

(** X10. What the call of [close()] does before it waits, when every
    function of the table has its worker: the HTTP and the HTTPS server stop
    listening and the supervisor of every function tracks no process any
    more, while the gateway still holds both servers, whether or not a
    connection is open.  The servers are dropped by the statement after the
    wait: [close] is these calls followed by [dropServers]. *)
Theorem close_call_clears_supervisors (σ : World) :
  workersInPlace σ (functionTable σ) ->
  exists σ',
    closeCalls σ = (Ok tt, σ') /\
    httpServer σ' = httpServer σ /\
    httpsServer σ' = httpsServer σ /\
    (forall s,
        httpServer σ = Some s \/ httpsServer σ = Some s ->
        (s < List.length (serverStore σ))%nat ->
        listening <$> serverStore σ' !! s = Some false) /\
    Forall (fun f => forall w, worker f = Some w -> cleared σ' w) (functionTable σ) /\
    close σ = dropServers σ'.
Proof.
  intros Hplace. rewrite close_unfold. unfold closeCalls, mbind, SE_bind.
  destruct (serverClose_state (httpServer σ) σ) as (σ1 & Hrun1 & Hs1 & Hw1 & Hh1 & Hhs1).
  rewrite Hrun1.
  destruct (serverClose_state (httpsServer σ) σ1) as (σ2 & Hrun2 & Hs2 & Hw2 & Hh2 & Hhs2).
  rewrite Hrun2.
  destruct (closeWorkers (functionTable σ) σ2)
    as (σ3 & Hrun3 & Hlen3 & Hs3 & Hh3 & Hhs3 & _ & Hall).
  { unfold workersInPlace in *. rewrite Hw2, Hw1. exact Hplace. }
  rewrite Hrun3.
  exists σ3. split; [reflexivity |].
  split; [congruence |]. split; [congruence |]. split; [| split; [exact Hall | reflexivity]].
  intros s Hs Hin. rewrite Hs3, Hs2, Hs1.
  destruct Hs as [Hs|Hs]; rewrite Hs.
  - destruct (httpsServer σ) as [t|].
    + destruct (decide (t = s)) as [->|Hne].
      * rewrite list_lookup_insert_eq by (rewrite length_insert; exact Hin).
        reflexivity.
      * rewrite list_lookup_insert_ne by exact Hne.
        rewrite list_lookup_insert_eq by exact Hin. reflexivity.
    + rewrite list_lookup_insert_eq by exact Hin. reflexivity.
  - destruct (httpServer σ) as [t|];
      rewrite list_lookup_insert_eq by (rewrite ?length_insert; exact Hin);
      reflexivity.
Qed.

(** The request [r1] is in flight when [close()] is called. *)
Lemma close_call_clears_supervisors_witness :
  exists σ',
    closeCalls helloRequest = (Ok tt, σ') /\
    httpServer σ' = Some 0%nat /\
    listening <$> serverStore σ' !! 0%nat = Some false /\
    cleared σ' 1.
Proof.
  assert (Htable : functionTable helloRequest
                   = [mkFunctionInfo "/hello" "hello.js" None (Some 1%nat);
                      mkFunctionInfo "/hello" "hello.js" None (Some 1%nat)])
    by reflexivity.
  destruct (close_call_clears_supervisors helloRequest)
    as (σ' & Hrun & Hhttp & _ & Hservers & Hall & _).
  { unfold workersInPlace. rewrite Htable.
    apply Forall_cons. split; [exists 1%nat; split; [reflexivity | apply Nat.ltb_lt; reflexivity] |].
    apply Forall_cons. split; [exists 1%nat; split; [reflexivity | apply Nat.ltb_lt; reflexivity] |].
    apply Forall_nil_2. }
  exists σ'. split; [exact Hrun |]. split; [rewrite Hhttp; reflexivity |]. split.
  - apply Hservers; [left; reflexivity | apply Nat.ltb_lt; reflexivity].
  - rewrite Htable in Hall. apply Forall_cons in Hall as [Hf _].
    apply Hf. reflexivity.
Defined.

Lemma close_forgets_servers (σ σ' : World) :
  close σ = (Ok tt, σ') -> httpServer σ' = None /\ httpsServer σ' = None.
Proof.
  rewrite close_unfold. unfold mbind, SE_bind, modify. intros Hrun.
  destruct (serverClose (httpServer σ) σ) as [[u1|e] σ1]; [| discriminate].
  destruct (serverClose (httpsServer σ) σ1) as [[u2|e] σ2]; [| discriminate].
  destruct (forEach (functionTable σ) closeWorkerOf σ2) as [[u3|e] σ3]; [| discriminate].
  injection Hrun as <-. split; reflexivity.
Qed.

(** X11. A closed gateway cannot be started again: once [close()] has
    completed, [bootstrap()] throws and so does [changePort(newPort)],
    both leaving the gateway as it is. *)
Theorem closed_gateway_cannot_restart (σ σ' : World) (newPort : Z) :
  close σ = (Ok tt, σ') ->
  bootstrap σ' = (Throw (Error_ "cannot bootstrap closed server"), σ') /\
  changePort newPort σ' = (Throw (Error_ "cannot bootstrap closed server"), σ').
Proof.
  intros Hclosed. apply close_forgets_servers in Hclosed as [Hhttp Hhttps].
  assert (Hboot : bootstrap σ' = (Throw (Error_ "cannot bootstrap closed server"), σ')).
  { unfold bootstrap. rewrite Hhttp. reflexivity. }
  split; [exact Hboot |].
  unfold changePort. rewrite Hhttp, Hhttps.
  unfold mbind, SE_bind, mret, SE_ret. exact Hboot.
Qed.

Lemma closed_gateway_cannot_restart_witness :
  bootstrap (run close helloGateway)
  = (Throw (Error_ "cannot bootstrap closed server"), run close helloGateway).
Proof.
  destruct (closed_gateway_cannot_restart helloGateway (run close helloGateway) 8080)
    as [Hboot _]; [reflexivity | exact Hboot].
Defined.



(** ** The guards of the request handler *)

Lemma refusalBody_not_empty (message : string) :
  String.eqb (refusalBody message) "" = false.
Proof. reflexivity. Qed.

Lemma set_resStore_twice (f g : list ServerResponse -> list ServerResponse) (σ : World) :
  set_resStore f (set_resStore g σ) = set_resStore (fun rs => f (g rs)) σ.
Proof. destruct σ; reflexivity. Qed.

Section Guards.
Context `{NodeHost}.
Variable url_parse : string -> Exc Url.

Lemma onResponse_at (r : nat) (m : SE ServerResponse unit) (σ : World)
      (response response' : ServerResponse) (out : Exc unit) :
  resStore σ !! r = Some response ->
  m response = (out, response') ->
  onResponse r m σ = (out, set_resStore (fun rs => <[r := response']> rs) σ).
Proof.
  intros Hres Hm. unfold onResponse. rewrite Hres, Hm. reflexivity.
Qed.

Lemma corsHeaders_finished (origin : option string) (response r1 : ServerResponse)
      (out : Exc unit) :
  corsHeaders origin response = (out, r1) -> finished r1 = finished response.
Proof.
  unfold corsHeaders, mbind, SE_bind. intros Hrun.
  repeat match type of Hrun with
         | context [setHeader ?n ?v ?r] =>
             let Hs := fresh "Hs" in
             destruct (setHeader n v r) as [[[]|?] ?] eqn:Hs;
             apply setHeader_finished in Hs
         end;
    injection Hrun as _ <-; congruence.
Qed.

Lemma afterCors_finished (settings : Settings) (req : IncomingMessage)
      (response r1 : ServerResponse) (out : Exc unit) :
  afterCors settings req response = (out, r1) -> finished r1 = finished response.
Proof.
  unfold afterCors. destruct (enableCors settings).
  - apply corsHeaders_finished.
  - intros Hrun. injection Hrun as _ <-. reflexivity.
Qed.

Lemma refuse_fresh (message : string) (r1 : ServerResponse) :
  finished r1 = false ->
  refuse message r1 = (Ok tt, refusedResponse message r1).
Proof.
  intros Hfresh. unfold refuse, mbind, SE_bind, setStatusCode, modify, end_.
  cbn [finished statusCode]. rewrite Hfresh.
  rewrite validStatusCode_range by lia. cbn [negb].
  change (JSON.stringify (JObj [("message", JStr message)]) 2)
    with (JStr (refusalBody message)).
  cbn [Js.truthy]. rewrite refusalBody_not_empty. reflexivity.
Qed.

(** The handler up to its guards: the CORS headers are set when CORS is
    enabled, and a request that is no preflight goes on with the parsed
    URL. *)
Lemma handler_after_cors (settings : Settings) (id : string) (req : IncomingMessage)
      (r : nat) (σ : World) (response r1 : ServerResponse) :
  resStore σ !! r = Some response ->
  afterCors settings req response = (Ok tt, r1) ->
  enableCors settings && isOptions req = false ->
  exists σ1,
    resStore σ1 !! r = Some r1 /\
    σ1 = (if enableCors settings
          then set_resStore (fun rs => <[r := r1]> rs) σ else σ) /\
    handleServerRequest url_parse settings id req r σ
    = (uriObj ← liftExc (url_parse (orElse (reqUrl req) "/"));
       refused ←
         (if negb (enableCors settings) && present (headerReferer req) then
            referer ← liftExc (url_parse (orElse (headerReferer req) ""));
            if negb (isLocalhost (urlHostname referer)) then
              onResponse r (refuse "expected request from localhost");; mret true
            else mret false
          else mret false);
       if (refused : bool) then mret tt
       else if present (headerHost req)
               && negb (String.eqb (hostName (orElse (headerHost req) "")) "localhost")
       then onResponse r (refuse "unexpected host header")
       else onEnd settings id req r (urlQuery uriObj)) σ1.
Proof.
  intros Hres Hcors Hnot.
  assert (Hin : (r < List.length (resStore σ))%nat).
  { eapply lookup_lt_Some. exact Hres. }
  unfold handleServerRequest. fold (isOptions req). rewrite Hnot.
  unfold afterCors in Hcors.
  destruct (enableCors settings) eqn:Hcorsflag.
  - eexists. split; [| split; [reflexivity |]].
    + cbn [resStore set_resStore]. apply list_lookup_insert_eq. exact Hin.
    + unfold mbind at 1, SE_bind at 1.
      rewrite (onResponse_at r _ σ response r1 (Ok tt) Hres Hcors). reflexivity.
  - injection Hcors as <-. exists σ. split; [exact Hres |]. split; reflexivity.
Qed.

End Guards.

Lemma insert_over (r : nat) (x y : ServerResponse) (flag : bool) (σ : World) :
  set_resStore (fun rs => <[r := x]> rs)
    (if flag then set_resStore (fun rs => <[r := y]> rs) σ else σ)
  = set_resStore (fun rs => <[r := x]> rs) σ.
Proof.
  destruct flag; [| reflexivity]. rewrite set_resStore_twice.
  unfold set_resStore. f_equal. apply list_insert_insert_eq.
Qed.

(** X13. The Host guard: a request that is no preflight, passes the
    Referer guard and names a host other than [localhost] before the first
    colon of its Host header is answered with status 403 and the document
    [{"message": "unexpected host header"}]; nothing but its response
    changes, so no event is built, no entry is recorded and no process is
    spawned. *)
Theorem foreign_host_is_refused `{NodeHost} (url_parse : string -> Exc Url)
        (settings : Settings) (id : string) (req : IncomingMessage) (r : nat)
        (σ : World) (response r1 : ServerResponse) (uriObj : Url) (host : string) :
  resStore σ !! r = Some response ->
  finished response = false ->
  afterCors settings req response = (Ok tt, r1) ->
  enableCors settings && isOptions req = false ->
  url_parse (orElse (reqUrl req) "/") = Ok uriObj ->
  refererPasses url_parse settings req ->
  headerHost req = Some host ->
  host <> "" ->
  hostName host <> "localhost" ->
  handleServerRequest url_parse settings id req r σ
  = (Ok tt,
     set_resStore (fun rs => <[r := refusedResponse "unexpected host header" r1]> rs) σ).
Proof.
  intros Hres Hfresh Hcors Hnot Hurl Hreferer Hhost Hnonempty Hforeign.
  destruct (handler_after_cors url_parse settings id req r σ response r1 Hres Hcors Hnot)
    as (σ1 & Hres1 & Hσ1 & ->).
  assert (Hfresh1 : finished r1 = false).
  { rewrite (afterCors_finished _ _ _ _ _ Hcors). exact Hfresh. }
  unfold mbind at 1, SE_bind at 1, liftExc at 1. rewrite Hurl.
  assert (Hpassed :
    (if negb (enableCors settings) && present (headerReferer req) then
       referer ← liftExc (url_parse (orElse (headerReferer req) ""));
       if negb (isLocalhost (urlHostname referer)) then
         onResponse r (refuse "expected request from localhost");; mret true
       else mret false
     else mret false) σ1 = (Ok false, σ1)).
  { destruct Hreferer as [Hoff|(referer & Hparse & Hlocal)].
    - rewrite Hoff. reflexivity.
    - destruct (negb (enableCors settings) && present (headerReferer req));
        [| reflexivity].
      unfold mbind, SE_bind, liftExc. rewrite Hparse, Hlocal. reflexivity. }
  unfold mbind at 1, SE_bind at 1. rewrite Hpassed.
  assert (Hguard : present (headerHost req)
                   && negb (String.eqb (hostName (orElse (headerHost req) "")) "localhost")
                   = true).
  { rewrite Hhost. unfold present, orElse.
    apply String.eqb_neq in Hnonempty. rewrite Hnonempty.
    apply String.eqb_neq in Hforeign. rewrite Hforeign. reflexivity. }
  rewrite Hguard.
  rewrite (onResponse_at r _ σ1 r1 _ (Ok tt) Hres1 (refuse_fresh _ r1 Hfresh1)).
  rewrite Hσ1, insert_over. reflexivity.
Qed.

(** A request for [evil.com] on the gateway of the single route. *)
Lemma foreign_host_is_refused_witness :
  @handleServerRequest PlainHost examplesParse plainSettings "r1"
     (mkIncomingMessage (Some "GET") (Some "/hello") None None (Some "evil.com")
                        ["Host"; "evil.com"] [])
     0 (run newResponse helloGateway)
  = (Ok tt,
     set_resStore
       (fun rs => <[0%nat := refusedResponse "unexpected host header" freshResponse]> rs)
       (run newResponse helloGateway)).
Proof.
  apply (@foreign_host_is_refused PlainHost examplesParse plainSettings "r1"
           (mkIncomingMessage (Some "GET") (Some "/hello") None None (Some "evil.com")
                              ["Host"; "evil.com"] [])
           0 (run newResponse helloGateway) freshResponse freshResponse
           (mkUrl [] None) "evil.com");
    try reflexivity; try discriminate.
  left. reflexivity.
Defined.

(** X14. The Referer guard: with CORS disabled, a request whose Referer
    names a host other than [localhost] is answered with status 403 and the
    document [{"message": "expected request from localhost"}], whatever its
    Host header; nothing but its response changes. *)
Theorem foreign_referer_is_refused `{NodeHost} (url_parse : string -> Exc Url)
        (settings : Settings) (id : string) (req : IncomingMessage) (r : nat)
        (σ : World) (response : ServerResponse) (uriObj referer : Url) :
  resStore σ !! r = Some response ->
  finished response = false ->
  enableCors settings = false ->
  url_parse (orElse (reqUrl req) "/") = Ok uriObj ->
  present (headerReferer req) = true ->
  url_parse (orElse (headerReferer req) "") = Ok referer ->
  isLocalhost (urlHostname referer) = false ->
  handleServerRequest url_parse settings id req r σ
  = (Ok tt,
     set_resStore
       (fun rs => <[r := refusedResponse "expected request from localhost" response]> rs)
       σ).
Proof.
  intros Hres Hfresh Hoff Hurl Hpresent Hparse Hforeign.
  unfold handleServerRequest. rewrite Hoff. cbn [andb negb].
  unfold mbind, SE_bind, liftExc, mret, SE_ret.
  rewrite Hurl, Hpresent, Hparse, Hforeign. cbn [negb].
  rewrite (onResponse_at r _ σ response _ (Ok tt) Hres (refuse_fresh _ response Hfresh)).
  reflexivity.
Qed.

Lemma foreign_referer_is_refused_witness :
  @handleServerRequest PlainHost examplesParse plainSettings "r1"
     (mkIncomingMessage (Some "GET") (Some "/hello") None
                        (Some "http://evil.com/page") (Some "localhost:3000")
                        ["Referer"; "http://evil.com/page"; "Host"; "localhost:3000"] [])
     0 (run newResponse helloGateway)
  = (Ok tt,
     set_resStore
       (fun rs => <[0%nat := refusedResponse "expected request from localhost"
                                              freshResponse]> rs)
       (run newResponse helloGateway)).
Proof.
  apply (@foreign_referer_is_refused PlainHost examplesParse plainSettings "r1"
           (mkIncomingMessage (Some "GET") (Some "/hello") None
                              (Some "http://evil.com/page") (Some "localhost:3000")
                              ["Referer"; "http://evil.com/page"; "Host"; "localhost:3000"] [])
           0 (run newResponse helloGateway) freshResponse
           (mkUrl [] None) (mkUrl [] (Some "evil.com")));
    reflexivity.
Defined.

(** X15. A preflight request is answered before any guard: with CORS
    enabled, an [OPTIONS] request whose CORS headers the host accepts gets
    those headers and an ended response with the status and body it had,
    whatever its Host and Referer headers and without its URL being parsed;
    nothing but its response changes. *)
Theorem preflight_is_answered_unguarded `{NodeHost} (url_parse : string -> Exc Url)
        (settings : Settings) (id : string) (req : IncomingMessage) (r : nat)
        (σ : World) (response r1 : ServerResponse) :
  resStore σ !! r = Some response ->
  finished response = false ->
  validStatusCode (statusCode response) = true ->
  enableCors settings = true ->
  reqMethod req = Some "OPTIONS" ->
  corsHeaders (headerOrigin req) response = (Ok tt, r1) ->
  handleServerRequest url_parse settings id req r σ
  = (Ok tt, set_resStore (fun rs => <[r := endedResponse r1]> rs) σ) /\
  statusCode r1 = statusCode response /\
  resBody r1 = resBody response /\
  Js.obj_get (resHeaders r1) "access-control-allow-origin"
  = JStr (orElse (headerOrigin req) "*").
Proof.
  intros Hres Hfresh Hvalid Hon Hmethod Hcors.
  assert (Hin : (r < List.length (resStore σ))%nat).
  { eapply lookup_lt_Some. exact Hres. }
  assert (Hfresh1 : finished r1 = false).
  { rewrite (corsHeaders_finished _ _ _ _ Hcors). exact Hfresh. }
  assert (Hkept : statusCode r1 = statusCode response /\ resBody r1 = resBody response /\
                  Js.obj_get (resHeaders r1) "access-control-allow-origin"
                  = JStr (orElse (headerOrigin req) "*")).
  { unfold corsHeaders, mbind, SE_bind in Hcors.
    repeat match type of Hcors with
           | context [setHeader ?n ?v ?x] =>
               let Hs := fresh "Hs" in
               destruct (setHeader n v x) as [[[]|?] ?] eqn:Hs; [| discriminate];
               pose proof (setHeader_keeps _ _ _ _ _ Hs) as [? ?];
               apply setHeader_headers in Hs
           end.
    injection Hcors as <-.
    split; [congruence |]. split; [congruence |].
    repeat match goal with
           | Hh : resHeaders _ = Js.obj_put _ _ _ |- _ => rewrite Hh; clear Hh
           end.
    rewrite !obj_get_put. reflexivity. }
  split; [| exact Hkept].
  destruct Hkept as (Hstatus & _ & _).
  unfold handleServerRequest. rewrite Hon, Hmethod, String.eqb_refl. cbn [andb].
  unfold mbind, SE_bind.
  rewrite (onResponse_at r _ σ response r1 (Ok tt) Hres Hcors).
  assert (Hend : end_ JUndefined r1 = (Ok tt, endedResponse r1)).
  { rewrite <- Hstatus in Hvalid. unfold end_. rewrite Hfresh1, Hvalid. reflexivity. }
  erewrite onResponse_at;
    [| cbn [resStore set_resStore]; apply list_lookup_insert_eq; exact Hin
     | exact Hend].
  rewrite set_resStore_twice. unfold set_resStore. do 2 f_equal.
  apply list_insert_insert_eq.
Qed.

(** A preflight request that names a foreign host and a foreign page. *)
Lemma preflight_is_answered_unguarded_witness :
  exists r1,
    @handleServerRequest PlainHost examplesParse corsSettings "r1"
       (mkIncomingMessage (Some "OPTIONS") (Some "/hello") (Some "http://evil.com")
                          (Some "http://evil.com/page") (Some "evil.com") [] [])
       0 (run newResponse helloGateway)
    = (Ok tt,
       set_resStore (fun rs => <[0%nat := endedResponse r1]> rs)
                    (run newResponse helloGateway)) /\
    Js.obj_get (resHeaders r1) "access-control-allow-origin" = JStr "http://evil.com".
Proof.
  eexists.
  edestruct (@preflight_is_answered_unguarded PlainHost examplesParse corsSettings "r1"
               (mkIncomingMessage (Some "OPTIONS") (Some "/hello") (Some "http://evil.com")
                                  (Some "http://evil.com/page") (Some "evil.com") [] [])
               0 (run newResponse helloGateway) freshResponse)
    as (Hrun & _ & _ & Horigin);
    [reflexivity | reflexivity | reflexivity | reflexivity | reflexivity
     | reflexivity |].
  split; [exact Hrun | exact Horigin].
Defined.

(** ** The captured chunk *)

Lemma stderr_event `{NodeHost} (pid : nat) (p : Proc) (chunk : string) (σ : World) :
  procStore σ !! pid = Some p ->
  procEvent pid (StderrData chunk) σ
  = (Ok tt, set_procStore (alter (disarm (StderrData chunk)) pid) σ).
Proof.
  intros Hp. unfold procEvent. rewrite Hp. cbn [listener]. unfold mret, SE_ret.
  destruct (ready p) eqn:Hready; try reflexivity.
  unfold readyOf. cbn [procStore set_procStore].
  rewrite list_lookup_alter_eq, Hp. cbn [fmap option_fmap option_map].
  rewrite ready_disarm, Hready. reflexivity.
Qed.

Lemma stderr_events_keep `{NodeHost} (pid : nat) (later : list string) :
  forall (p : Proc) (σ : World),
    procStore σ !! pid = Some p ->
    stderrOnce p = false ->
    exists σ',
      procEvents pid (List.map StderrData later) σ = (Ok tt, σ') /\
      procStore σ' !! pid = Some p /\
      pendingRequests σ' = pendingRequests σ /\
      resStore σ' = resStore σ.
Proof.
  induction later as [|chunk later IH]; intros p σ Hp Hoff.
  - exists σ. repeat split. exact Hp.
  - unfold procEvents. cbn [List.map forEach]. unfold mbind, SE_bind.
    rewrite (stderr_event pid p chunk σ Hp).
    destruct (IH p (set_procStore (alter (disarm (StderrData chunk)) pid) σ))
      as (σ' & Hrun & Hp' & Hpend & Hres).
    + cbn [procStore set_procStore]. rewrite list_lookup_alter_eq, Hp.
      cbn. rewrite Hoff. reflexivity.
    + exact Hoff.
    + exists σ'. split; [exact Hrun |]. split; [exact Hp' |].
      split; [rewrite Hpend | rewrite Hres]; destruct σ; reflexivity.
Qed.

(** X16. Only the first chunk of the error stream is kept: whatever the
    process writes afterwards, the captured text stays the first chunk, and
    no chunk touches the pending map or a response. *)
Theorem only_first_stderr_chunk_is_kept `{NodeHost} (pid : nat) (p : Proc)
        (first : string) (later : list string) (σ : World) :
  procStore σ !! pid = Some p ->
  stderrOnce p = true ->
  exists σ',
    procEvents pid (List.map StderrData (first :: later)) σ = (Ok tt, σ') /\
    error <$> procStore σ' !! pid = Some (Some first) /\
    pendingRequests σ' = pendingRequests σ /\
    resStore σ' = resStore σ.
Proof.
  intros Hp Harmed. unfold procEvents. cbn [List.map forEach].
  unfold mbind, SE_bind. rewrite (stderr_event pid p first σ Hp).
  destruct (stderr_events_keep pid later (disarm (StderrData first) p)
              (set_procStore (alter (disarm (StderrData first)) pid) σ))
    as (σ' & Hrun & Hp' & Hpend & Hres).
  - cbn [procStore set_procStore]. rewrite list_lookup_alter_eq, Hp. reflexivity.
  - cbn. rewrite Harmed. reflexivity.
  - exists σ'. split; [exact Hrun |]. split.
    + rewrite Hp'. cbn. rewrite Harmed. reflexivity.
    + split; [rewrite Hpend | rewrite Hres]; destruct σ; reflexivity.
Qed.

Lemma only_first_stderr_chunk_is_kept_witness :
  exists σ',
    @procEvents PlainHost 0 [StderrData "boom"; StderrData "more"; StderrData "still more"]
                helloRequest = (Ok tt, σ') /\
    error <$> procStore σ' !! 0%nat = Some (Some "boom").
Proof.
  destruct (@only_first_stderr_chunk_is_kept PlainHost 0 helloProc "boom"
              ["more"; "still more"] helloRequest)
    as (σ' & Hrun & Hkept & _); [reflexivity | reflexivity |].
  exists σ'. split; [exact Hrun | exact Hkept].
Defined.

(** ** The stack lines *)

Lemma split_not_nil (c : ascii) (s : string) : JsString.split c s <> [].
Proof.
  destruct s as [|d s]; cbn; [discriminate |].
  destruct (Ascii.eqb d c); [discriminate |].
  destruct (JsString.split c s); discriminate.
Qed.

(** X17. The stack lines of a crash lose nothing of the captured chunk:
    [text.split(newline)] is never empty, none of its lines holds a
    newline, and the lines joined by newlines are the text again. *)
Theorem stack_lines_round_trip (c : ascii) (text : string) :
  JsString.split c text <> [] /\
  Forall (fun line => occursIn c line = false) (JsString.split c text) /\
  joinLines c (JsString.split c text) = text.
Proof.
  split; [apply split_not_nil |].
  induction text as [|d text [IHlines IHjoin]]; cbn [JsString.split].
  - split; [repeat constructor | reflexivity].
  - destruct (Ascii.eqb d c) eqn:Hd.
    + apply Ascii.eqb_eq in Hd as ->. split.
      * apply Forall_cons. split; [reflexivity | exact IHlines].
      * pose proof (split_not_nil c text) as Hne.
        cbn [joinLines]. destruct (JsString.split c text) as [|l ls]; [contradiction |].
        rewrite IHjoin. reflexivity.
    + pose proof (split_not_nil c text) as Hne.
      destruct (JsString.split c text) as [|l ls]; [contradiction |].
      apply Forall_cons in IHlines as [Hl Hls]. split.
      * apply Forall_cons. split; [cbn; rewrite Hd, Hl; reflexivity | exact Hls].
      * rewrite <- IHjoin. cbn [joinLines]. destruct ls; reflexivity.
Qed.

(** ** The keys of the query forms *)

Lemma obj_has_set (out : Props) (key k : string) (v : JsValue) :
  Js.obj_has (Js.obj_set out key v) k
  = if String.eqb key "__proto__" then Js.obj_has out k
    else String.eqb key k || Js.obj_has out k.
Proof.
  unfold Js.obj_set. destruct (String.eqb key "__proto__"); [reflexivity |].
  apply obj_has_put.
Qed.

Lemma assignAll_has (conv : QsValue -> JsValue) (qs : Query) (keys : list string) :
  forall (out : Props) (k : string),
    Js.obj_has (assignAll conv qs keys out) k
    = Js.obj_has out k
      || (negb (String.eqb k "__proto__")
          && List.existsb (String.eqb k) keys
          && match qs_get qs k with Some _ => true | None => false end).
Proof.
  unfold assignAll.
  induction keys as [|key keys IH]; intros out k; cbn [List.fold_left List.existsb].
  - rewrite andb_false_r, orb_false_r. reflexivity.
  - rewrite IH.
    destruct (String.eqb_spec k key) as [<-|Hne].
    + destruct (qs_get qs k) as [v|].
      * rewrite obj_has_set, String.eqb_refl.
        destruct (String.eqb k "__proto__"), (Js.obj_has out k),
          (List.existsb (String.eqb k) keys); reflexivity.
      * rewrite !andb_false_r. reflexivity.
    + assert (Hsame :
        Js.obj_has (match qs_get qs key with
                    | Some v => Js.obj_set out key (conv v)
                    | None => out
                    end) k = Js.obj_has out k).
      { destruct (qs_get qs key) as [v|]; [| reflexivity].
        rewrite obj_has_set. destruct (String.eqb key "__proto__"); [reflexivity |].
        destruct (String.eqb_spec key k); [congruence | reflexivity]. }
      rewrite Hsame. reflexivity.
Qed.

Lemma valuesOf_nil (k : string) (pairs : list (string * string)) :
  valuesOf k pairs = [] <-> ~ In k (List.map fst pairs).
Proof.
  unfold valuesOf. induction pairs as [|[name v] pairs IH]; cbn.
  - split; [intros _ [] | reflexivity].
  - destruct (String.eqb_spec name k) as [->|Hne]; cbn.
    + split; [discriminate | intros Hout; exfalso; apply Hout; left; reflexivity].
    + rewrite IH. split.
      * intros Hout [Heq|Hin]; [congruence | contradiction].
      * intros Hout Hin. apply Hout. right. exact Hin.
Qed.

Lemma query_key_stored (pairs : list (string * string)) (k : string) :
  match qs_get (querystring_parse pairs) k with Some _ => true | None => false end = true
  <-> In k (List.map fst pairs).
Proof.
  rewrite querystring_parse_get.
  pose proof (valuesOf_nil k pairs) as Hnil.
  destruct (valuesOf k pairs) as [|a [|b l]]; cbn [stored].
  - split; [discriminate |]. intros Hin. exfalso. apply Hnil; [reflexivity | exact Hin].
  - split; [| reflexivity]. intros _.
    destruct (List.in_dec String.string_dec k (List.map fst pairs)) as [Hin|Hout];
      [exact Hin |]. apply Hnil in Hout. discriminate.
  - split; [| reflexivity]. intros _.
    destruct (List.in_dec String.string_dec k (List.map fst pairs)) as [Hin|Hout];
      [exact Hin |]. apply Hnil in Hout. discriminate.
Qed.

Lemma assignAll_keys (conv : QsValue -> JsValue) (pairs : list (string * string))
      (k : string) :
  Js.obj_has (assignAll conv (querystring_parse pairs)
                        (List.map fst (querystring_parse pairs)) []) k = true
  <-> k <> "__proto__" /\ In k (List.map fst pairs).
Proof.
  rewrite assignAll_has, keys_of_query. cbn [Js.obj_has orb].
  rewrite <- query_key_stored.
  destruct (String.eqb_spec k "__proto__") as [->|Hne]; cbn [negb andb].
  - split; [discriminate | intros [Hne _]; congruence].
  - destruct (qs_get (querystring_parse pairs) k); cbn.
    + split; auto.
    + split; [discriminate | intros [_ Hno]; discriminate].
Qed.

(** X18. Neither form of the query loses or invents a key, except one: both
    [singleValueQueryString] and [multiValueObject] hold exactly the keys of
    the query string other than [__proto__], which is never stored. *)
Theorem query_forms_keep_the_keys (pairs : list (string * string)) (k : string) :
  (Js.obj_has (singleValueQueryString (querystring_parse pairs)) k = true
   <-> k <> "__proto__" /\ In k (List.map fst pairs)) /\
  (Js.obj_has (multiValueObject (querystring_parse pairs)) k = true
   <-> k <> "__proto__" /\ In k (List.map fst pairs)).
Proof.
  split.
  - apply (assignAll_keys (fun v => match v with
                                    | QStr text => JStr text
                                    | QArr values => lastOf values
                                    end)).
  - assert (Hloop :
      multiValueObject (querystring_parse pairs)
      = assignAll (fun v => match v with
                            | QStr text => JArr [JStr text]
                            | QArr values => JArr (List.map JStr values)
                            end)
                  (querystring_parse pairs)
                  (List.map fst (querystring_parse pairs)) []).
    { unfold multiValueObject, assignAll. apply fold_left_pointwise.
      intros out key. destruct (qs_get (querystring_parse pairs) key) as [[text|values]|];
        reflexivity. }
    rewrite Hloop. apply assignAll_keys.
Qed.

(** X4. A crash that wrote to the error stream is answered: when the
    process of a pending request gives a first chunk and then exits with a
    code other than 0 (or is ended by a signal), the request is answered
    with status 500 and the document that holds the message
    [Internal Server Error] and the lines of that chunk, and its pending
    entry is removed. *)
Theorem crash_after_stderr_is_answered `{NodeHost} (pid : nat) (p : Proc)
        (text : string) (code : option Z) (entry : PendingEntry)
        (response : ServerResponse) (σ : World) :
  procStore σ !! pid = Some p ->
  ready p = Pending ->
  stderrOnce p = true ->
  exitOnce p = true ->
  code <> Some 0%Z ->
  pendingRequests σ !! corrId p = Some entry ->
  resStore σ !! res entry = Some response ->
  finished response = false ->
  exists σ',
    procEvents pid [StderrData text; Exit code] σ = (Ok tt, σ') /\
    hasPendingRequest (corrId p) σ' = false /\
    resStore σ' !! res entry
    = Some {| statusCode := JNum 500; resHeaders := resHeaders response;
              finished := true; resBody := crashBody text |} /\
    Js.getProp (crashDocument text) "stack"
    = Ok (JArr (List.map JStr (JsString.split "010"%char text))).
Proof.
  intros Hp Hready Hstderr Hexit Hcode Hentry Hres Hfresh.
  unfold procEvents. cbn [forEach]. unfold mbind, SE_bind.
  rewrite (stderr_event pid p text σ Hp).
  set (σ1 := set_procStore (alter (disarm (StderrData text)) pid) σ).
  destruct (crash_with_captured_stderr pid (disarm (StderrData text) p) text code entry
              response σ1)
    as (σ' & Hrun & _ & Hgone & Hwritten).
  - subst σ1. cbn [procStore set_procStore]. rewrite list_lookup_alter_eq, Hp. reflexivity.
  - rewrite ready_disarm. exact Hready.
  - cbn. rewrite Hstderr. exact Hexit.
  - cbn. rewrite Hstderr. reflexivity.
  - exact Hcode.
  - cbn. rewrite Hstderr. subst σ1. cbn. exact Hentry.
  - subst σ1. cbn. exact Hres.
  - exact Hfresh.
  - exists σ'. rewrite Hrun. cbn [mret SE_ret]. split; [reflexivity |].
    cbn in Hgone, Hwritten. rewrite Hstderr in Hgone. cbn in Hgone.
    split; [| split; [exact Hwritten | reflexivity]].
    unfold hasPendingRequest. rewrite Hgone.
    apply bool_decide_eq_false. intros [x Hx]. discriminate.
Qed.

(** The worker of the request [r1] reports a chunk, then exits with code 1. *)
Lemma crash_after_stderr_is_answered_witness :
  exists σ',
    @procEvents PlainHost 0 [StderrData "boom"; Exit (Some 1%Z)] helloRequest
    = (Ok tt, σ') /\
    hasPendingRequest "r1" σ' = false /\
    resStore σ' !! 0%nat
    = Some {| statusCode := JNum 500; resHeaders := [];
              finished := true; resBody := crashBody "boom" |}.
Proof.
  edestruct (@crash_after_stderr_is_answered PlainHost 0 helloProc "boom" (Some 1%Z)
               (mkPending 0 "r1") freshResponse helloRequest)
    as (σ' & Hrun & Hgone & Hwritten & _);
    [reflexivity | reflexivity | reflexivity | reflexivity | discriminate
     | reflexivity | reflexivity | reflexivity |].
  exists σ'. split; [exact Hrun |]. split; [exact Hgone | exact Hwritten].
Defined.

(** ** Correlation identifiers *)

Lemma substring_empty (n m : nat) : String.substring n m "" = "".
Proof. destruct n, m; reflexivity. Qed.

Lemma between_app (s : string) :
  forall a b c : nat,
    (a <= b)%nat -> (b <= c)%nat ->
    between s a b ++ between s b c = between s a c.
Proof.
  unfold between.
  induction s as [|ch s IH]; intros a b c Hab Hbc.
  - rewrite !substring_empty. reflexivity.
  - cbn [String.length].
    destruct a as [|a].
    + destruct b as [|b].
      * cbn [Nat.min Nat.sub String.substring]. reflexivity.
      * destruct c as [|c]; [lia |].
        cbn [Nat.min]. rewrite !Nat.sub_0_r. cbn [String.substring Nat.sub].
        rewrite append_cons. f_equal.
        specialize (IH 0%nat b c). cbn [Nat.min] in IH. rewrite !Nat.sub_0_r in IH.
        apply IH; lia.
    + destruct b as [|b]; [lia |]. destruct c as [|c]; [lia |].
      cbn [Nat.min Nat.sub String.substring]. apply IH; lia.
Qed.

Lemma slice_between (s : string) (a b : Z) :
  (0 <= a <= b)%Z ->
  JsString.slice s a b = between s (Z.to_nat a) (Z.to_nat b).
Proof.
  intros Hab. unfold JsString.slice, JsString.clamp, JsString.slen, between.
  destruct (Z.ltb_spec a 0) as [Hneg|_]; [lia |].
  destruct (Z.ltb_spec b 0) as [Hneg|_]; [lia |].
  f_equal; lia.
Qed.

Lemma sliceFrom_between (s : string) (a : Z) :
  (0 <= a)%Z ->
  JsString.sliceFrom s a
  = between s (Z.to_nat a) (Nat.max (Z.to_nat a) (String.length s)).
Proof.
  intros Ha. unfold JsString.sliceFrom, JsString.slice, JsString.clamp, JsString.slen,
    between.
  destruct (Z.ltb_spec a 0) as [Hneg|_]; [lia |].
  destruct (Z.ltb_spec (Z.of_nat (String.length s)) 0) as [Hneg|_]; [lia |].
  f_equal; lia.
Qed.

Lemma between_all (s : string) (n : nat) :
  (String.length s <= n)%nat -> between s 0 n = s.
Proof.
  intros Hn. unfold between.
  rewrite Nat.min_0_l, Nat.sub_0_r, Nat.min_r by exact Hn.
  apply substring_zero_all.
Qed.

Lemma without_app (c : ascii) (a b : string) :
  without c (a ++ b) = without c a ++ without c b.
Proof.
  induction a as [|d a IH]; [reflexivity |].
  rewrite append_cons. cbn [without].
  destruct (Ascii.eqb d c); [exact IH |]. rewrite append_cons, IH. reflexivity.
Qed.

Lemma without_absent (c : ascii) (s : string) :
  occursIn c s = false -> without c s = s.
Proof.
  induction s as [|d s IH]; [reflexivity |]. cbn.
  intros Habsent. apply orb_false_iff in Habsent as [Hd Hs].
  rewrite Hd, IH by exact Hs. reflexivity.
Qed.

Lemma occursIn_substring (c : ascii) (s : string) :
  occursIn c s = false ->
  forall n m, occursIn c (String.substring n m s) = false.
Proof.
  induction s as [|d s IH]; intros Habsent n m.
  - rewrite substring_empty. reflexivity.
  - cbn in Habsent. apply orb_false_iff in Habsent as [Hd Hs].
    destruct n as [|n].
    + destruct m as [|m]; [reflexivity |]. cbn. rewrite Hd. apply IH. exact Hs.
    + cbn. apply IH. exact Hs.
Qed.

Lemma cuuid_groups (str : string) :
  JsString.slice str 0 8 ++ JsString.slice str 8 12 ++ JsString.slice str 12 16
    ++ JsString.slice str 16 20 ++ JsString.sliceFrom str 20
  = str.
Proof.
  rewrite !slice_between, sliceFrom_between by lia.
  change (Z.to_nat 0) with 0%nat. change (Z.to_nat 8) with 8%nat.
  change (Z.to_nat 12) with 12%nat. change (Z.to_nat 16) with 16%nat.
  change (Z.to_nat 20) with 20%nat.
  rewrite (between_app str 16 20) by lia.
  rewrite (between_app str 12 16) by lia.
  rewrite (between_app str 8 12) by lia.
  rewrite (between_app str 0 8) by lia.
  apply between_all. lia.
Qed.

(** X19. The identifier [cuuid] makes is the first 32 digits it drew, cut
    into five groups by four dashes: when the digits hold no dash, the
    identifier without its dashes is those digits again, and it is four
    characters longer than they are. *)
Theorem cuuid_keeps_the_digits (now random1 random2 random3 : string) :
  occursIn "-" (cuuidDigits now random1 random2 random3) = false ->
  without "-" (cuuid now random1 random2 random3)
  = JsString.slice (cuuidDigits now random1 random2 random3) 0 32 /\
  String.length (cuuid now random1 random2 random3)
  = (String.length (JsString.slice (cuuidDigits now random1 random2 random3) 0 32) + 4)%nat.
Proof.
  intros Hdigits. unfold cuuid. fold (cuuidDigits now random1 random2 random3).
  set (str := JsString.slice (cuuidDigits now random1 random2 random3) 0 32).
  assert (Hstr : occursIn "-" str = false).
  { subst str. unfold JsString.slice. apply occursIn_substring. exact Hdigits. }
  assert (Hpiece : forall a b, occursIn "-" (JsString.slice str a b) = false).
  { intros a b. unfold JsString.slice. apply occursIn_substring. exact Hstr. }
  assert (Hlast : occursIn "-" (JsString.sliceFrom str 20) = false).
  { unfold JsString.sliceFrom. apply Hpiece. }
  split.
  - rewrite !without_app.
    rewrite !(without_absent "-" (JsString.slice str _ _)) by apply Hpiece.
    rewrite (without_absent "-" (JsString.sliceFrom str 20)) by exact Hlast.
    change (without "-" "-") with "".
    change ("" ++ ?x) with x.
    cbn [String.append]. apply cuuid_groups.
  - rewrite <- (cuuid_groups str) at 6.
    rewrite !string_length_app. cbn [String.length]. lia.
Qed.

Lemma cuuid_keeps_the_digits_witness :
  cuuid "18c2f0a9b7e" "0.5f3a9c1d2e4b7" "0.a1b2c3d4e5f607" "0.123456789abcd"
  = "18c2f0a9-b7e5-f3a9-c1d2-e4b7a1b2c3d4" /\
  without "-" (cuuid "18c2f0a9b7e" "0.5f3a9c1d2e4b7" "0.a1b2c3d4e5f607" "0.123456789abcd")
  = "18c2f0a9b7e5f3a9c1d2e4b7a1b2c3d4".
Proof.
  split; [reflexivity |].
  destruct (cuuid_keeps_the_digits "18c2f0a9b7e" "0.5f3a9c1d2e4b7" "0.a1b2c3d4e5f607"
                                   "0.123456789abcd") as [Hdigits _];
    [reflexivity |].
  rewrite Hdigits. reflexivity.
Defined.

(** ** Registration replaces supervisors *)








(** ** From the request to the worker *)

Lemma functionTable_responses (f : list ServerResponse -> list ServerResponse)
      (g : gmap string PendingEntry -> gmap string PendingEntry) (flag : bool)
      (σ : World) :
  functionTable (set_pendingRequests g (if flag then set_resStore f σ else σ))
  = functionTable σ /\
  workerStore (set_pendingRequests g (if flag then set_resStore f σ else σ))
  = workerStore σ.
Proof. destruct flag; destruct σ; split; reflexivity. Qed.

(** X21. A request that passes the guards and whose path matches a route
    is handed to the worker of that route: the handler records the pending
    entry under the identifier, spawns one process and sends it the event,
    whose path is the requested URL, whose method is that of the request
    ([GET] when it has none), whose body is the chunks of the request put
    together and whose query is the single-valued form of the parsed one;
    the response is left as the CORS step left it. *)
Theorem local_request_reaches_the_worker `{NodeHost} (url_parse : string -> Exc Url)
        (settings : Settings) (id : string) (req : IncomingMessage) (r : nat)
        (σ : World) (response r1 : ServerResponse) (uriObj : Url) (mv : Props)
        (pathname : string) (f : FunctionInfo) (w : nat) (wk : ChildProcessWorker) :
  resStore σ !! r = Some response ->
  afterCors settings req response = (Ok tt, r1) ->
  enableCors settings && isOptions req = false ->
  url_parse (orElse (reqUrl req) "/") = Ok uriObj ->
  refererPasses url_parse settings req ->
  present (headerHost req)
  && negb (String.eqb (hostName (orElse (headerHost req) "")) "localhost") = false ->
  populateRequestContext settings = None ->
  multiValueHeaders (reqRawHeaders req) = Ok mv ->
  url_pathname (orElse (reqUrl req) "/") = Some pathname ->
  matchRoute (functionTable σ) pathname = Some f ->
  worker f = Some w ->
  workerStore σ !! w = Some wk ->
  exists eventObject,
    handleServerRequest url_parse settings id req r σ
    = (Ok tt,
       spawned w wk id eventObject
         (set_pendingRequests (fun m => <[id := mkPending r id]> m)
            (if enableCors settings
             then set_resStore (fun rs => <[r := r1]> rs) σ else σ))) /\
    Js.getProp eventObject "path" = Ok (JStr (orElse (reqUrl req) "/")) /\
    Js.getProp eventObject "httpMethod" = Ok (JStr (orElse (reqMethod req) "GET")) /\
    Js.getProp eventObject "body" = Ok (JStr (String.concat "" (reqChunks req))) /\
    Js.getProp eventObject "queryStringParameters"
    = Ok (JObj (singleValueQueryString (urlQuery uriObj))).
Proof.
  intros Hres Hcors Hnot Hurl Hreferer Hhost Hhook Hmv Hpathname Hmatch Hworker Hwk.
  destruct (handler_after_cors url_parse settings id req r σ response r1 Hres Hcors Hnot)
    as (σ1 & Hres1 & Hσ1 & ->).
  unfold mbind at 1, SE_bind at 1, liftExc at 1. rewrite Hurl.
  assert (Hpassed :
    (if negb (enableCors settings) && present (headerReferer req) then
       referer ← liftExc (url_parse (orElse (headerReferer req) ""));
       if negb (isLocalhost (urlHostname referer)) then
         onResponse r (refuse "expected request from localhost");; mret true
       else mret false
     else mret false) σ1 = (Ok false, σ1)).
  { destruct Hreferer as [Hoff|(referer & Hparse & Hlocal)].
    - rewrite Hoff. reflexivity.
    - destruct (negb (enableCors settings) && present (headerReferer req));
        [| reflexivity].
      unfold mbind, SE_bind, liftExc. rewrite Hparse, Hlocal. reflexivity. }
  unfold mbind at 1, SE_bind at 1. rewrite Hpassed, Hhost.
  unfold onEnd, buildEvent. rewrite Hhook, Hmv.
  unfold mbind, SE_bind, liftExc, option_bind. cbn [Exc_bind].
  eexists. split.
  - unfold mbind, Exc_bind, doDispatch.
    destruct (functionTable_responses (fun rs => <[r := r1]> rs)
                (fun m => <[id := mkPending r id]> m) (enableCors settings) σ)
      as [Htable Hworkers].
    rewrite Hσ1.
    erewrite dispatch_hit;
      [reflexivity | reflexivity | exact Hpathname | rewrite Htable; exact Hmatch
       | exact Hworker | rewrite Hworkers; exact Hwk].
  - repeat split; reflexivity.
Qed.

(** A request for [/hello] with a body in two chunks on the gateway of the
    single route. *)
Lemma local_request_reaches_the_worker_witness :
  exists eventObject,
    @handleServerRequest PlainHost examplesParse plainSettings "r1"
       (mkIncomingMessage (Some "POST") (Some "/hello") None None (Some "localhost:8080")
                          ["Host"; "localhost:8080"] ["ab"; "cd"])
       0 (run newResponse helloGateway)
    = (Ok tt,
       spawned 1 (mkWorker [] None (mkWorkerOptions "nodejs:12.x" "hello.js" None) [])
               "r1" eventObject
               (set_pendingRequests (fun m => <["r1" := mkPending 0 "r1"]> m)
                                    (run newResponse helloGateway))) /\
    Js.getProp eventObject "body" = Ok (JStr "abcd").
Proof.
  destruct (@local_request_reaches_the_worker PlainHost examplesParse plainSettings "r1"
              (mkIncomingMessage (Some "POST") (Some "/hello") None None
                                 (Some "localhost:8080")
                                 ["Host"; "localhost:8080"] ["ab"; "cd"])
              0 (run newResponse helloGateway) freshResponse freshResponse
              (mkUrl [] None) [("Host", JArr [JStr "localhost:8080"])] "/hello"
              (mkFunctionInfo "/hello" "hello.js" None (Some 1%nat)) 1%nat
              (mkWorker [] None (mkWorkerOptions "nodejs:12.x" "hello.js" None) []))
    as (eventObject & Hrun & _ & _ & Hbody & _);
    try reflexivity.
  { left. reflexivity. }
  exists eventObject. split; [exact Hrun | exact Hbody].
Defined.
